(** * Streak tracker firmware: shallow embedding and verified properties

    The embedding follows [firmware/src/main.c] (ESP-IDF build); the Arduino
    build [firmware/src/main.cpp] carries the same streak logic and is
    referred to where the two differ.

    Layout: the first part holds the embedding (one module per firmware
    component), the second part the theorems. *)

From Stdlib Require Import ZArith List String Ascii Bool Lia DecimalString.
From Stdlib Require Import Strings.Byte.
From stdpp Require Import gmap strings list fin_maps.
Import ListNotations.

Local Open Scope Z_scope.

(* ===================================================================== *)
(** * Part I: the embedding                                                *)
(* ===================================================================== *)

(** ** Machine integers *)

Module Machine.

(** [uint8_t] and [uint32_t] values are kept as [Z]; a store into such a
    variable truncates. *)
Definition u8 (z : Z) : Z := z mod 2 ^ 8.
Definition u32 (z : Z) : Z := z mod 2 ^ 32.

(** Conversion to [int]: 32 bits, two's complement. *)
Definition i32 (z : Z) : Z := (z + 2 ^ 31) mod 2 ^ 32 - 2 ^ 31.

(** [(1 << n)] on [int]. *)
Definition bit (n : Z) : Z := Z.shiftl 1 n.

(** Value of a byte as a C integer. *)
Definition byte_val (b : byte) : Z := Z.of_N (Byte.to_N b).

End Machine.

(** ** Non-volatile storage (the [nvs_*] calls)

    The flash is a map from namespace to a map from key to typed value.
    [nvs_open] in read-only mode fails on a namespace that was never
    written; in read-write mode it creates the namespace.  A getter leaves
    its out-parameter alone when the key is missing or has another type.
    Every writer in the firmware runs set, commit, close back to back, so
    the writes are applied to the flash directly. *)

Module Nvs.

Inductive value : Type :=
| U8 (v : Z)
| I32 (v : Z)
| Str (s : string).

Abbreviation namespace := (gmap string value).
Abbreviation flash := (gmap string (gmap string value)).

Definition open_readonly (f : flash) (name : string) : option namespace :=
  f !! name.

Definition open_readwrite (f : flash) (name : string) : namespace :=
  default ∅ (f !! name).

Definition close_readwrite (f : flash) (name : string) (ns : namespace) : flash :=
  <[name := ns]> f.

Definition get_u8 (ns : namespace) (key : string) (out : Z) : Z :=
  match ns !! key with
  | Some (U8 v) => v
  | _ => out
  end.

Definition get_i32 (ns : namespace) (key : string) (out : Z) : Z :=
  match ns !! key with
  | Some (I32 v) => v
  | _ => out
  end.

Definition set_u8 (ns : namespace) (key : string) (v : Z) : namespace :=
  <[key := U8 v]> ns.

Definition set_i32 (ns : namespace) (key : string) (v : Z) : namespace :=
  <[key := I32 v]> ns.

Definition set_str (ns : namespace) (key : string) (s : string) : namespace :=
  <[key := Str s]> ns.

(** What the flash holds under a namespace and key. *)
Definition lookup (f : flash) (name key : string) : option value :=
  f !! name ≫= fun ns => ns !! key.

End Nvs.

(** ** StreakStore, button handling and day rollover *)

Module Streak.
Import Machine.

(** What the firmware does to the outside world, most recent first:
    LED levels written by [update_leds], the console lines of
    [ESP_LOGI], and calls of [send_webhook]. *)
Inductive effect : Type :=
| Leds (levels : list bool)
| LogToggled (today : bool) (data : Z)
| LogShifted (data : Z)
| LogMidnight
| LogDaysSince (days : Z)
| LogLoaded (data : Z)
| LogSyncFailed
| Webhook (state : bool).

(** The file-scope variables of the STATE block, the flash and the
    effects so far. *)
Record state : Type := mkState {
  streak_data : Z;          (* uint8_t, bit 0 oldest ... bit 6 today *)
  last_day : Z;             (* int, -1 unknown *)
  today_state : bool;
  button_pressed : bool;
  last_debounce_time : Z;   (* uint32_t *)
  last_button_state : bool;
  ntp_synced : bool;
  nvs : Nvs.flash;
  effects : list effect
}.

Definition DEBOUNCE_DELAY : Z := 50.

Definition set_streak_data (v : Z) (st : state) : state :=
  mkState v (last_day st) (today_state st) (button_pressed st)
          (last_debounce_time st) (last_button_state st) (ntp_synced st)
          (nvs st) (effects st).

Definition set_last_day (v : Z) (st : state) : state :=
  mkState (streak_data st) v (today_state st) (button_pressed st)
          (last_debounce_time st) (last_button_state st) (ntp_synced st)
          (nvs st) (effects st).

Definition set_today_state (v : bool) (st : state) : state :=
  mkState (streak_data st) (last_day st) v (button_pressed st)
          (last_debounce_time st) (last_button_state st) (ntp_synced st)
          (nvs st) (effects st).

Definition set_button_pressed (v : bool) (st : state) : state :=
  mkState (streak_data st) (last_day st) (today_state st) v
          (last_debounce_time st) (last_button_state st) (ntp_synced st)
          (nvs st) (effects st).

Definition set_last_debounce_time (v : Z) (st : state) : state :=
  mkState (streak_data st) (last_day st) (today_state st) (button_pressed st)
          v (last_button_state st) (ntp_synced st)
          (nvs st) (effects st).

Definition set_last_button_state (v : bool) (st : state) : state :=
  mkState (streak_data st) (last_day st) (today_state st) (button_pressed st)
          (last_debounce_time st) v (ntp_synced st)
          (nvs st) (effects st).

Definition set_ntp_synced (v : bool) (st : state) : state :=
  mkState (streak_data st) (last_day st) (today_state st) (button_pressed st)
          (last_debounce_time st) (last_button_state st) v
          (nvs st) (effects st).

Definition set_nvs (v : Nvs.flash) (st : state) : state :=
  mkState (streak_data st) (last_day st) (today_state st) (button_pressed st)
          (last_debounce_time st) (last_button_state st) (ntp_synced st)
          v (effects st).

Definition emit (e : effect) (st : state) : state :=
  mkState (streak_data st) (last_day st) (today_state st) (button_pressed st)
          (last_debounce_time st) (last_button_state st) (ntp_synced st)
          (nvs st) (e :: effects st).

(** Initial values of the statics, over whatever the flash holds. *)
Definition boot (f : Nvs.flash) : state :=
  mkState 0 (-1) false false 0 true false f [].

(** [update_leds]: LED [i] shows [(streak_data >> i) & 1], i = 0..6. *)
Definition led_levels (data : Z) : list bool :=
  map (fun i => Z.testbit data (Z.of_nat i)) (seq 0 7).

Definition update_leds (st : state) : state :=
  emit (Leds (led_levels (streak_data st))) st.

(** [save_streak] *)
Definition save_streak (st : state) : state :=
  let ns := Nvs.open_readwrite (nvs st) "streak" in
  let ns := Nvs.set_u8 ns "data" (streak_data st) in
  let ns := if last_day st =? -1 then ns
            else Nvs.set_i32 ns "lastDay" (last_day st) in
  set_nvs (Nvs.close_readwrite (nvs st) "streak" ns) st.

(** [load_streak] *)
Definition load_streak (st : state) : state :=
  let st :=
    match Nvs.open_readonly (nvs st) "streak" with
    | Some ns =>
        let data := Nvs.get_u8 ns "data" 0 in
        let day := Nvs.get_i32 ns "lastDay" (-1) in
        set_last_day day (set_streak_data (u8 data) st)
    | None => st
    end in
  let st := set_today_state (Z.testbit (Z.shiftr (streak_data st) 6) 0) st in
  emit (LogLoaded (streak_data st)) st.

(** [send_webhook]: the HTTP POST reads the state it is given and no
    static of the streak store; it is kept as the call itself. *)
Definition send_webhook (b : bool) (st : state) : state :=
  emit (Webhook b) st.

(** [shift_streak] *)
Definition shift_streak (st : state) : state :=
  let st := set_streak_data (u8 (Z.shiftr (streak_data st) 1)) st in
  let st := set_streak_data
              (u8 (Z.land (streak_data st) (Z.lnot (bit 6)))) st in
  let st := set_today_state false st in
  let st := update_leds st in
  emit (LogShifted (streak_data st)) st.

(** [handle_button].  [reading] is the GPIO level (pull-up: [false] is
    pressed); [t1] and [t2] are what the two [millis()] calls return. *)
Definition handle_button (reading : bool) (t1 t2 : Z) (st : state) : state :=
  let st := if negb (Bool.eqb reading (last_button_state st))
            then set_last_debounce_time (u32 t1) st else st in
  let st :=
    if DEBOUNCE_DELAY <? u32 (u32 t2 - last_debounce_time st) then
      if negb reading && negb (button_pressed st) then
        let st := set_button_pressed true st in
        let st := set_today_state (negb (today_state st)) st in
        let st :=
          if today_state st
          then set_streak_data (u8 (Z.lor (streak_data st) (bit 6))) st
          else set_streak_data
                 (u8 (Z.land (streak_data st) (Z.lnot (bit 6)))) st in
        let st := update_leds st in
        let st := save_streak st in
        let st := send_webhook (today_state st) st in
        emit (LogToggled (today_state st) (streak_data st)) st
      else if reading then set_button_pressed false st
      else st
    else st in
  set_last_button_state reading st.

(** The loop of [sync_ntp]:
    [for (int i = 0; i < days_passed && i < 7; i++) shift_streak();] *)
Fixpoint shift_loop (fuel : nat) (i days_passed : Z) (st : state) : state :=
  match fuel with
  | O => st
  | S fuel' =>
      if (i <? days_passed) && (i <? 7)
      then shift_loop fuel' (i + 1) days_passed (shift_streak st)
      else st
  end.

(** [sync_ntp] from the end of the wait loop on.  [synced] is the value
    of [ntp_synced] that the SNTP callback has left when the wait loop
    ends; [yday] is [timeinfo.tm_yday] of the local time.  The [int]
    subtraction is exact: with both days within a year it cannot
    overflow. *)
Definition sync_ntp (synced : bool) (yday : Z) (st : state) : state :=
  let st := if synced then set_ntp_synced true st else st in
  if ntp_synced st then
    let st := set_last_day yday st in
    match Nvs.open_readonly (nvs st) "streak" with
    | Some ns =>
        let saved_day := Nvs.get_i32 ns "lastDay" (-1) in
        if negb (saved_day =? -1) && negb (saved_day =? last_day st) then
          let days_passed := last_day st - saved_day in
          let days_passed :=
            if days_passed <? 0 then days_passed + 365 else days_passed in
          let st := emit (LogDaysSince days_passed) st in
          let st := shift_loop 7 0 days_passed st in
          save_streak st
        else st
    | None => st
    end
  else emit LogSyncFailed st.

(** [check_midnight_rollover]; [current_day] is what [get_current_day]
    returns. *)
Definition check_midnight_rollover (current_day : Z) (st : state) : state :=
  if negb (ntp_synced st) then st
  else if current_day =? -1 then st
  else if negb (last_day st =? -1) && negb (current_day =? last_day st) then
    let st := emit LogMidnight st in
    let st := shift_streak st in
    let st := save_streak st in
    set_last_day current_day st
  else st.

(** Number of [shift_streak] runs visible in a list of effects. *)
Definition is_shift (e : effect) : bool :=
  match e with LogShifted _ => true | _ => false end.

Definition shift_count (es : list effect) : nat :=
  length (List.filter is_shift es).

(** Operations of the StreakStore named by the specification. *)
Inductive op : Type :=
| Button (reading : bool) (t1 t2 : Z)
| Shift
| Load.

Definition run_op (o : op) (st : state) : state :=
  match o with
  | Button reading t1 t2 => handle_button reading t1 t2 st
  | Shift => shift_streak st
  | Load => load_streak st
  end.

Definition run (ops : list op) (st : state) : state :=
  fold_left (fun s o => run_op o s) ops st.

End Streak.

(** ** DNSRedirector ([dns_server_task]) *)

Module Dns.
Import Machine.

(** What one turn of the receive loop does with a datagram.  [Fault] is
    a store past the end of [buffer]. *)
Inductive outcome : Type :=
| Dropped
| Sent (response : list byte)
| Fault.

(** [recvfrom(sock, buffer, sizeof(buffer), ...)]: the datagram, cut to
    the size of the buffer, lands at its start; the rest of the buffer
    keeps what earlier turns left there.  A failed receive returns -1 and
    takes the same [continue] as a short datagram. *)
Definition recvfrom (buffer dgram : list byte) : Z * list byte :=
  let n := Nat.min (length dgram) (length buffer) in
  (Z.of_nat n, firstn n dgram ++ skipn n buffer).

Definition peek (buffer : list byte) (pos : Z) : option byte :=
  buffer !! Z.to_nat pos.

(** [buffer[pos] = b], checked against the array bounds. *)
Definition poke (pos : Z) (b : byte) (buffer : list byte) : option (list byte) :=
  if (0 <=? pos) && (pos <? Z.of_nat (length buffer))
  then Some (<[Z.to_nat pos := b]> buffer)
  else None.

(** [buffer[pos++] = b] for each byte in turn. *)
Fixpoint put_bytes (bs : list byte) (pos : Z) (buffer : list byte)
  : option (list byte * Z) :=
  match bs with
  | [] => Some (buffer, pos)
  | b :: bs' =>
      match poke pos b buffer with
      | Some buffer' => put_bytes bs' (pos + 1) buffer'
      | None => None
      end
  end.

(** [while (pos < len && buffer[pos] != 0) pos += buffer[pos] + 1;] *)
Fixpoint skip_question (fuel : nat) (buffer : list byte) (len pos : Z) : Z :=
  match fuel with
  | O => pos
  | S fuel' =>
      if pos <? len then
        match peek buffer pos with
        | Some b =>
            if byte_val b =? 0 then pos
            else skip_question fuel' buffer len (pos + byte_val b + 1)
        | None => pos
        end
      else pos
  end.

(** [uint8_t ap_ip[4] = {192, 168, 4, 1}] *)
Definition ap_ip : list byte := [xc0; xa8; x04; x01].

(** The sixteen bytes stored after the question: name pointer to offset
    12, type A, class IN, TTL 60, data length 4, address. *)
Definition answer : list byte :=
  [xc0; x0c; x00; x01; x00; x01; x00; x00; x00; x3c; x00; x04] ++ ap_ip.

(** One turn of [while (1)]: the outcome and the buffer left behind. *)
Definition serve (buffer dgram : list byte) : outcome * list byte :=
  let '(len, buffer) := recvfrom buffer dgram in
  if len <? 12 then (Dropped, buffer)
  else
    let built :=
      buffer ← poke 2 x81 buffer;
      buffer ← poke 3 x80 buffer;
      buffer ← poke 6 x00 buffer;
      buffer ← poke 7 x01 buffer;
      let pos := skip_question (Z.to_nat len) buffer len 12 in
      let pos := pos + 5 in
      '(buffer, pos) ← put_bytes answer pos buffer;
      Some (firstn (Z.to_nat pos) buffer, buffer) in
    match built with
    | Some (response, buffer) => (Sent response, buffer)
    | None => (Fault, buffer)
    end.

(** The task over a sequence of inbound datagrams, one outcome each,
    until a fault. *)
Fixpoint dns_server_task (buffer : list byte) (dgrams : list (list byte))
  : list outcome :=
  match dgrams with
  | [] => []
  | d :: rest =>
      match serve buffer d with
      | (Fault, _) => [Fault]
      | (o, buffer') => o :: dns_server_task buffer' rest
      end
  end.

(** End of the question of a query: the labels, the zero byte, QTYPE and
    QCLASS, read off the datagram. *)
Definition question_end (dgram : list byte) : Z :=
  skip_question (length dgram) dgram (Z.of_nat (length dgram)) 12 + 5.

(** The datagram as [recvfrom] hands it over. *)
Definition received (buffer dgram : list byte) : list byte :=
  firstn (length buffer) dgram.

End Dns.

(** ** ClaimCode ([generate_claim_code]) *)

Module Claim.
Import Machine.

Definition NUL : ascii := "000"%char.

(** What [esp_read_mac] delivers. *)
Record mac_addr : Type := mkMac {
  mac0 : byte; mac1 : byte; mac2 : byte; mac3 : byte; mac4 : byte; mac5 : byte
}.

Definition mac_bytes (m : mac_addr) : list byte :=
  [mac0 m; mac1 m; mac2 m; mac3 m; mac4 m; mac5 m].

Definition hex_upper : list ascii := list_ascii_of_string "0123456789ABCDEF".

(** ["%02X"] of a byte. *)
Definition fmt_02X (b : byte) : list ascii :=
  [nth (Z.to_nat (byte_val b / 16)) hex_upper NUL;
   nth (Z.to_nat (byte_val b mod 16)) hex_upper NUL].

(** [mac_str]: twelve hex digits. *)
Definition mac_str (m : mac_addr) : list ascii :=
  flat_map fmt_02X (mac_bytes m).

Definition char_val (c : ascii) : Z := Z.of_nat (nat_of_ascii c).

(** [hash = hash * 31 + mac_str[i]] over the twelve digits, in
    [uint32_t]. *)
Definition hash_digits (digits : list ascii) (hash : Z) : Z :=
  fold_left (fun h c => u32 (h * 31 + char_val c)) digits hash.

(** [hash ^= (mac[i] << (i * 4))] for i = 0..5. *)
Fixpoint mix_bytes (bytes : list byte) (i : Z) (hash : Z) : Z :=
  match bytes with
  | [] => hash
  | b :: rest =>
      mix_bytes rest (i + 1)
                (u32 (Z.lxor hash (Z.shiftl (byte_val b) (i * 4))))
  end.

Definition chars : list ascii :=
  list_ascii_of_string "ABCDEFGHJKLMNPQRSTUVWXYZ23456789".

(** [for (int i = 0; i < 10 && i < (int)len - 1; i++)
      { code[i] = chars[hash % 32]; hash /= 32; }]; [len] is the
    [size_t] argument, converted to [int] for the comparison. *)
Fixpoint fill_code (fuel : nat) (i len : Z) (hash : Z) (code : list ascii)
  : list ascii :=
  match fuel with
  | O => code
  | S fuel' =>
      if (i <? 10) && (i <? i32 len - 1) then
        let code := <[Z.to_nat i := nth (Z.to_nat (hash mod 32)) chars NUL]> code in
        fill_code fuel' (i + 1) len (hash / 32) code
      else code
  end.

(** The two hashing loops: the value of [hash] before the code is
    drawn from it. *)
Definition mac_hash (m : mac_addr) : Z :=
  let hash := hash_digits (mac_str m) 0 in
  mix_bytes (mac_bytes m) 0 hash.

(** [generate_claim_code(code, len)]: [code] is the caller's buffer of
    [len] bytes with whatever it held before. *)
Definition generate_claim_code (m : mac_addr) (code : list ascii) (len : Z)
  : list ascii :=
  let hash := mac_hash m in
  let code := fill_code 10 0 len hash code in
  let last := u32 (len - 1) in
  <[Z.to_nat (if 10 <? last then 10 else last) := NUL]> code.

(** The C string held by a buffer: the characters before the first NUL. *)
Fixpoint c_string (buf : list ascii) : list ascii :=
  match buf with
  | [] => []
  | c :: rest => if Ascii.eqb c NUL then [] else c :: c_string rest
  end.

(** [generate_claim_code(s_claim_code, sizeof(s_claim_code))] of
    [app_main], as the string it leaves in [s_claim_code[12]]. *)
Definition claim_code (m : mac_addr) (s_claim_code : list ascii) : list ascii :=
  c_string (generate_claim_code m s_claim_code 12).

End Claim.

(** ** Webhook signature ([bytes_to_hex], [calculate_hmac_signature]) *)

Module Hmac.
Import Machine.

Definition hex_chars : list ascii := list_ascii_of_string "0123456789abcdef".

(** [bytes_to_hex(bytes, len, hex_str)] *)
Definition bytes_to_hex (bytes : list byte) (len : nat) : list ascii :=
  flat_map
    (fun i =>
       let b := byte_val (nth i bytes x00) in
       [nth (Z.to_nat (Z.land (Z.shiftr b 4) 15)) hex_chars Claim.NUL;
        nth (Z.to_nat (Z.land b 15)) hex_chars Claim.NUL])
    (seq 0 len).

Section Signature.
(** The HMAC peripheral keyed from eFuse block KEY4: on success it
    fills the 32-byte output array. *)
Variable esp_hmac_calculate : list byte -> option (list byte).

Definition calculate_hmac_signature (s_hmac_available : bool)
           (message : list byte) : option (list ascii) :=
  if negb s_hmac_available then None
  else match esp_hmac_calculate message with
       | Some hmac => Some (bytes_to_hex hmac 32)
       | None => None
       end.
End Signature.

End Hmac.

(** ** C strings and [printf] pieces used by the HTTP handlers *)

Module CStr.

Definition NUL : ascii := "000"%char.
Definition DQUOTE : ascii := "034"%char.

Definition dq : string := String DQUOTE EmptyString.

(** A JSON string literal: the text between two double quotes. *)
Definition quoted (s : string) : string := dq ++ s ++ dq.

(** What the string functions see of a buffer: up to the first NUL. *)
Fixpoint c_str (s : string) : string :=
  match s with
  | EmptyString => EmptyString
  | String c rest => if Ascii.eqb c NUL then EmptyString else String c (c_str rest)
  end.

Fixpoint drop (n : nat) (s : string) : string :=
  match n, s with
  | O, _ => s
  | S n', String _ rest => drop n' rest
  | S _, EmptyString => EmptyString
  end.

(** [strstr]: the tail of [hay] from the first occurrence of [needle]. *)
Fixpoint strstr (hay needle : string) : option string :=
  if String.prefix needle hay then Some hay
  else match hay with
       | EmptyString => None
       | String _ rest => strstr rest needle
       end.

(** [strchr(s, c) - s]: offset of the first [c]. *)
Fixpoint strchr (s : string) (c : ascii) : option nat :=
  match s with
  | EmptyString => None
  | String d rest => if Ascii.eqb d c then Some O else S <$> strchr rest c
  end.

(** ["%d"] *)
Definition fmt_d (z : Z) : string := NilZero.string_of_int (Z.to_int z).

(** [snprintf(buf, size, ...)] into a zeroed or fresh buffer: at most
    [size - 1] characters are kept. *)
Definition snprintf (size : nat) (text : string) : string :=
  String.substring 0 (size - 1) text.

End CStr.

(** ** CaptivePortalServer: [wifi_event_handler], [http_scan_handler],
       [http_connect_handler] *)

Module Portal.
Import CStr.

Definition WIFI_MAXIMUM_RETRY : Z := 5.

Inductive wifi_event : Type :=
| WIFI_EVENT_STA_START
| WIFI_EVENT_STA_DISCONNECTED
| IP_EVENT_STA_GOT_IP.

Inductive auth_mode : Type :=
| WIFI_AUTH_OPEN
| WIFI_AUTH_WPA2_PSK.

Record sta_config : Type := mkSta {
  sta_ssid : string;
  sta_password : string;
  sta_threshold : auth_mode
}.

(** Calls into the WiFi driver and the scheduler, tagged with the task
    that makes them. *)
Inductive task : Type := HttpTask | EventTask.

Inductive call : Type :=
| esp_wifi_disconnect
| vTaskDelay (ms : Z)
| esp_wifi_set_config (cfg : sta_config)
| esp_wifi_connect
| xEventGroupWaitBits (ms : Z).

(** The event group: [WIFI_CONNECTED_BIT] and [WIFI_FAIL_BIT]. *)
Record event_bits : Type := mkBits { connected_bit : bool; fail_bit : bool }.

(** The WIFI CONFIGURATION statics, the flash, and the calls made so
    far (most recent first).  [s_wifi_event_group] is [None] while the
    handle is NULL. *)
Record state : Type := mkState {
  s_retry_num : Z;
  s_wifi_event_group : option event_bits;
  s_provisioning_done : bool;
  s_claim_code : string;
  nvs : Nvs.flash;
  calls : list (task * call)
}.

Definition set_retry (v : Z) (st : state) : state :=
  mkState v (s_wifi_event_group st) (s_provisioning_done st)
          (s_claim_code st) (nvs st) (calls st).

Definition set_group (v : option event_bits) (st : state) : state :=
  mkState (s_retry_num st) v (s_provisioning_done st)
          (s_claim_code st) (nvs st) (calls st).

Definition set_done (v : bool) (st : state) : state :=
  mkState (s_retry_num st) (s_wifi_event_group st) v
          (s_claim_code st) (nvs st) (calls st).

Definition set_nvs (v : Nvs.flash) (st : state) : state :=
  mkState (s_retry_num st) (s_wifi_event_group st) (s_provisioning_done st)
          (s_claim_code st) v (calls st).

Definition do_call (t : task) (c : call) (st : state) : state :=
  mkState (s_retry_num st) (s_wifi_event_group st) (s_provisioning_done st)
          (s_claim_code st) (nvs st) ((t, c) :: calls st).

(** [xEventGroupSetBits] / [xEventGroupClearBits] behind
    [if (s_wifi_event_group)]. *)
Definition set_connected (st : state) : state :=
  match s_wifi_event_group st with
  | Some b => set_group (Some (mkBits true (fail_bit b))) st
  | None => st
  end.

Definition set_fail (st : state) : state :=
  match s_wifi_event_group st with
  | Some b => set_group (Some (mkBits (connected_bit b) true)) st
  | None => st
  end.

Definition clear_bits (st : state) : state :=
  match s_wifi_event_group st with
  | Some _ => set_group (Some (mkBits false false)) st
  | None => st
  end.

(** [wifi_event_handler], run on the event task. *)
Definition wifi_event_handler (ev : wifi_event) (st : state) : state :=
  match ev with
  | WIFI_EVENT_STA_START => do_call EventTask esp_wifi_connect st
  | WIFI_EVENT_STA_DISCONNECTED =>
      if s_retry_num st <? WIFI_MAXIMUM_RETRY then
        let st := do_call EventTask esp_wifi_connect st in
        set_retry (s_retry_num st + 1) st
      else set_fail st
  | IP_EVENT_STA_GOT_IP =>
      let st := set_retry 0 st in
      set_connected st
  end.

(** Events delivered while the HTTP task sleeps in [vTaskDelay]. *)
Definition deliver (evs : list wifi_event) (st : state) : state :=
  fold_left (fun s e => wifi_event_handler e s) evs st.

Definition any_bit (st : state) : bool :=
  match s_wifi_event_group st with
  | Some b => connected_bit b || fail_bit b
  | None => false
  end.

(** [xEventGroupWaitBits(group, CONNECTED | FAIL, pdFALSE, pdFALSE,
    timeout)]: events are handled until one of the two bits is up; the
    events listed are those that arrive before the timeout. *)
Fixpoint wait_bits (evs : list wifi_event) (st : state) : state :=
  if any_bit st then st
  else match evs with
       | [] => st
       | e :: rest => wait_bits rest (wifi_event_handler e st)
       end.

(** [save_wifi_credentials] *)
Definition save_wifi_credentials (ssid password : string) (st : state) : state :=
  let ns := Nvs.open_readwrite (nvs st) "wifi" in
  let ns := Nvs.set_str ns "ssid" ssid in
  let ns := Nvs.set_str ns "password" password in
  set_nvs (Nvs.close_readwrite (nvs st) "wifi" ns) st.

(** What the handler hands to [httpd]. *)
Inductive reply : Type :=
| Json (body : string)
| HttpError (status : Z) (msg : string)
| Aborted.

(** What the surroundings contribute to one run of the connect handler:
    the request body as [httpd_req_recv] finds it ([None]: the receive
    fails), the events arriving during the 100 ms delay, whether the
    driver takes the new station configuration, and the events arriving
    during the 15 s wait. *)
Record connect_env : Type := mkEnv {
  request_body : option string;
  during_delay : list wifi_event;
  config_accepted : bool;
  during_wait : list wifi_event
}.

(** [httpd_req_recv(req, content, size)]: return value and bytes read. *)
Definition httpd_req_recv (body : option string) (size : nat) : Z * string :=
  match body with
  | None => (-1, EmptyString)
  | Some s =>
      let got := String.substring 0 size s in
      (Z.of_nat (String.length got), got)
  end.

(** The hand-rolled field scan of the connect handler, written once for
    both fields: find [key], step over it, take the text before the next
    double quote if it fits a zeroed buffer of [cap] bytes. *)
Definition scan_field (content key : string) (cap : nat) : string :=
  match strstr content key with
  | Some start =>
      let start := drop (String.length key) start in
      match strchr start DQUOTE with
      | Some len => if (len <? cap)%nat then String.substring 0 len start
                    else EmptyString
      | None => EmptyString
      end
  | None => EmptyString
  end.

Definition ssid_key : string := quoted "ssid" ++ ":" ++ dq.
Definition password_key : string := quoted "password" ++ ":" ++ dq.

Definition parse_ssid (content : string) : string :=
  scan_field (c_str content) ssid_key 33.

Definition parse_password (content : string) : string :=
  scan_field (c_str content) password_key 65.

Definition no_ssid_reply : string :=
  "{" ++ quoted "success" ++ ":false," ++ quoted "error" ++ ":"
      ++ quoted "No SSID provided" ++ "}".

Definition failed_reply : string :=
  "{" ++ quoted "success" ++ ":false," ++ quoted "error" ++ ":"
      ++ quoted "Failed to connect to network" ++ "}".

Definition success_reply (claim_code : string) : string :=
  "{" ++ quoted "success" ++ ":true," ++ quoted "claim_code" ++ ":"
      ++ quoted claim_code ++ "}".

(** [wifi_config] as the handler fills it: [strncpy] with the field
    size less one. *)
Definition station_config (ssid password : string) : sta_config :=
  if (0 <? String.length password)%nat
  then mkSta (String.substring 0 31 ssid) (String.substring 0 63 password)
             WIFI_AUTH_WPA2_PSK
  else mkSta (String.substring 0 31 ssid) EmptyString WIFI_AUTH_OPEN.

(** [http_connect_handler] *)
Definition http_connect_handler (env : connect_env) (st : state)
  : reply * state :=
  let '(ret, content) := httpd_req_recv (request_body env) 255 in
  if ret <=? 0 then (HttpError 400 "Invalid request", st)
  else
    let ssid := parse_ssid content in
    let password := parse_password content in
    if (String.length ssid =? 0)%nat then (Json no_ssid_reply, st)
    else
      let wifi_config := station_config ssid password in
      let st := set_retry 0 st in
      let st := clear_bits st in
      let st := do_call HttpTask esp_wifi_disconnect st in
      let st := do_call HttpTask (vTaskDelay 100) st in
      let st := deliver (during_delay env) st in
      let st := do_call HttpTask (esp_wifi_set_config wifi_config) st in
      if negb (config_accepted env) then (Aborted, st)
      else
        let st := do_call HttpTask esp_wifi_connect st in
        let st := do_call HttpTask (xEventGroupWaitBits 15000) st in
        match s_wifi_event_group st with
        | None => (Aborted, st)
        | Some _ =>
            let st := wait_bits (during_wait env) st in
            match s_wifi_event_group st with
            | Some bits =>
                if connected_bit bits then
                  let st := save_wifi_credentials ssid password st in
                  let st := set_done true st in
                  (Json (snprintf 256 (success_reply (s_claim_code st))), st)
                else (Json (snprintf 256 failed_reply), st)
            | None => (Aborted, st)
            end
        end.

(** One [wifi_ap_record_t] of a scan, as far as the handler reads it. *)
Record ap_record : Type := mkAp {
  ap_ssid : string;
  ap_rssi : Z;       (* int8_t, dBm *)
  ap_authmode : Z
}.

Inductive scan_reply : Type :=
| ScanJson (body : string)
| ScanError (status : Z) (msg : string)
| ScanFault.

(** The loop over [ap_records]; [response] is the string built so far
    and [offset] the running sum of the [snprintf] results.  [None] is a
    store past the 2048 bytes of [response]. *)
Fixpoint scan_entries (records : list ap_record) (response : string)
         (offset : Z) : option (string * Z) :=
  match records with
  | [] => Some (response, offset)
  | r :: rest =>
      if (String.length (ap_ssid r) =? 0)%nat
      then scan_entries rest response offset
      else
        let rssi_level :=
          if -50 <=? ap_rssi r then 4
          else if -60 <=? ap_rssi r then 3
          else if -70 <=? ap_rssi r then 2
          else 1 in
        let comma : string := if 15 <? offset then "," else "" in
        let text : string :=
          (comma
             ++ "{" ++ quoted "ssid" ++ ":" ++ quoted (ap_ssid r)
             ++ "," ++ quoted "rssi" ++ ":" ++ fmt_d (ap_rssi r)
             ++ "," ++ quoted "auth" ++ ":" ++ fmt_d (ap_authmode r)
             ++ "}")%string in
        let size := 2048 - offset in
        if size <? 0 then None
        else
          let response :=
            if size =? 0 then response
            else (response ++ snprintf (Z.to_nat size) text)%string in
          scan_entries rest response (offset + Z.of_nat (String.length text))
  end.

Definition networks_open : string := "{" ++ quoted "networks" ++ ":[".

(** [http_scan_handler].  [found] is what the driver's scan holds;
    [records_ok] and [response_ok] tell whether the two [malloc] calls
    return memory. *)
Definition http_scan_handler (found : list ap_record)
           (records_ok response_ok : bool) : scan_reply :=
  let ap_count := Nat.min (length found) 20 in
  if negb records_ok then ScanError 500 "Memory error"
  else
    let ap_records := firstn ap_count found in
    if negb response_ok then ScanError 500 "Memory error"
    else
      let response := networks_open in
      let offset := Z.of_nat (String.length response) in
      match scan_entries ap_records response offset with
      | None => ScanFault
      | Some (response, _) =>
          if (2048 <? String.length response + 3)%nat then ScanFault
          else ScanJson (response ++ "]}")%string
      end.

End Portal.

(** ** Vocabulary of the specification *)

Module Spec.
Import Streak.

(** Bit 6 of the mapping equals [todayFlag]. *)
Definition bit6_matches_today (st : state) : Prop :=
  Z.testbit (streak_data st) 6 = today_state st.

(** The states reached after each operation of a sequence, in order. *)
Fixpoint trajectory (ops : list op) (st : state) : list state :=
  match ops with
  | [] => []
  | o :: rest => let st' := run_op o st in st' :: trajectory rest st'
  end.

(** [daysElapsed = currentDay - lastRecordedDay], plus 365 if negative. *)
Definition days_elapsed (current_day last_recorded_day : Z) : Z :=
  let d := current_day - last_recorded_day in
  if d <? 0 then d + 365 else d.

(** The streak and its day are on flash as they are in memory. *)
Definition persisted (st : state) : Prop :=
  Nvs.lookup (nvs st) "streak" "data" = Some (Nvs.U8 (streak_data st)) /\
  Nvs.lookup (nvs st) "streak" "lastDay" = Some (Nvs.I32 (last_day st)).

(** The rollover check of a steady-loop tick as the specification words
    it: [min(daysElapsed, 7)] shifts, the mapping persisted, the day
    updated. *)
Definition rollover_claim (st : state) (current_day : Z) : Prop :=
  ntp_synced st = true ->
  current_day <> last_day st ->
  let st' := check_midnight_rollover current_day st in
  shift_count (effects st')
    = (Z.to_nat (Z.min (days_elapsed current_day (last_day st)) 7)
       + shift_count (effects st))%nat /\
  Nvs.lookup (nvs st') "streak" "data" = Some (Nvs.U8 (streak_data st')) /\
  last_day st' = current_day.

(** *** DNS replies *)

Definition byte_of (z : Z) : byte := default x00 (Byte.of_N (Z.to_N z)).

Definition be16 (z : Z) : list byte := [byte_of (z / 256); byte_of (z mod 256)].

Definition be32 (z : Z) : list byte :=
  be16 (z / 65536) ++ be16 (z mod 65536).

(** An answer record for the name at offset 12 of the message: type A,
    class IN, the given TTL in seconds and IPv4 address. *)
Definition a_record (ttl : Z) (address : list byte) : list byte :=
  [xc0; x0c] ++ be16 1 ++ be16 1 ++ be32 ttl
    ++ be16 (Z.of_nat (length address)) ++ address.

(** The portal's own address, 192.168.4.1. *)
Definition portal_address : list byte := map byte_of [192; 168; 4; 1].

(** A reply to [query]: same transaction ID (bytes 0-1), answer count 1
    (bytes 6-7), and after the header the question bytes of the query
    followed by one A record for the portal with a TTL of 60 seconds. *)
Definition dns_reply_ok (query response : list byte) : Prop :=
  take 2 response = take 2 query /\
  response !! 6%nat = Some x00 /\ response !! 7%nat = Some x01 /\
  exists question,
    drop 12 response = question ++ a_record 60 portal_address /\
    question `prefix_of` drop 12 query.

(** The redirector as the specification words it: every datagram of at
    least 12 bytes gets one such reply, every shorter one none. *)
Definition dns_claim (buffer dgram : list byte) : Prop :=
  ((12 <= length dgram)%nat ->
     exists response,
       fst (Dns.serve buffer dgram) = Dns.Sent response /\
       dns_reply_ok dgram response) /\
  ((length dgram < 12)%nat -> fst (Dns.serve buffer dgram) = Dns.Dropped).

(** *** Captive portal *)

Definition by_http_task (tc : Portal.task * Portal.call) : bool :=
  match fst tc with
  | Portal.HttpTask => true
  | Portal.EventTask => false
  end.

(** The driver and scheduler calls made by the HTTP task, most recent
    first. *)
Definition http_calls (st : Portal.state) : list Portal.call :=
  map snd (List.filter by_http_task (Portal.calls st)).

(** [WIFI_CONNECTED_BIT] is up. *)
Definition connected (st : Portal.state) : bool :=
  match Portal.s_wifi_event_group st with
  | Some b => Portal.connected_bit b
  | None => false
  end.

(** The retry counter and the event group: what the connect handler
    resets and the event handler works on. *)
Definition signals (st : Portal.state) : Z * option Portal.event_bits :=
  (Portal.s_retry_num st, Portal.s_wifi_event_group st).

(** The request body as the connect handler gets it: empty when the
    receive fails. *)
Definition posted (env : Portal.connect_env) : string :=
  default EmptyString (Portal.request_body env).

(** The first sentence of the connect claim as the specification words
    it: a body whose parsed SSID is empty gets the No-SSID reply, and
    the state is left as it was. *)
Definition connect_claim (env : Portal.connect_env) (st : Portal.state)
  : Prop :=
  forall body,
    Portal.request_body env = Some body ->
    Portal.parse_ssid (String.substring 0 255 body) = EmptyString ->
    Portal.http_connect_handler env st
    = (Portal.Json Portal.no_ssid_reply, st).

(** What the event task leaves alone: flash, claim code, the
    provisioning flag, the HTTP task's calls, and whether the event
    group exists. *)
Definition event_frame (st st' : Portal.state) : Prop :=
  Portal.nvs st' = Portal.nvs st /\
  Portal.s_claim_code st' = Portal.s_claim_code st /\
  Portal.s_provisioning_done st' = Portal.s_provisioning_done st /\
  http_calls st' = http_calls st /\
  (Portal.s_wifi_event_group st' = None <->
   Portal.s_wifi_event_group st = None).

(** The body the portal page posts to [/api/connect]. *)
Definition connect_request (ssid password : string) : string :=
  "{" ++ CStr.quoted "ssid" ++ ":" ++ CStr.quoted ssid ++ ","
      ++ CStr.quoted "password" ++ ":" ++ CStr.quoted password ++ "}".

(** One element of the [networks] array of a scan reply, and the
    reply around its elements. *)
Definition network_entry (ssid rssi auth : string) : string :=
  "{" ++ CStr.quoted "ssid" ++ ":" ++ CStr.quoted ssid ++ ","
      ++ CStr.quoted "rssi" ++ ":" ++ rssi ++ ","
      ++ CStr.quoted "auth" ++ ":" ++ auth ++ "}".

Definition networks_reply (entries : string) : string :=
  Portal.networks_open ++ entries ++ "]}".

(** *** Claim code *)

(** The characters [chars[hash % 32]] drawn while [hash /= 32]. *)
Fixpoint code_digits (n : nat) (hash : Z) : list ascii :=
  match n with
  | O => []
  | S n' => nth (Z.to_nat (hash mod 32)) Claim.chars Claim.NUL
              :: code_digits n' (hash / 32)
  end.

(** The buffer after the four header stores. *)
Definition stamped (buffer : list byte) : list byte :=
  <[7%nat := x01]> (<[6%nat := x00]> (<[3%nat := x80]> (<[2%nat := x81]> buffer))).

End Spec.

(** ** Factory reset and restart ([clear_wifi_credentials],
       [clear_streak_data], [http_reset_handler], the head of [app_main]) *)

Module Reset.
Import Streak.

(** [nvs_erase_all] and [nvs_commit] on a namespace opened read-write. *)
Definition erase_all (f : Nvs.flash) (name : string) : Nvs.flash :=
  Nvs.close_readwrite f name ∅.

(** [clear_wifi_credentials] *)
Definition clear_wifi_credentials (st : state) : state :=
  set_nvs (erase_all (nvs st) "wifi") st.

(** [clear_streak_data] *)
Definition clear_streak_data (st : state) : state :=
  let st := set_nvs (erase_all (nvs st) "streak") st in
  let st := set_streak_data 0 st in
  let st := set_today_state false st in
  let st := set_last_day (-1) st in
  update_leds st.

Definition reset_reply : string := "{" ++ CStr.quoted "success" ++ ":true}".

(** [http_reset_handler] up to [esp_restart]: the reply and the state the
    device restarts from. *)
Definition http_reset_handler (st : state) : string * state :=
  let st := clear_wifi_credentials st in
  let st := clear_streak_data st in
  (reset_reply, st).

(** What [app_main] does with the streak store on start: statics at
    their initial values, [load_streak], [update_leds]. *)
Definition restart (f : Nvs.flash) : state :=
  update_leds (load_streak (boot f)).

(** The steady loop's rollover checks over the days that successive
    ticks see. *)
Definition ticks (days : list Z) (st : state) : state :=
  fold_left (fun s d => check_midnight_rollover d s) days st.

(** Successive [handle_button] calls with the button held down
    (level low); each call comes with its two [millis()] readings. *)
Definition held (times : list (Z * Z)) (st : state) : state :=
  fold_left (fun s t => handle_button false (fst t) (snd t) s) times st.

Definition is_toggle (e : effect) : bool :=
  match e with LogToggled _ _ => true | _ => false end.

(** Number of toggles visible in a list of effects. *)
Definition toggle_count (es : list effect) : nat :=
  length (List.filter is_toggle es).

End Reset.

(** ** Stored credentials ([connect_with_saved_credentials], its reading
       of the flash and the station configuration it builds) *)

Module Station.

(** [nvs_get_str(nvs, key, buf, &len)] into a zeroed buffer of [cap]
    bytes: [None] when the key is missing, is no string, or does not fit
    with its terminator. *)
Definition get_str (ns : gmap string Nvs.value) (key : string) (cap : nat)
  : option string :=
  match ns !! key with
  | Some (Nvs.Str s) => if (String.length s <? cap)%nat then Some s else None
  | _ => None
  end.

(** The head of [connect_with_saved_credentials]: [None] where it
    returns [false] before touching the driver, otherwise the SSID and
    password it goes on with (the password stays empty when it cannot be
    read). *)
Definition saved_credentials (f : Nvs.flash) : option (string * string) :=
  match Nvs.open_readonly f "wifi" with
  | None => None
  | Some ns =>
      match get_str ns "ssid" 33 with
      | None => None
      | Some ssid =>
          if (String.length ssid =? 0)%nat then None
          else Some (ssid, default EmptyString (get_str ns "password" 65))
      end
  end.

(** [wifi_config] of [connect_with_saved_credentials]. *)
Definition saved_station_config (ssid password : string) : Portal.sta_config :=
  Portal.mkSta (String.substring 0 31 ssid) (String.substring 0 63 password)
               Portal.WIFI_AUTH_WPA2_PSK.

End Station.

(** ** Device identity string ([get_mac_address]) *)

Module Identity.
Import Machine.

(** ["%02X:%02X:%02X:%02X:%02X:%02X"] of the MAC address. *)
Fixpoint colon_separated (bytes : list byte) : list ascii :=
  match bytes with
  | [] => []
  | [b] => Claim.fmt_02X b
  | b :: rest => Claim.fmt_02X b ++ ":"%char :: colon_separated rest
  end.

(** [get_mac_address(mac_str, len)] as the string left in [mac_str]:
    [snprintf] keeps at most [len - 1] characters. *)
Definition get_mac_address (m : Claim.mac_addr) (len : nat) : list ascii :=
  firstn (len - 1) (colon_separated (Claim.mac_bytes m)).

End Identity.

(** ** Provisioning animation ([animate_leds]) *)

Module Leds.
Import Machine.

Definition ANIMATION_INTERVAL : Z := 100.

(** [animation_index] (an [int]) and [last_animation_time] (a
    [uint32_t]). *)
Record anim : Type := mkAnim {
  animation_index : Z;
  last_animation_time : Z
}.

(** [cycle = animation_index % 12] and the choice of [led_index]; [%]
    truncates toward zero. *)
Definition led_index (index : Z) : Z :=
  let cycle := Z.rem index 12 in
  if cycle <? 7 then cycle else 12 - cycle.

(** What one call does to the seven LEDs. *)
Inductive lit : Type :=
| Unchanged
| Levels (levels : list bool)
| OutOfRange.

(** Largest value of an [int]. *)
Definition INT_MAX : Z := 2147483647.

(** One call: the LEDs and the two statics after it, or the LEDs as
    set when [animation_index++] overflows the [int]. *)
Inductive step : Type :=
| Stepped (leds : lit) (a : anim)
| Overflow (leds : lit).

(** [animate_leds]; [now] is what [millis()] returns. *)
Definition animate_leds (now : Z) (a : anim) : step :=
  if ANIMATION_INTERVAL <=? u32 (u32 now - last_animation_time a) then
    let i := led_index (animation_index a) in
    let leds :=
      if (0 <=? i) && (i <? 7)
      then Levels (<[Z.to_nat i := true]> (repeat false 7))
      else OutOfRange in
    if animation_index a <? INT_MAX
    then Stepped leds (mkAnim (animation_index a + 1) (u32 now))
    else Overflow leds
  else Stepped Unchanged a.

End Leds.

(** ** Timezone response buffer ([tz_http_event_handler]) *)

Module Timezone.

(** [sizeof(tz_response_buffer)] *)
Definition BUFFER_SIZE : nat := 128.

(** [HTTP_EVENT_ON_DATA]: the bytes held so far ([tz_response_len] of
    them) and one more chunk. *)
Definition on_data (held : string) (chunk : string) : string :=
  if (String.length held + String.length chunk <? BUFFER_SIZE - 1)%nat
  then held ++ chunk
  else held.

(** The buffer after the chunks of one response, starting from
    [tz_response_len = 0]. *)
Definition collect (chunks : list string) : string :=
  fold_left on_data chunks EmptyString.

End Timezone.

(** ** Further vocabulary for statements *)

Module Props.

(** The character occurs in the string. *)
Fixpoint has_char (c : ascii) (s : string) : bool :=
  match s with
  | EmptyString => false
  | String d rest => Ascii.eqb d c || has_char c rest
  end.

(** Text that survives the portal's field scan: no double quote to end
    the field early, no NUL to end the C string. *)
Definition plain (s : string) : Prop :=
  has_char CStr.DQUOTE s = false /\ has_char CStr.NUL s = false.

Definition is_event_connect (tc : Portal.task * Portal.call) : bool :=
  match tc with
  | (Portal.EventTask, Portal.esp_wifi_connect) => true
  | _ => false
  end.

(** Number of [esp_wifi_connect] calls made from the event handler. *)
Definition event_connects (st : Portal.state) : nat :=
  length (List.filter is_event_connect (Portal.calls st)).

Definition fail_up (st : Portal.state) : bool :=
  match Portal.s_wifi_event_group st with
  | Some b => Portal.fail_bit b
  | None => false
  end.

(** The records a scan reply lists: the first twenty, less the ones
    without a name. *)
Definition listed (found : list Portal.ap_record) : list Portal.ap_record :=
  List.filter (fun r => negb (String.length (Portal.ap_ssid r) =? 0)%nat)
              (firstn 20 found).

(** One record as the handler prints it. *)
Definition entry_of (r : Portal.ap_record) : string :=
  Spec.network_entry (Portal.ap_ssid r) (CStr.fmt_d (Portal.ap_rssi r))
                     (CStr.fmt_d (Portal.ap_authmode r)).

(** The entries separated by commas; [started] tells whether an entry
    precedes them. *)
Fixpoint entries_text (started : bool) (records : list Portal.ap_record)
  : string :=
  match records with
  | [] => EmptyString
  | r :: rest =>
      ((if started then "," else "") ++ entry_of r ++ entries_text true rest)%string
  end.

(** Value of a hexadecimal digit in the given digit table. *)
Fixpoint digit_index (table : list ascii) (c : ascii) : option Z :=
  match table with
  | [] => None
  | d :: rest => if Ascii.eqb d c then Some 0
                 else Z.succ <$> digit_index rest c
  end.

(** Reading back pairs of hexadecimal digits as bytes. *)
Fixpoint unhex (table : list ascii) (digits : list ascii) : option (list byte) :=
  match digits with
  | [] => Some []
  | hi :: lo :: rest =>
      h ← digit_index table hi;
      l ← digit_index table lo;
      b ← Byte.of_N (Z.to_N (16 * h + l));
      bs ← unhex table rest;
      Some (b :: bs)
  | _ => None
  end.

(** A scan record within the field sizes of the driver's record type:
    [uint8_t ssid[33]], [int8_t rssi], an authentication mode of at most
    two digits. *)
Definition record_in_range (r : Portal.ap_record) : Prop :=
  (String.length (Portal.ap_ssid r) <= 32)%nat /\
  (-128 <= Portal.ap_rssi r <= 127)%Z /\
  (0 <= Portal.ap_authmode r <= 99)%Z.

(** The two digits [bytes_to_hex] stores for one byte. *)
Definition hex_pair (b : byte) : list ascii :=
  [nth (Z.to_nat (Z.land (Z.shiftr (Machine.byte_val b) 4) 15))
       Hmac.hex_chars Claim.NUL;
   nth (Z.to_nat (Z.land (Machine.byte_val b) 15)) Hmac.hex_chars Claim.NUL].

End Props.

(* ===================================================================== *)
(** * Part II: theorems                                                    *)
(* ===================================================================== *)

(** ** Bit-level facts about the mapping *)

Section StreakBits.
Import Machine Streak.

Lemma bit6_value : bit 6 = 2 ^ 6.
Proof. reflexivity. Qed.

Lemma u8_testbit_low z i : 0 <= i < 8 -> Z.testbit (u8 z) i = Z.testbit z i.
Proof. intros Hi. unfold u8. apply Z.mod_pow2_bits_low. lia. Qed.

Lemma u8_range z : 0 <= u8 z < 256.
Proof. unfold u8. apply Z.mod_pos_bound. lia. Qed.

Lemma set_bit6 z : Z.testbit (u8 (Z.lor z (bit 6))) 6 = true.
Proof.
  rewrite u8_testbit_low by lia.
  rewrite Z.lor_spec, bit6_value, Z.pow2_bits_eqb by lia.
  rewrite Z.eqb_refl. apply orb_true_r.
Qed.

Lemma clear_bit6 z : Z.testbit (u8 (Z.land z (Z.lnot (bit 6)))) 6 = false.
Proof.
  rewrite u8_testbit_low by lia.
  rewrite Z.land_spec, Z.lnot_spec, bit6_value, Z.pow2_bits_eqb by lia.
  rewrite Z.eqb_refl. apply andb_false_r.
Qed.

Lemma clear_bit6_other z i :
  0 <= i < 8 -> i <> 6 ->
  Z.testbit (u8 (Z.land z (Z.lnot (bit 6)))) i = Z.testbit z i.
Proof.
  intros Hi Hne. rewrite u8_testbit_low by lia.
  rewrite Z.land_spec, Z.lnot_spec, bit6_value, Z.pow2_bits_eqb by lia.
  destruct (Z.eqb_spec 6 i); [lia|]. apply andb_true_r.
Qed.

(** The two assignments of [shift_streak] on the mapping alone. *)
Lemma shift_streak_data st :
  streak_data (shift_streak st)
  = u8 (Z.land (u8 (Z.shiftr (streak_data st) 1)) (Z.lnot (bit 6))).
Proof. reflexivity. Qed.

(** On a [uint8_t] the shift keeps bits 1..6 and moves them down. *)
Lemma shift_streak_closed st :
  0 <= streak_data st < 256 ->
  streak_data (shift_streak st) = (streak_data st mod 128) / 2.
Proof.
  intros Hv. rewrite shift_streak_data.
  set (v := streak_data st) in *.
  apply Z.bits_inj'. intros n Hn.
  assert (Hdiv : (v mod 128) / 2 = Z.shiftr (v mod 2 ^ 7) 1).
  { rewrite Z.shiftr_div_pow2 by lia. reflexivity. }
  rewrite Hdiv, Z.shiftr_spec by lia.
  destruct (Z.ltb_spec n 8) as [Hlt|Hge].
  - destruct (Z.eq_dec n 6) as [->|Hne].
    + rewrite clear_bit6. rewrite Z.mod_pow2_bits_high by lia. reflexivity.
    + rewrite clear_bit6_other by lia. rewrite u8_testbit_low by lia.
      rewrite Z.shiftr_spec by lia.
      destruct (Z.ltb_spec n 6).
      * rewrite Z.mod_pow2_bits_low by lia. reflexivity.
      * assert (n = 7) by lia. subst n.
        rewrite Z.mod_pow2_bits_high by lia.
        replace v with (v mod 2 ^ 8) by (apply Z.mod_small; lia).
        apply Z.mod_pow2_bits_high. lia.
  - unfold u8 at 1. rewrite Z.mod_pow2_bits_high by lia.
    rewrite Z.mod_pow2_bits_high by lia. reflexivity.
Qed.

Lemma shift_streak_range st : 0 <= streak_data (shift_streak st) < 256.
Proof. rewrite shift_streak_data. apply u8_range. Qed.

(** [k >= 1] shifts of a [uint8_t] mapping leave bits [k..6], moved
    down by [k]. *)
Lemma shift_streak_iter st k :
  0 <= streak_data st < 256 ->
  streak_data (Nat.iter (S k) shift_streak st)
  = (streak_data st mod 128) / 2 ^ Z.of_nat (S k).
Proof.
  intros Hv. induction k as [|k IH].
  - simpl Nat.iter. rewrite shift_streak_closed by exact Hv. reflexivity.
  - change (Nat.iter (S (S k)) shift_streak st)
      with (shift_streak (Nat.iter (S k) shift_streak st)).
    rewrite shift_streak_closed by (apply shift_streak_range).
    rewrite IH.
    assert (H128 : 0 <= streak_data st mod 128 < 128)
      by (apply Z.mod_pos_bound; lia).
    assert (Hpow : 2 <= 2 ^ Z.of_nat (S k)).
    { change 2 with (2 ^ 1) at 1. apply Z.pow_le_mono_r; lia. }
    rewrite (Z.mod_small (_ / _) 128).
    + rewrite Z.div_div by lia.
      replace (Z.of_nat (S (S k))) with (Z.of_nat (S k) + 1) by lia.
      rewrite Z.pow_add_r by lia. reflexivity.
    + split; [apply Z.div_pos; lia|].
      apply Z.div_lt_upper_bound; nia.
Qed.

End StreakBits.

(** ** StreakStore: the shift *)

Section ShiftTheorems.
Import Machine Streak.

(** C2: for every 8-bit streak value, one [shift_streak] moves bits
    1..6 down to 0..5 (the oldest bit, index 0, is discarded) and leaves
    bit 6 clear; seven applications give the all-zero mapping. *)
Theorem shift_streak_discards_oldest (st : state) :
  0 <= streak_data st < 256 ->
  (forall i, 0 <= i < 6 ->
     Z.testbit (streak_data (shift_streak st)) i
     = Z.testbit (streak_data st) (i + 1)) /\
  Z.testbit (streak_data (shift_streak st)) 6 = false /\
  streak_data (Nat.iter 7 shift_streak st) = 0.
Proof.
  intros Hv. repeat split.
  - intros i Hi. rewrite shift_streak_data.
    rewrite clear_bit6_other, u8_testbit_low by lia.
    apply Z.shiftr_spec. lia.
  - rewrite shift_streak_data. apply clear_bit6.
  - rewrite (shift_streak_iter st 6 Hv).
    apply Z.div_small.
    change (2 ^ Z.of_nat 7) with 128. apply Z.mod_pos_bound. lia.
Qed.

Lemma shift_streak_discards_oldest_witness :
  let st := set_streak_data 127 (boot ∅) in
  0 <= streak_data st < 256 /\
  (forall i, 0 <= i < 6 ->
     Z.testbit (streak_data (shift_streak st)) i
     = Z.testbit (streak_data st) (i + 1)) /\
  Z.testbit (streak_data (shift_streak st)) 6 = false /\
  streak_data (Nat.iter 7 shift_streak st) = 0.
Proof.
  intros st.
  assert (H : 0 <= streak_data st < 256) by (simpl; lia).
  split; [exact H | exact (shift_streak_discards_oldest st H)].
Defined.

End ShiftTheorems.

(** ** StreakStore: bit 6 and the today flag *)

Section TodayInvariant.
Import Machine Streak Spec.

Ltac fields :=
  cbn [streak_data last_day today_state button_pressed last_debounce_time
       last_button_state ntp_synced nvs effects
       set_streak_data set_last_day set_today_state set_button_pressed
       set_last_debounce_time set_last_button_state set_ntp_synced set_nvs
       emit update_leds save_streak send_webhook].

Lemma boot_matches f : bit6_matches_today (boot f).
Proof. reflexivity. Qed.

Lemma shift_streak_matches st : bit6_matches_today (shift_streak st).
Proof.
  unfold bit6_matches_today. rewrite shift_streak_data, clear_bit6.
  reflexivity.
Qed.

Lemma load_streak_today st :
  today_state (load_streak st)
  = Z.testbit (Z.shiftr (streak_data (load_streak st)) 6) 0.
Proof.
  unfold load_streak.
  destruct (Nvs.open_readonly (nvs st) "streak"); reflexivity.
Qed.

Lemma load_streak_matches st : bit6_matches_today (load_streak st).
Proof.
  unfold bit6_matches_today.
  rewrite load_streak_today, Z.shiftr_spec by lia. reflexivity.
Qed.

Lemma save_streak_matches st :
  bit6_matches_today st -> bit6_matches_today (save_streak st).
Proof. intros H. exact H. Qed.

Lemma handle_button_matches reading t1 t2 st :
  bit6_matches_today st -> bit6_matches_today (handle_button reading t1 t2 st).
Proof.
  unfold bit6_matches_today, handle_button. intros H.
  destruct (negb (Bool.eqb reading (last_button_state st))); fields;
    (destruct (DEBOUNCE_DELAY <? _); fields; [|exact H]);
    (destruct (negb reading && negb (button_pressed st)); fields;
     [|destruct reading; exact H]);
    (destruct (today_state st); fields; cbn [negb];
     [apply clear_bit6|apply set_bit6]).
Qed.

Lemma run_op_matches o st :
  bit6_matches_today st -> bit6_matches_today (run_op o st).
Proof.
  destruct o as [reading t1 t2| |]; simpl; intros H.
  - apply handle_button_matches, H.
  - apply shift_streak_matches.
  - apply load_streak_matches.
Qed.

Lemma trajectory_matches ops : forall st,
  bit6_matches_today st -> Forall bit6_matches_today (trajectory ops st).
Proof.
  induction ops as [|o ops IH]; intros st H; simpl.
  - constructor.
  - constructor.
    + apply run_op_matches, H.
    + apply IH, run_op_matches, H.
Qed.

(** C1: from the all-zero initial state, over any flash contents, after
    each operation of any sequence of button handling, shift and load,
    bit 6 of the mapping equals the today flag. *)
Theorem bit6_equals_today_after_every_op (f : Nvs.flash) (ops : list op) :
  Forall bit6_matches_today (trajectory ops (boot f)).
Proof. apply trajectory_matches, boot_matches. Qed.

Lemma last_cons_default {A} (l : list A) : forall x d d',
  List.last (x :: l) d = List.last (x :: l) d'.
Proof.
  induction l as [|y l IH]; intros x d d'; [reflexivity|].
  change (List.last (y :: l) d = List.last (y :: l) d'). apply IH.
Qed.

(** The last state of the trajectory is the state [run] ends in. *)
Lemma trajectory_last ops : forall st,
  List.last (st :: trajectory ops st) st = run ops st.
Proof.
  induction ops as [|o ops IH]; intros st; [reflexivity|].
  change (run (o :: ops) st) with (run ops (run_op o st)).
  rewrite <- IH.
  change (trajectory (o :: ops) st)
    with (run_op o st :: trajectory ops (run_op o st)).
  change (List.last (st :: run_op o st :: trajectory ops (run_op o st)) st)
    with (List.last (run_op o st :: trajectory ops (run_op o st)) st).
  apply last_cons_default.
Qed.

End TodayInvariant.

(** ** StreakStore: what [save_streak] writes *)

Section SaveTheorems.
Import Machine Streak Spec.

Lemma lookup_open_readwrite (f : Nvs.flash) (name key : string) :
  Nvs.open_readwrite f name !! key = Nvs.lookup f name key.
Proof.
  unfold Nvs.open_readwrite, Nvs.lookup.
  destruct (f !! name) as [ns|]; simpl; [reflexivity|apply lookup_empty].
Qed.

Lemma lookup_close_readwrite (f : Nvs.flash) (name : string)
      (ns : gmap string Nvs.value) (name' key : string) :
  Nvs.lookup (Nvs.close_readwrite f name ns) name' key
  = if decide (name = name') then ns !! key else Nvs.lookup f name' key.
Proof.
  unfold Nvs.lookup, Nvs.close_readwrite.
  rewrite lookup_insert. destruct (decide (name = name')); reflexivity.
Qed.

(** Every cell of the flash after [save_streak]. *)
Lemma save_streak_lookup st name key :
  Nvs.lookup (nvs (save_streak st)) name key
  = if decide (name = "streak" /\ key = "data")
    then Some (Nvs.U8 (streak_data st))
    else if decide (name = "streak" /\ key = "lastDay" /\ last_day st <> -1)
         then Some (Nvs.I32 (last_day st))
         else Nvs.lookup (nvs st) name key.
Proof.
  unfold save_streak. cbn [nvs set_nvs].
  rewrite lookup_close_readwrite.
  destruct (decide ("streak" = name)) as [<-|Hname].
  - destruct (Z.eqb_spec (last_day st) (-1)) as [Hday|Hday].
    + unfold Nvs.set_u8. rewrite lookup_insert.
      destruct (decide ("data" = key)) as [<-|Hkey].
      * rewrite decide_True by done. reflexivity.
      * rewrite decide_False by (intros [_ ?]; congruence).
        rewrite decide_False by (intros (_ & _ & ?); congruence).
        apply lookup_open_readwrite.
    + unfold Nvs.set_i32, Nvs.set_u8. rewrite !lookup_insert.
      destruct (decide ("lastDay" = key)) as [<-|Hkey].
      * rewrite decide_False by (intros [_ ?]; discriminate).
        rewrite decide_True by done. reflexivity.
      * destruct (decide ("data" = key)) as [<-|Hkey'].
        -- rewrite decide_True by done. reflexivity.
        -- rewrite decide_False by (intros [_ ?]; congruence).
           rewrite decide_False by (intros (_ & ? & _); congruence).
           apply lookup_open_readwrite.
  - rewrite decide_False by (intros [? _]; congruence).
    rewrite decide_False by (intros (? & _); congruence).
    reflexivity.
Qed.

(** C10: [save_streak] with [last_day = -1] writes the mapping under
    "data" and nothing else: the "lastDay" value persisted before stays
    as it was, as does every other cell of the flash. *)
Theorem save_streak_unknown_day_writes_only_data (st : state) :
  last_day st = -1 ->
  Nvs.lookup (nvs (save_streak st)) "streak" "data"
    = Some (Nvs.U8 (streak_data st)) /\
  Nvs.lookup (nvs (save_streak st)) "streak" "lastDay"
    = Nvs.lookup (nvs st) "streak" "lastDay" /\
  (forall name key,
     (name = "streak" /\ key = "data") \/
     Nvs.lookup (nvs (save_streak st)) name key = Nvs.lookup (nvs st) name key).
Proof.
  intros Hday. repeat split.
  - rewrite save_streak_lookup. rewrite decide_True by done. reflexivity.
  - rewrite save_streak_lookup.
    rewrite decide_False by (intros [_ ?]; discriminate).
    rewrite decide_False by (intros (_ & _ & ?); congruence).
    reflexivity.
  - intros name key.
    destruct (decide (name = "streak" /\ key = "data")) as [H|H];
      [left; exact H|right].
    rewrite save_streak_lookup.
    rewrite decide_False by exact H.
    rewrite decide_False by (intros (_ & _ & ?); congruence).
    reflexivity.
Qed.

(** A flash that already holds a streak saved on day 41. *)
Lemma save_streak_unknown_day_writes_only_data_witness :
  let f : Nvs.flash :=
    {[ "streak" := {[ "data" := Nvs.U8 3; "lastDay" := Nvs.I32 41 ]} ]} in
  let st := set_streak_data 64 (boot f) in
  last_day st = -1 /\
  Nvs.lookup (nvs (save_streak st)) "streak" "data" = Some (Nvs.U8 64) /\
  Nvs.lookup (nvs (save_streak st)) "streak" "lastDay" = Some (Nvs.I32 41).
Proof.
  intros f st.
  assert (H : last_day st = -1) by reflexivity.
  destruct (save_streak_unknown_day_writes_only_data st H) as (Hd & Hl & _).
  split; [exact H|]. split; [exact Hd|].
  rewrite Hl. reflexivity.
Defined.

(** With a known day the day is written too. *)
Lemma save_streak_persists st :
  last_day st <> -1 -> persisted (save_streak st).
Proof.
  intros Hday. split; rewrite save_streak_lookup.
  - rewrite decide_True by done. reflexivity.
  - rewrite decide_False by (intros [_ ?]; discriminate).
    rewrite decide_True by done. reflexivity.
Qed.

End SaveTheorems.

(** ** Rollover reconciliation *)

Section RolloverTheorems.
Import Machine Streak Spec.

Lemma shift_streak_effects st :
  shift_count (effects (shift_streak st)) = S (shift_count (effects st)).
Proof. reflexivity. Qed.

Lemma shift_streak_last_day st : last_day (shift_streak st) = last_day st.
Proof. reflexivity. Qed.

Lemma iter_shift_effects n st :
  shift_count (effects (Nat.iter n shift_streak st))
  = (n + shift_count (effects st))%nat.
Proof.
  induction n as [|n IH]; [reflexivity|].
  change (Nat.iter (S n) shift_streak st)
    with (shift_streak (Nat.iter n shift_streak st)).
  rewrite shift_streak_effects, IH. reflexivity.
Qed.

Lemma iter_shift_last_day n st :
  last_day (Nat.iter n shift_streak st) = last_day st.
Proof.
  induction n as [|n IH]; [reflexivity|].
  change (Nat.iter (S n) shift_streak st)
    with (shift_streak (Nat.iter n shift_streak st)).
  rewrite shift_streak_last_day. exact IH.
Qed.

Lemma iter_shift_data_ext n : forall st1 st2,
  streak_data st1 = streak_data st2 ->
  streak_data (Nat.iter n shift_streak st1)
  = streak_data (Nat.iter n shift_streak st2).
Proof.
  induction n as [|n IH]; intros st1 st2 H; [exact H|].
  change (streak_data (shift_streak (Nat.iter n shift_streak st1))
          = streak_data (shift_streak (Nat.iter n shift_streak st2))).
  rewrite !shift_streak_data, (IH st1 st2 H). reflexivity.
Qed.

(** The [for] loop of [sync_ntp] ends within its seven turns and has
    then run [shift_streak] once per index below [min(days_passed, 7)]. *)
Lemma shift_loop_iter fuel : forall i days_passed st,
  0 <= i ->
  (Z.to_nat (7 - i) <= fuel)%nat ->
  shift_loop fuel i days_passed st
  = Nat.iter (Z.to_nat (Z.min days_passed 7 - i)) shift_streak st.
Proof.
  induction fuel as [|fuel IH]; intros i d st Hi Hfuel.
  - replace (Z.to_nat (Z.min d 7 - i)) with O by lia. reflexivity.
  - cbn [shift_loop].
    destruct (Z.ltb_spec i d) as [Hd|Hd];
      destruct (Z.ltb_spec i 7) as [H7|H7]; cbn [andb].
    + rewrite IH by lia.
      replace (Z.to_nat (Z.min d 7 - i))
        with (S (Z.to_nat (Z.min d 7 - (i + 1)))) by lia.
      rewrite Nat.iter_succ_r. reflexivity.
    + replace (Z.to_nat (Z.min d 7 - i)) with O by lia. reflexivity.
    + replace (Z.to_nat (Z.min d 7 - i)) with O by lia. reflexivity.
    + replace (Z.to_nat (Z.min d 7 - i)) with O by lia. reflexivity.
Qed.

Lemma days_elapsed_nonneg current_day last_recorded_day :
  0 <= current_day <= 365 -> 0 <= last_recorded_day <= 365 ->
  0 <= days_elapsed current_day last_recorded_day.
Proof.
  intros Hc Hl. unfold days_elapsed.
  destruct (Z.ltb_spec (current_day - last_recorded_day) 0); lia.
Qed.

(** [sync_ntp] after a successful sync, on a flash that holds a day
    different from today's. *)
Lemma sync_ntp_unfold st current_day saved_day :
  Nvs.lookup (nvs st) "streak" "lastDay" = Some (Nvs.I32 saved_day) ->
  saved_day <> -1 ->
  saved_day <> current_day ->
  sync_ntp true current_day st
  = let d := days_elapsed current_day saved_day in
    save_streak
      (Nat.iter (Z.to_nat (Z.min d 7)) shift_streak
         (emit (LogDaysSince d)
            (set_last_day current_day (set_ntp_synced true st)))).
Proof.
  intros Hsaved Hknown Hdiff.
  unfold Nvs.lookup in Hsaved.
  destruct (nvs st !! "streak") as [ns|] eqn:Hns; [|discriminate].
  cbn [mbind option_bind] in Hsaved.
  unfold sync_ntp.
  cbn [ntp_synced set_ntp_synced nvs set_last_day last_day].
  unfold Nvs.open_readonly. rewrite Hns.
  unfold Nvs.get_i32. rewrite Hsaved.
  destruct (Z.eqb_spec saved_day (-1)) as [|_]; [contradiction|].
  destruct (Z.eqb_spec saved_day current_day) as [|_]; [contradiction|].
  cbn [negb andb].
  fold (days_elapsed current_day saved_day).
  rewrite shift_loop_iter by lia.
  rewrite Z.sub_0_r. reflexivity.
Qed.

(** C3: after a successful time sync, when the flash holds a day of the
    year other than today's, [sync_ntp] runs [shift_streak] exactly
    [min(daysElapsed, 7)] times, where [daysElapsed] (current less saved,
    plus 365 if negative) is not negative, and then persists the mapping
    and today's day. *)
Theorem sync_ntp_reconciles (st : state) (current_day saved_day : Z) :
  0 <= current_day <= 365 ->
  0 <= saved_day <= 365 ->
  Nvs.lookup (nvs st) "streak" "lastDay" = Some (Nvs.I32 saved_day) ->
  saved_day <> current_day ->
  let d := days_elapsed current_day saved_day in
  let st' := sync_ntp true current_day st in
  0 <= d /\
  shift_count (effects st')
    = (Z.to_nat (Z.min d 7) + shift_count (effects st))%nat /\
  streak_data st'
    = streak_data (Nat.iter (Z.to_nat (Z.min d 7)) shift_streak st) /\
  persisted st' /\
  last_day st' = current_day.
Proof.
  intros Hc Hs Hsaved Hdiff d st'.
  assert (Hst' : st' = save_streak
                   (Nat.iter (Z.to_nat (Z.min d 7)) shift_streak
                      (emit (LogDaysSince d)
                         (set_last_day current_day (set_ntp_synced true st))))).
  { subst st' d. apply sync_ntp_unfold; [exact Hsaved|lia|exact Hdiff]. }
  assert (Hday : last_day st' = current_day).
  { rewrite Hst'. unfold save_streak. cbn [last_day set_nvs].
    rewrite iter_shift_last_day. reflexivity. }
  split; [apply days_elapsed_nonneg; assumption|].
  split; [|split; [|split; [|exact Hday]]].
  - rewrite Hst'. unfold save_streak. cbn [effects set_nvs].
    rewrite iter_shift_effects. reflexivity.
  - rewrite Hst'. unfold save_streak. cbn [streak_data set_nvs].
    apply iter_shift_data_ext. reflexivity.
  - rewrite Hst'. apply save_streak_persists.
    rewrite iter_shift_last_day. cbn [last_day emit set_last_day]. lia.
Qed.

(** Last use on day 364, sync on day 2: three shifts. *)
Lemma sync_ntp_reconciles_witness :
  let f : Nvs.flash :=
    {[ "streak" := {[ "data" := Nvs.U8 65; "lastDay" := Nvs.I32 364 ]} ]} in
  let st := load_streak (boot f) in
  (0 <= 2 <= 365 /\ 0 <= 364 <= 365 /\
   Nvs.lookup (nvs st) "streak" "lastDay" = Some (Nvs.I32 364) /\
   364 <> 2) /\
  days_elapsed 2 364 = 3 /\
  shift_count (effects (sync_ntp true 2 st)) = 3%nat /\
  persisted (sync_ntp true 2 st).
Proof.
  intros f st.
  assert (Hc : 0 <= 2 <= 365) by lia.
  assert (Hs : 0 <= 364 <= 365) by lia.
  assert (Hl : Nvs.lookup (nvs st) "streak" "lastDay" = Some (Nvs.I32 364))
    by reflexivity.
  assert (Hd : 364 <> 2) by discriminate.
  destruct (sync_ntp_reconciles st 2 364 Hc Hs Hl Hd) as (_ & Hn & _ & Hp & _).
  split; [repeat split; solve [lia | exact Hl | exact Hd]|].
  split; [reflexivity|]. split; [exact Hn | exact Hp].
Defined.

(** The claim of C4 as worded fails on the steady-loop check: two days
    on from day 10 the check shifts once, not twice; and with the day
    unknown (the SNTP callback fired after [sync_ntp] had given up on a
    first boot) it neither shifts nor records the day. *)
Lemma rollover_claim_fails :
  ~ rollover_claim (set_ntp_synced true (set_last_day 10 (boot ∅))) 12 /\
  ~ rollover_claim (set_ntp_synced true (boot ∅)) 12.
Proof.
  split; intros H.
  - destruct (H eq_refl ltac:(discriminate)) as (Hn & _). discriminate Hn.
  - destruct (H eq_refl ltac:(discriminate)) as (_ & _ & Hd). discriminate Hd.
Qed.

(** C4, amended: on a steady-loop tick after time sync has succeeded,
    when [lastRecordedDay] is known and the current day of the year
    differs from it, the rollover check runs [shift_streak] exactly
    once, persists the shifted mapping, and sets [lastRecordedDay] to
    the current day. *)
Theorem check_midnight_rollover_shifts_once (st : state) (current_day : Z) :
  ntp_synced st = true ->
  0 <= current_day <= 365 ->
  last_day st <> -1 ->
  current_day <> last_day st ->
  let st' := check_midnight_rollover current_day st in
  shift_count (effects st') = S (shift_count (effects st)) /\
  streak_data st' = streak_data (shift_streak st) /\
  Nvs.lookup (nvs st') "streak" "data" = Some (Nvs.U8 (streak_data st')) /\
  last_day st' = current_day.
Proof.
  intros Hsync Hc Hknown Hdiff st'. subst st'.
  unfold check_midnight_rollover. rewrite Hsync. cbn [negb].
  destruct (Z.eqb_spec current_day (-1)) as [|_]; [lia|].
  destruct (Z.eqb_spec (last_day st) (-1)) as [|_]; [contradiction|].
  destruct (Z.eqb_spec current_day (last_day st)) as [|_]; [contradiction|].
  cbn [negb andb]. repeat split.
  cbn [nvs set_last_day streak_data].
  rewrite save_streak_lookup. rewrite decide_True by done. reflexivity.
Qed.

Lemma check_midnight_rollover_shifts_once_witness :
  let st := set_ntp_synced true (set_last_day 10 (set_streak_data 64 (boot ∅))) in
  (ntp_synced st = true /\ 0 <= 12 <= 365 /\ last_day st <> -1 /\
   12 <> last_day st) /\
  shift_count (effects (check_midnight_rollover 12 st)) = 1%nat /\
  streak_data (check_midnight_rollover 12 st) = 32 /\
  last_day (check_midnight_rollover 12 st) = 12.
Proof.
  intros st.
  assert (H1 : ntp_synced st = true) by reflexivity.
  assert (H2 : 0 <= 12 <= 365) by lia.
  assert (H3 : last_day st <> -1) by discriminate.
  assert (H4 : 12 <> last_day st) by discriminate.
  destruct (check_midnight_rollover_shifts_once st 12 H1 H2 H3 H4)
    as (Hn & Hv & _ & Hd).
  split; [repeat split; solve [lia | exact H3 | exact H4]|].
  split; [exact Hn|]. split; [rewrite Hv; reflexivity | exact Hd].
Defined.

(** What the same tick leaves on flash for the day is the day before
    the rollover: [save_streak] runs ahead of the assignment to
    [last_day]. *)
Lemma check_midnight_rollover_saves_old_day st current_day :
  ntp_synced st = true ->
  current_day <> -1 ->
  last_day st <> -1 ->
  current_day <> last_day st ->
  Nvs.lookup (nvs (check_midnight_rollover current_day st)) "streak" "lastDay"
  = Some (Nvs.I32 (last_day st)).
Proof.
  intros Hsync Hc Hknown Hdiff.
  unfold check_midnight_rollover. rewrite Hsync. cbn [negb].
  destruct (Z.eqb_spec current_day (-1)) as [|_]; [contradiction|].
  destruct (Z.eqb_spec (last_day st) (-1)) as [|_]; [contradiction|].
  destruct (Z.eqb_spec current_day (last_day st)) as [|_]; [contradiction|].
  cbn [negb andb nvs set_last_day].
  rewrite save_streak_lookup.
  rewrite decide_False by (intros [_ ?]; discriminate).
  rewrite decide_True by done. reflexivity.
Qed.

End RolloverTheorems.

(** ** DNSRedirector *)

Section DnsTheorems.
Import Machine Dns Spec.

Lemma byte_val_nonneg b : 0 <= byte_val b.
Proof. unfold byte_val. lia. Qed.

Lemma length_answer : length answer = 16%nat.
Proof. reflexivity. Qed.

Lemma answer_is_a_record : answer = a_record 60 portal_address.
Proof. reflexivity. Qed.

Lemma skip_question_ge fuel buffer len : forall pos,
  pos <= skip_question fuel buffer len pos.
Proof.
  induction fuel as [|fuel IH]; intros pos; cbn [skip_question]; [lia|].
  destruct (pos <? len); [|lia].
  destruct (peek buffer pos) as [b|]; [|lia].
  destruct (byte_val b =? 0); [lia|].
  pose proof (IH (pos + byte_val b + 1)). pose proof (byte_val_nonneg b). lia.
Qed.

(** The loop has ended by the time the fuel is spent: its condition is
    false where it stops. *)
Lemma skip_question_exit fuel buffer len : forall pos,
  (Z.to_nat (len - pos) <= fuel)%nat ->
  let r := skip_question fuel buffer len pos in
  len <= r \/ peek buffer r = None \/
  exists b, peek buffer r = Some b /\ byte_val b = 0.
Proof.
  induction fuel as [|fuel IH]; intros pos Hfuel; cbn [skip_question].
  - left. lia.
  - destruct (Z.ltb_spec pos len) as [Hlt|Hge]; [|left; lia].
    destruct (peek buffer pos) as [b|] eqn:Hb; [|right; left; exact Hb].
    destruct (Z.eqb_spec (byte_val b) 0) as [Hz|Hz].
    + right; right. exists b. split; assumption.
    + apply IH. pose proof (byte_val_nonneg b). lia.
Qed.

(** The loop reads the buffer between its start and [len] only. *)
Lemma skip_question_ext fuel b1 b2 len lo : forall pos,
  lo <= pos ->
  (forall p, lo <= p < len -> peek b1 p = peek b2 p) ->
  skip_question fuel b1 len pos = skip_question fuel b2 len pos.
Proof.
  induction fuel as [|fuel IH]; intros pos Hlo Hsame; cbn [skip_question];
    [reflexivity|].
  destruct (Z.ltb_spec pos len) as [Hlt|Hge]; [|reflexivity].
  rewrite (Hsame pos) by lia.
  destruct (peek b2 pos) as [b|]; [|reflexivity].
  destruct (byte_val b =? 0); [reflexivity|].
  apply IH; [|exact Hsame]. pose proof (byte_val_nonneg b). lia.
Qed.

Lemma put_bytes_fits bs : forall pos buffer,
  0 <= pos ->
  pos + Z.of_nat (length bs) <= Z.of_nat (length buffer) ->
  put_bytes bs pos buffer
  = Some (take (Z.to_nat pos) buffer ++ bs
            ++ drop (Z.to_nat pos + length bs) buffer,
          pos + Z.of_nat (length bs)).
Proof.
  induction bs as [|b bs IH]; intros pos buffer Hpos Hfit; cbn [put_bytes].
  - cbn [length app]. rewrite Nat.add_0_r, take_drop, Z.add_0_r. reflexivity.
  - cbn [length] in *. unfold poke.
    destruct (Z.leb_spec 0 pos); [|lia].
    destruct (Z.ltb_spec pos (Z.of_nat (length buffer))); [|lia].
    cbn [andb]. rewrite IH by (rewrite ?length_insert; lia).
    f_equal. f_equal; [|lia].
    replace (Z.to_nat (pos + 1)) with (S (Z.to_nat pos)) by lia.
    rewrite (take_S_r _ _ b) by (apply list_lookup_insert_eq; lia).
    rewrite take_insert_ge by lia.
    rewrite drop_insert_lt by lia.
    rewrite <- app_assoc. cbn [app].
    replace (S (Z.to_nat pos) + length bs)%nat
      with (Z.to_nat pos + S (length bs))%nat by lia.
    reflexivity.
Qed.

Lemma put_bytes_overrun bs : forall pos buffer,
  0 <= pos <= Z.of_nat (length buffer) ->
  Z.of_nat (length buffer) < pos + Z.of_nat (length bs) ->
  put_bytes bs pos buffer = None.
Proof.
  induction bs as [|b bs IH]; intros pos buffer Hpos Hover; cbn [put_bytes].
  - cbn [length] in Hover. lia.
  - cbn [length] in Hover. unfold poke.
    destruct (Z.leb_spec 0 pos); [|lia].
    destruct (Z.ltb_spec pos (Z.of_nat (length buffer))); cbn [andb];
      [|reflexivity].
    apply IH; rewrite ?length_insert; lia.
Qed.

Lemma poke_inside pos b buffer :
  0 <= pos < Z.of_nat (length buffer) ->
  poke pos b buffer = Some (<[Z.to_nat pos := b]> buffer).
Proof.
  intros H. unfold poke.
  destruct (Z.leb_spec 0 pos); [|lia].
  destruct (Z.ltb_spec pos (Z.of_nat (length buffer))); [|lia].
  reflexivity.
Qed.

Lemma recvfrom_received buffer dgram :
  recvfrom buffer dgram
  = (Z.of_nat (length (received buffer dgram)),
     received buffer dgram ++ drop (length (received buffer dgram)) buffer).
Proof.
  unfold recvfrom, received. rewrite length_take.
  rewrite (Nat.min_comm (length buffer)).
  f_equal. f_equal.
  destruct (Nat.le_ge_cases (length dgram) (length buffer)) as [H|H].
  - rewrite Nat.min_l by exact H. rewrite !take_ge by lia. reflexivity.
  - rewrite Nat.min_r by exact H. reflexivity.
Qed.

Lemma length_received buffer dgram :
  length (received buffer dgram) = Nat.min (length dgram) (length buffer).
Proof. unfold received. rewrite length_take. apply Nat.min_comm. Qed.

Lemma length_stamped buffer : length (stamped buffer) = length buffer.
Proof. unfold stamped. rewrite !length_insert. reflexivity. Qed.

Lemma serve_unfold buffer dgram :
  length buffer = 512%nat ->
  (12 <= length dgram)%nat ->
  let query := received buffer dgram in
  let b1 := stamped (query ++ drop (length query) buffer) in
  serve buffer dgram
  = match put_bytes answer (question_end query) b1 with
    | Some (buffer', pos) => (Sent (take (Z.to_nat pos) buffer'), buffer')
    | None => (Fault, query ++ drop (length query) buffer)
    end.
Proof.
  intros Hbuf Hlen query b1.
  assert (Hn : length query = Nat.min (length dgram) 512)
    by (subst query; rewrite length_received, Hbuf; reflexivity).
  set (b0 := query ++ drop (length query) buffer) in *.
  assert (Hb0 : length b0 = 512%nat).
  { subst b0. rewrite length_app, length_drop. lia. }
  unfold serve. rewrite recvfrom_received. fold query. fold b0.
  destruct (Z.ltb_spec (Z.of_nat (length query)) 12) as [|_]; [lia|].
  rewrite (poke_inside 2) by lia. cbn [mbind option_bind].
  rewrite (poke_inside 3) by (rewrite !length_insert; lia).
  cbn [mbind option_bind].
  rewrite (poke_inside 6) by (rewrite !length_insert; lia).
  cbn [mbind option_bind].
  rewrite (poke_inside 7) by (rewrite !length_insert; lia).
  cbn [mbind option_bind].
  change (<[Z.to_nat 7:=x01]> (<[Z.to_nat 6:=x00]>
            (<[Z.to_nat 3:=x80]> (<[Z.to_nat 2:=x81]> b0)))) with (stamped b0).
  fold b1.
  assert (Hq : skip_question (Z.to_nat (Z.of_nat (length query))) b1
                 (Z.of_nat (length query)) 12 + 5 = question_end query).
  { unfold question_end. rewrite Nat2Z.id. f_equal.
    apply (skip_question_ext _ _ _ _ 12); [lia|].
    intros p Hp. unfold peek, b1, stamped.
    rewrite !list_lookup_insert_ne by lia.
    unfold b0. apply lookup_app_l. lia. }
  rewrite Hq.
  destruct (put_bytes answer (question_end query) b1) as [[buffer' pos]|];
    reflexivity.
Qed.

Lemma question_end_ge query : 17 <= question_end query.
Proof.
  unfold question_end.
  pose proof (skip_question_ge (length query) query (Z.of_nat (length query)) 12).
  lia.
Qed.

(** C5, amended: a datagram shorter than 12 bytes gets no reply; a
    datagram of at least 12 bytes whose question (labels, zero byte,
    QTYPE, QCLASS) ends within the bytes received and at most 496 bytes
    into the 512-byte buffer gets exactly one reply, with the query's
    transaction ID and question bytes unchanged, answer count 1, and one
    A record for 192.168.4.1 with a TTL of 60 seconds. *)
Theorem serve_answers_well_formed_query (buffer dgram : list byte) :
  length buffer = 512%nat ->
  let query := received buffer dgram in
  ((length dgram < 12)%nat -> fst (serve buffer dgram) = Dropped) /\
  ((12 <= length dgram)%nat ->
   question_end query <= Z.of_nat (length query) ->
   question_end query + 16 <= 512 ->
   exists response,
     fst (serve buffer dgram) = Sent response /\
     dns_reply_ok query response /\
     Z.of_nat (length response) = question_end query + 16).
Proof.
  intros Hbuf query. split.
  - intros Hshort. unfold serve. rewrite recvfrom_received. fold query.
    assert (Hn : length query = length dgram)
      by (subst query; rewrite length_received; lia).
    destruct (Z.ltb_spec (Z.of_nat (length query)) 12) as [_|]; [|lia].
    reflexivity.
  - intros Hlen Hin Hroom.
    assert (Hn : length query = Nat.min (length dgram) 512)
      by (subst query; rewrite length_received, Hbuf; reflexivity).
    pose proof (question_end_ge query) as Hge.
    rewrite (serve_unfold buffer dgram Hbuf Hlen). fold query.
    set (b0 := query ++ drop (length query) buffer).
    assert (Hb0 : length b0 = 512%nat).
    { subst b0. rewrite length_app, length_drop. lia. }
    set (qe := Z.to_nat (question_end query)).
    rewrite put_bytes_fits
      by (rewrite ?length_stamped, ?Hb0, ?length_answer; lia).
    rewrite length_answer.
    assert (Hresp : take (Z.to_nat (question_end query + Z.of_nat 16))
                      (take (Z.to_nat (question_end query)) (stamped b0) ++ answer
                         ++ drop (Z.to_nat (question_end query) + 16) (stamped b0))
                    = take qe (stamped b0) ++ answer).
    { rewrite app_assoc. apply take_app_length'.
      rewrite length_app, length_take, length_stamped, Hb0, length_answer.
      subst qe. lia. }
    cbn [fst]. rewrite Hresp.
    exists (take qe (stamped b0) ++ answer).
    assert (Hqe : (17 <= qe <= length query)%nat) by (subst qe; lia).
    assert (Hlt : length (take qe (stamped b0)) = qe).
    { rewrite length_take, length_stamped, Hb0. lia. }
    split; [reflexivity|].
    split; [|rewrite length_app, Hlt, length_answer; subst qe; lia].
    unfold dns_reply_ok. split; [|split; [|split]].
    + rewrite take_app_le by lia. rewrite take_take.
      rewrite Nat.min_l by lia. unfold stamped.
      rewrite !take_insert_ge by lia.
      subst b0. apply take_app_le. lia.
    + rewrite lookup_app_l by lia. rewrite lookup_take_lt by lia.
      unfold stamped. rewrite list_lookup_insert_ne by lia.
      apply list_lookup_insert_eq. rewrite !length_insert. lia.
    + rewrite lookup_app_l by lia. rewrite lookup_take_lt by lia.
      unfold stamped. apply list_lookup_insert_eq. rewrite !length_insert. lia.
    + exists (drop 12 (take qe (stamped b0))). split.
      * rewrite drop_app_le by lia. rewrite answer_is_a_record. reflexivity.
      * replace qe with (12 + (qe - 12))%nat by lia.
        rewrite <- take_drop_commute. unfold stamped.
        rewrite !drop_insert_lt by lia.
        subst b0. rewrite drop_app_le by lia.
        rewrite take_app_le by (rewrite length_drop; lia).
        apply prefix_take.
Qed.

(** The claim of C5 as worded fails on a bare 12-byte header: the reply
    carries five bytes between header and answer that the query never
    held (left in the buffer by earlier traffic).  It fails again on a
    500-byte run of 0xff after the header: the answer would be stored
    past the end of the buffer. *)
Lemma dns_claim_fails :
  ~ dns_claim (repeat x07 512)
      [x12; x34; x01; x00; x00; x00; x00; x00; x00; x00; x00; x00] /\
  ~ dns_claim (repeat x00 512) (repeat x00 12 ++ repeat xff 500).
Proof.
  split; intros [H _].
  - destruct H as (response & Hs & _ & _ & _ & q & Hd & Hp);
      [cbn [length]; lia|].
    vm_compute in Hs. injection Hs as <-.
    apply prefix_nil_inv in Hp. subst q.
    apply (f_equal length) in Hd. vm_compute in Hd. discriminate Hd.
  - destruct H as (response & Hs & _);
      [rewrite length_app, !repeat_length; lia|].
    vm_compute in Hs. discriminate Hs.
Qed.

(** A query for the A record of [a.io], and a 5-byte runt. *)
Lemma serve_answers_well_formed_query_witness :
  let buffer := repeat x00 512 in
  let dgram := [x12; x34; x01; x00; x00; x01; x00; x00; x00; x00; x00; x00;
                x01; x61; x02; x69; x6f; x00; x00; x01; x00; x01] in
  length buffer = 512%nat /\
  fst (serve buffer [x12; x34; x01; x00; x00]) = Dropped /\
  question_end (received buffer dgram) = 22 /\
  exists response,
    fst (serve buffer dgram) = Sent response /\
    dns_reply_ok (received buffer dgram) response /\
    Z.of_nat (length response) = 22 + 16.
Proof.
  intros buffer dgram.
  assert (Hbuf : length buffer = 512%nat) by reflexivity.
  split; [exact Hbuf|]. split; [|split; [reflexivity|]].
  - apply (proj1 (serve_answers_well_formed_query buffer _ Hbuf)).
    cbn [length]. lia.
  - apply (proj2 (serve_answers_well_formed_query buffer dgram Hbuf)).
    + unfold dgram. cbn [length]. lia.
    + vm_compute. discriminate.
    + vm_compute. discriminate.
Defined.

End DnsTheorems.

(** ** ClaimCode *)

Section ClaimTheorems.
Import Machine Claim Spec.

Lemma length_code_digits n : forall hash, length (code_digits n hash) = n.
Proof. induction n as [|n IH]; intros hash; cbn; [|rewrite IH]; reflexivity. Qed.

Lemma chars_no_nul : Forall (fun c => c <> NUL) chars.
Proof. repeat constructor; discriminate. Qed.

Lemma code_digits_in_chars n : forall hash,
  Forall (fun c => In c chars) (code_digits n hash).
Proof.
  induction n as [|n IH]; intros hash; cbn [code_digits]; constructor.
  - apply nth_In. change (length chars) with 32%nat.
    pose proof (Z.mod_pos_bound hash 32). lia.
  - apply IH.
Qed.

Lemma fill_code_digits fuel : forall (k : nat) hash code len,
  (k <= 10)%nat ->
  (10 - k <= fuel)%nat ->
  (10 <= length code)%nat ->
  11 <= i32 len ->
  fill_code fuel (Z.of_nat k) len hash code
  = take k code ++ code_digits (10 - k) hash ++ drop 10 code.
Proof.
  induction fuel as [|fuel IH]; intros k hash code len Hk Hfuel Hcode Hlen.
  - replace (10 - k)%nat with O by lia.
    replace k with 10%nat by lia. cbn [code_digits app].
    symmetry. apply take_drop.
  - cbn [fill_code].
    destruct (Z.ltb_spec (Z.of_nat k) 10) as [Hlt|Hge].
    + destruct (Z.ltb_spec (Z.of_nat k) (i32 len - 1)) as [_|]; [|lia].
      cbn [andb].
      replace (Z.of_nat k + 1) with (Z.of_nat (S k)) by lia.
      rewrite IH by (rewrite ?length_insert; lia).
      rewrite Nat2Z.id.
      rewrite (take_S_r _ _ (nth (Z.to_nat (hash mod 32)) chars NUL))
        by (apply list_lookup_insert_eq; lia).
      rewrite take_insert_ge by lia.
      rewrite drop_insert_lt by lia.
      replace (10 - k)%nat with (S (10 - S k)) by lia.
      cbn [code_digits]. rewrite <- app_assoc. reflexivity.
    + cbn [andb].
      replace (10 - k)%nat with O by lia.
      replace k with 10%nat by lia. cbn [code_digits app].
      symmetry. apply take_drop.
Qed.

Lemma c_string_app_nul digits rest :
  Forall (fun c => c <> NUL) digits ->
  c_string (digits ++ NUL :: rest) = digits.
Proof.
  induction 1 as [|c digits Hc _ IH]; cbn [app c_string].
  - reflexivity.
  - destruct (Ascii.eqb_spec c NUL) as [|_]; [contradiction|].
    rewrite IH. reflexivity.
Qed.

Lemma code_digits_no_nul n hash : Forall (fun c => c <> NUL) (code_digits n hash).
Proof.
  pose proof (code_digits_in_chars n hash) as Hin.
  pose proof chars_no_nul as Hno.
  rewrite List.Forall_forall in *. intros c Hc. apply Hno, Hin, Hc.
Qed.

Lemma claim_code_digits m s_claim_code :
  length s_claim_code = 12%nat ->
  claim_code m s_claim_code = code_digits 10 (mac_hash m).
Proof.
  intros Hlen. unfold claim_code, generate_claim_code.
  generalize (mac_hash m) as hash. intros hash.
  change (Z.to_nat (if 10 <? u32 (12 - 1) then 10 else u32 (12 - 1)))
    with 10%nat.
  rewrite (fill_code_digits 10 0) by (try change (i32 12) with 12; lia).
  rewrite take_0. cbn [app]. change (10 - 0)%nat with 10%nat.
  rewrite insert_app_r_alt by (rewrite length_code_digits; lia).
  rewrite length_code_digits. change (10 - 10)%nat with 0%nat.
  destruct (drop 10 s_claim_code) as [|c rest] eqn:Hdrop.
  - apply (f_equal length) in Hdrop. rewrite length_drop in Hdrop.
    cbn [length] in Hdrop. lia.
  - cbn [insert list_insert]. apply c_string_app_nul, code_digits_no_nul.
Qed.

(** C8: the claim code left in [s_claim_code] depends on the MAC
    address alone (not on what the buffer held before), has exactly 10
    characters, each from the 32-symbol alphabet, which holds none of
    I, O, 0, 1. *)
Theorem claim_code_is_function_of_mac (m : mac_addr) (buf1 buf2 : list ascii) :
  length buf1 = 12%nat ->
  length buf2 = 12%nat ->
  claim_code m buf1 = claim_code m buf2 /\
  length (claim_code m buf1) = 10%nat /\
  Forall (fun c => In c chars) (claim_code m buf1) /\
  length chars = 32%nat /\
  Forall (fun c => ~ In c chars) (list_ascii_of_string "IO01").
Proof.
  intros H1 H2. rewrite !claim_code_digits by assumption.
  split; [reflexivity|]. split; [apply length_code_digits|].
  split; [apply code_digits_in_chars|]. split; [reflexivity|].
  repeat constructor; intros Hin; cbn in Hin;
    repeat (destruct Hin as [Hin|Hin]; [discriminate Hin|]); exact Hin.
Qed.

(** MAC AA:BB:CC:DD:EE:FF, into a zeroed buffer and into a used one. *)
Lemma claim_code_is_function_of_mac_witness :
  let m := mkMac xaa xbb xcc xdd xee xff in
  let zeroed := repeat NUL 12 in
  let used := list_ascii_of_string "previous use" in
  (length zeroed = 12%nat /\ length used = 12%nat) /\
  claim_code m zeroed = list_ascii_of_string "4PDZ66BAAA" /\
  claim_code m zeroed = claim_code m used /\
  length (claim_code m zeroed) = 10%nat.
Proof.
  intros m zeroed used.
  assert (H1 : length zeroed = 12%nat) by reflexivity.
  assert (H2 : length used = 12%nat) by reflexivity.
  destruct (claim_code_is_function_of_mac m zeroed used H1 H2)
    as (Hsame & Hlen & _).
  split; [split; assumption|].
  split; [vm_compute; reflexivity|]. split; assumption.
Defined.

End ClaimTheorems.

(** ** CaptivePortalServer: the connect handler *)

Section PortalTheorems.
Import CStr Portal Spec.

Lemma event_frame_refl st : event_frame st st.
Proof. repeat split; auto. Qed.

Lemma event_frame_trans st1 st2 st3 :
  event_frame st1 st2 -> event_frame st2 st3 -> event_frame st1 st3.
Proof.
  intros (A1 & A2 & A3 & A4 & A5) (B1 & B2 & B3 & B4 & B5).
  unfold event_frame. rewrite B1, B2, B3, B4, B5. auto.
Qed.

Lemma wifi_event_handler_frame ev st : event_frame st (wifi_event_handler ev st).
Proof.
  destruct st as [r g d c f cs]. unfold event_frame, http_calls.
  destruct ev; cbn.
  - repeat split; auto.
  - destruct (r <? WIFI_MAXIMUM_RETRY); cbn.
    + repeat split; auto.
    + destruct g; cbn; repeat split; auto; discriminate.
  - destruct g; cbn; repeat split; auto; discriminate.
Qed.

Lemma deliver_frame evs : forall st, event_frame st (deliver evs st).
Proof.
  induction evs as [|e evs IH]; intros st.
  - apply event_frame_refl.
  - eapply event_frame_trans; [apply (wifi_event_handler_frame e)|apply IH].
Qed.

Lemma wait_bits_frame evs : forall st, event_frame st (wait_bits evs st).
Proof.
  induction evs as [|e evs IH]; intros st; cbn [wait_bits].
  - destruct (any_bit st); apply event_frame_refl.
  - destruct (any_bit st); [apply event_frame_refl|].
    eapply event_frame_trans; [apply (wifi_event_handler_frame e)|apply IH].
Qed.

Lemma substring_all s : forall n,
  (String.length s <= n)%nat -> String.substring 0 n s = s.
Proof.
  induction s as [|c s IH]; intros n Hn.
  - destruct n; reflexivity.
  - destruct n as [|n]; cbn [String.length] in Hn; [lia|].
    cbn [String.substring]. rewrite IH by lia. reflexivity.
Qed.

Lemma received_body_positive body :
  body <> EmptyString ->
  0 < Z.of_nat (String.length (String.substring 0 255 body)).
Proof.
  destruct body as [|c body]; [congruence|]. intros _.
  cbn [String.substring String.length]. lia.
Qed.

Lemma string_length_append (s1 s2 : string) :
  String.length (s1 ++ s2) = (String.length s1 + String.length s2)%nat.
Proof.
  induction s1 as [|c s1 IH]; [reflexivity|].
  change (S (String.length (s1 ++ s2))
          = S (String.length s1 + String.length s2)).
  rewrite IH. reflexivity.
Qed.

Lemma length_success_reply code :
  String.length (success_reply code) = (32 + String.length code)%nat.
Proof.
  unfold success_reply, quoted.
  rewrite !string_length_append. cbn [String.length dq]. lia.
Qed.

(** Clearing makes the retry counter and the bits of before
    immaterial. *)
Lemma clear_forgets st r b :
  s_wifi_event_group st <> None ->
  clear_bits (set_retry 0 (set_group (Some b) (set_retry r st)))
  = clear_bits (set_retry 0 st).
Proof.
  destruct st as [r0 g d c f cs]. cbn. intros Hg.
  destruct g; [reflexivity|congruence].
Qed.

Lemma string_length_zero (s : string) :
  (String.length s =? 0)%nat = true <-> s = EmptyString.
Proof.
  destruct s as [|c s]; cbn [String.length]; split; intros H;
    try reflexivity; discriminate.
Qed.

Lemma http_calls_do_call c st :
  http_calls (do_call HttpTask c st) = c :: http_calls st.
Proof. reflexivity. Qed.

Lemma http_calls_cleared st :
  http_calls (clear_bits (set_retry 0 st)) = http_calls st.
Proof. destruct st as [r [g|] d c f cs]; reflexivity. Qed.

Lemma cleared_frame st : event_frame st (clear_bits (set_retry 0 st)).
Proof.
  destruct st as [r [g|] d c f cs]; unfold event_frame; cbn;
    repeat split; auto; discriminate.
Qed.

Lemma do_call_frame t c st :
  nvs (do_call t c st) = nvs st /\
  s_claim_code (do_call t c st) = s_claim_code st /\
  s_provisioning_done (do_call t c st) = s_provisioning_done st /\
  s_wifi_event_group (do_call t c st) = s_wifi_event_group st.
Proof. repeat split. Qed.

(** The state in which the handler starts to wait, seen from the state
    in which it was entered. *)
Lemma armed_state env cfg st :
  let st6 :=
    do_call HttpTask (xEventGroupWaitBits 15000)
      (do_call HttpTask esp_wifi_connect
         (do_call HttpTask (esp_wifi_set_config cfg)
            (deliver (during_delay env)
               (do_call HttpTask (vTaskDelay 100)
                  (do_call HttpTask esp_wifi_disconnect
                     (clear_bits (set_retry 0 st))))))) in
  nvs st6 = nvs st /\
  s_claim_code st6 = s_claim_code st /\
  http_calls st6
    = [xEventGroupWaitBits 15000; esp_wifi_connect; esp_wifi_set_config cfg;
       vTaskDelay 100; esp_wifi_disconnect] ++ http_calls st /\
  (s_wifi_event_group st6 = None <-> s_wifi_event_group st = None).
Proof.
  intros st6. subst st6.
  set (st2 := do_call HttpTask (vTaskDelay 100)
                (do_call HttpTask esp_wifi_disconnect
                   (clear_bits (set_retry 0 st)))).
  destruct (deliver_frame (during_delay env) st2) as (D1 & D2 & _ & D4 & D5).
  destruct (cleared_frame st) as (C1 & C2 & _ & _ & C5).
  rewrite !http_calls_do_call, D4.
  cbn [nvs s_claim_code s_wifi_event_group do_call].
  rewrite D1, D2, D5. subst st2.
  rewrite !http_calls_do_call, http_calls_cleared.
  cbn [nvs s_claim_code s_wifi_event_group do_call].
  rewrite C1, C2, C5. repeat split; auto.
Qed.

(** With an SSID in the request, the handler's run hangs on the entry
    state only through the state after the clearing. *)
Lemma http_connect_handler_cleared env st1 st2 body :
  request_body env = Some body ->
  body <> EmptyString ->
  parse_ssid (String.substring 0 255 body) <> EmptyString ->
  clear_bits (set_retry 0 st1) = clear_bits (set_retry 0 st2) ->
  http_connect_handler env st1 = http_connect_handler env st2.
Proof.
  intros Hbody Hne Hssid Hclear.
  pose proof (received_body_positive body Hne) as Hpos.
  unfold http_connect_handler. rewrite Hbody. cbn [httpd_req_recv].
  destruct (Z.leb_spec (Z.of_nat (String.length (String.substring 0 255 body))) 0)
    as [|_]; [lia|].
  destruct (String.length (parse_ssid (String.substring 0 255 body)) =? 0)%nat
    eqn:Hlen; [apply string_length_zero in Hlen; contradiction|].
  rewrite Hclear. reflexivity.
Qed.

(** The run of the handler on a request with a body and an SSID. *)
Lemma http_connect_handler_run (env : connect_env) (st : state)
      (body : string) :
  request_body env = Some body ->
  body <> EmptyString ->
  (String.length (s_claim_code st) <= 11)%nat ->
  let content := String.substring 0 255 body in
  let ssid := parse_ssid content in
  let password := parse_password content in
  let reply := fst (http_connect_handler env st) in
  let st' := snd (http_connect_handler env st) in
  (ssid = EmptyString -> reply = Json no_ssid_reply /\ st' = st) /\
  (ssid <> EmptyString ->
   config_accepted env = true ->
   s_wifi_event_group st <> None ->
   http_calls st'
     = [xEventGroupWaitBits 15000; esp_wifi_connect;
        esp_wifi_set_config (station_config ssid password);
        vTaskDelay 100; esp_wifi_disconnect] ++ http_calls st /\
   (forall r b,
      http_connect_handler env (set_group (Some b) (set_retry r st))
      = http_connect_handler env st) /\
   (connected st' = true ->
      reply = Json (success_reply (s_claim_code st)) /\
      Nvs.lookup (nvs st') "wifi" "ssid" = Some (Nvs.Str ssid) /\
      Nvs.lookup (nvs st') "wifi" "password" = Some (Nvs.Str password) /\
      s_provisioning_done st' = true) /\
   (connected st' = false ->
      reply = Json failed_reply /\ nvs st' = nvs st)).
Proof.
  intros Hbody Hne Hcode content ssid password reply st'.
  pose proof (received_body_positive body Hne) as Hpos.
  assert (Hrun : http_connect_handler env st
                 = http_connect_handler env st) by reflexivity.
  unfold http_connect_handler at 2 in Hrun.
  rewrite Hbody in Hrun. cbn [httpd_req_recv] in Hrun.
  fold content in Hrun.
  destruct (Z.leb_spec (Z.of_nat (String.length content)) 0) as [|_];
    [subst content; lia|].
  fold ssid password in Hrun.
  split.
  - intros Hempty. apply string_length_zero in Hempty.
    rewrite Hempty in Hrun. subst reply st'. rewrite Hrun. split; reflexivity.
  - intros Hssid Hcfg Hgroup.
    destruct (String.length ssid =? 0)%nat eqn:Hlen;
      [apply string_length_zero in Hlen; contradiction|].
    rewrite Hcfg in Hrun. cbn [negb] in Hrun.
    pose proof (armed_state env (station_config ssid password) st) as Harmed.
    cbv zeta in Harmed.
    set (st6 := do_call HttpTask (xEventGroupWaitBits 15000) _) in *.
    destruct Harmed as (A1 & A2 & A4 & A5).
    destruct (wait_bits_frame (during_wait env) st6) as (W1 & W2 & _ & W4 & W5).
    set (st7 := wait_bits (during_wait env) st6) in *.
    destruct (s_wifi_event_group st6) as [bits6|] eqn:Hg6;
      [|exfalso; apply Hgroup, A5; reflexivity].
    destruct (s_wifi_event_group st7) as [bits|] eqn:Hg7;
      [|exfalso; assert (Some bits6 = None) by (apply W5; reflexivity);
        discriminate].
    split; [|split; [|split]].
    + subst reply st'. rewrite Hrun.
      destruct (connected_bit bits); cbn [snd];
        [change (http_calls (set_done true
                   (save_wifi_credentials ssid password st7)))
           with (http_calls st7)|];
        rewrite W4; exact A4.
    + intros r b. apply (http_connect_handler_cleared env _ _ body Hbody Hne).
      * exact Hssid.
      * apply clear_forgets, Hgroup.
    + intros Hconn. subst reply st'. rewrite Hrun in Hconn |- *.
      destruct (connected_bit bits) eqn:Hbit; cbn [fst snd] in Hconn |- *.
      * split; [|split; [|split]].
        -- cbn [s_claim_code set_done save_wifi_credentials set_nvs].
           rewrite W2, A2. unfold snprintf.
           rewrite substring_all; [reflexivity|].
           rewrite length_success_reply. lia.
        -- cbn [nvs set_done save_wifi_credentials set_nvs].
           rewrite lookup_close_readwrite, decide_True by reflexivity.
           unfold Nvs.set_str. rewrite lookup_insert_ne by discriminate.
           apply lookup_insert_eq.
        -- cbn [nvs set_done save_wifi_credentials set_nvs].
           rewrite lookup_close_readwrite, decide_True by reflexivity.
           unfold Nvs.set_str. apply lookup_insert_eq.
        -- reflexivity.
      * unfold connected in Hconn. rewrite Hg7, Hbit in Hconn.
        discriminate Hconn.
    + intros Hconn. subst reply st'. rewrite Hrun in Hconn |- *.
      destruct (connected_bit bits) eqn:Hbit; cbn [fst snd] in Hconn |- *.
      * unfold connected in Hconn.
        cbn [s_wifi_event_group set_done save_wifi_credentials set_nvs]
          in Hconn.
        rewrite Hg7, Hbit in Hconn. discriminate Hconn.
      * split; [reflexivity|]. rewrite W1. exact A1.
Qed.

Lemma signals_do_call t c st : signals (do_call t c st) = signals st.
Proof. reflexivity. Qed.

Lemma signals_wifi_event_handler ev s1 s2 :
  signals s1 = signals s2 ->
  signals (wifi_event_handler ev s1) = signals (wifi_event_handler ev s2).
Proof.
  destruct s1 as [r1 g1 d1 c1 f1 cs1], s2 as [r2 g2 d2 c2 f2 cs2].
  unfold signals. cbn [s_retry_num s_wifi_event_group].
  intros H. injection H as -> ->.
  destruct ev; cbn; [reflexivity| |].
  - destruct (r2 <? WIFI_MAXIMUM_RETRY); cbn; [reflexivity|].
    destruct g2; reflexivity.
  - destruct g2; reflexivity.
Qed.

Lemma signals_deliver evs : forall s1 s2,
  signals s1 = signals s2 ->
  signals (deliver evs s1) = signals (deliver evs s2).
Proof.
  induction evs as [|e evs IH]; intros s1 s2 H; [exact H|].
  apply (IH (wifi_event_handler e s1) (wifi_event_handler e s2)).
  apply signals_wifi_event_handler, H.
Qed.

Lemma signals_wait_bits evs : forall s1 s2,
  signals s1 = signals s2 ->
  signals (wait_bits evs s1) = signals (wait_bits evs s2).
Proof.
  assert (Hany : forall s1 s2, signals s1 = signals s2 -> any_bit s1 = any_bit s2).
  { intros s1 s2 H. unfold any_bit. injection H as _ ->. reflexivity. }
  induction evs as [|e evs IH]; intros s1 s2 H; cbn [wait_bits];
    rewrite (Hany s1 s2 H); destruct (any_bit s2); try exact H.
  apply IH, signals_wifi_event_handler, H.
Qed.

(** The retry counter and the bits at the end of the run are what the
    events of the delay and of the wait make of a counter of 0 and two
    cleared bits. *)
Lemma http_connect_handler_signals env st body :
  request_body env = Some body ->
  body <> EmptyString ->
  parse_ssid (String.substring 0 255 body) <> EmptyString ->
  config_accepted env = true ->
  s_wifi_event_group st <> None ->
  signals (snd (http_connect_handler env st))
  = signals (wait_bits (during_wait env)
               (deliver (during_delay env)
                  (set_group (Some (mkBits false false)) (set_retry 0 st)))).
Proof.
  intros Hbody Hne Hssid Hcfg Hgroup.
  pose proof (received_body_positive body Hne) as Hpos.
  unfold http_connect_handler. rewrite Hbody. cbn [httpd_req_recv].
  destruct (Z.leb_spec (Z.of_nat (String.length (String.substring 0 255 body))) 0)
    as [|_]; [lia|].
  destruct (String.length (parse_ssid (String.substring 0 255 body)) =? 0)%nat
    eqn:Hlen; [apply string_length_zero in Hlen; contradiction|].
  rewrite Hcfg. cbn [negb].
  pose proof (armed_state env
                (station_config (parse_ssid (String.substring 0 255 body))
                   (parse_password (String.substring 0 255 body))) st)
    as Harmed.
  cbv zeta in Harmed.
  set (st6 := do_call HttpTask (xEventGroupWaitBits 15000) _) in *.
  destruct Harmed as (_ & _ & _ & A5).
  assert (H6 : signals st6
               = signals (deliver (during_delay env)
                            (set_group (Some (mkBits false false))
                               (set_retry 0 st)))).
  { subst st6. rewrite !signals_do_call. apply signals_deliver.
    rewrite !signals_do_call.
    destruct st as [r [g|] d c f cs]; [reflexivity|].
    exfalso. apply Hgroup. reflexivity. }
  pose proof (signals_wait_bits (during_wait env) _ _ H6) as H7.
  destruct (s_wifi_event_group st6) as [bits6|] eqn:Hg6;
    [|exfalso; apply Hgroup, A5; reflexivity].
  destruct (s_wifi_event_group (wait_bits (during_wait env) st6))
    as [bits|] eqn:Hg7; [|exact H7].
  destruct (connected_bit bits); exact H7.
Qed.

Lemma http_connect_handler_no_body env st :
  posted env = EmptyString ->
  http_connect_handler env st = (HttpError 400 "Invalid request", st).
Proof.
  unfold posted, http_connect_handler.
  destruct (request_body env) as [body|]; cbn [from_option id httpd_req_recv].
  - intros ->. reflexivity.
  - intros _. reflexivity.
Qed.

Lemma posted_body env :
  posted env <> EmptyString -> request_body env = Some (posted env).
Proof.
  unfold posted. destruct (request_body env); cbn [from_option id]; congruence.
Qed.

(** The claim of C6 as worded fails for a request with an empty body:
    its parsed SSID is empty, yet the handler answers with the error
    400 Invalid request and not with the No-SSID text. *)
Lemma connect_claim_fails :
  let env := mkEnv (Some EmptyString) [] true [] in
  let st := mkState 0 (Some (mkBits false false)) false "4PDZ66BAAA" ∅ [] in
  parse_ssid (String.substring 0 255 EmptyString) = EmptyString /\
  http_connect_handler env st = (HttpError 400 "Invalid request", st) /\
  ~ connect_claim env st.
Proof.
  split; [reflexivity|]. split; [reflexivity|].
  intros H. specialize (H EmptyString eq_refl eq_refl). discriminate H.
Qed.

(** C6, amended: a request whose body cannot be received or is empty is
    answered with the error 400 Invalid request, the state untouched.
    With a body received, an empty parsed SSID gives the No-SSID reply
    and leaves the whole state (flash, retry counter, event bits, driver
    calls) as it was.  With an SSID, the event group created and the
    configuration accepted by the driver, the handler sets the retry
    counter to 0 and both signal bits down, then makes the calls
    disconnect, 100 ms delay, set-config, connect and a 15 s wait in
    this order: the counter and the bits at the end are what the events
    of the delay and of the wait make of 0 and two cleared bits (with no
    event at all they are still 0 and down, and the reply is the failure
    text), and the run does not depend on the counter and bits found at
    entry.  If the connected bit is up when the wait ends the handler
    stores SSID and password on flash, raises the provisioning flag and
    replies success with the claim code; otherwise it replies with the
    failure text and the flash is as before. *)
Theorem http_connect_handler_spec (env : connect_env) (st : state) :
  (String.length (s_claim_code st) <= 11)%nat ->
  let body := posted env in
  let content := String.substring 0 255 body in
  let ssid := parse_ssid content in
  let password := parse_password content in
  let reply := fst (http_connect_handler env st) in
  let st' := snd (http_connect_handler env st) in
  (body = EmptyString ->
   reply = HttpError 400 "Invalid request" /\ st' = st) /\
  (body <> EmptyString -> ssid = EmptyString ->
   reply = Json no_ssid_reply /\ st' = st) /\
  (ssid <> EmptyString ->
   config_accepted env = true ->
   s_wifi_event_group st <> None ->
   http_calls st'
     = [xEventGroupWaitBits 15000; esp_wifi_connect;
        esp_wifi_set_config (station_config ssid password);
        vTaskDelay 100; esp_wifi_disconnect] ++ http_calls st /\
   signals st'
     = signals (wait_bits (during_wait env)
                  (deliver (during_delay env)
                     (set_group (Some (mkBits false false))
                        (set_retry 0 st)))) /\
   (during_delay env = [] -> during_wait env = [] ->
      s_retry_num st' = 0 /\
      s_wifi_event_group st' = Some (mkBits false false) /\
      reply = Json failed_reply) /\
   (forall r b,
      http_connect_handler env (set_group (Some b) (set_retry r st))
      = http_connect_handler env st) /\
   (connected st' = true ->
      reply = Json (success_reply (s_claim_code st)) /\
      Nvs.lookup (nvs st') "wifi" "ssid" = Some (Nvs.Str ssid) /\
      Nvs.lookup (nvs st') "wifi" "password" = Some (Nvs.Str password) /\
      s_provisioning_done st' = true) /\
   (connected st' = false ->
      reply = Json failed_reply /\ nvs st' = nvs st)).
Proof.
  intros Hcode body content ssid password reply st'.
  split; [|split].
  - intros Hempty. subst reply st'.
    rewrite (http_connect_handler_no_body env st Hempty). split; reflexivity.
  - intros Hne Hssid.
    destruct (http_connect_handler_run env st body (posted_body env Hne)
                Hne Hcode) as [Hno _].
    exact (Hno Hssid).
  - intros Hssid Hcfg Hgroup.
    assert (Hne : body <> EmptyString).
    { intros Hempty. apply Hssid. subst ssid content. rewrite Hempty.
      reflexivity. }
    pose proof (posted_body env Hne) as Hbody.
    destruct (http_connect_handler_run env st body Hbody Hne Hcode)
      as [_ Hrun].
    destruct (Hrun Hssid Hcfg Hgroup) as (Hcalls & Hindep & Hok & Hfail).
    pose proof (http_connect_handler_signals env st body Hbody Hne Hssid
                  Hcfg Hgroup) as Hsig.
    split; [exact Hcalls|]. split; [exact Hsig|].
    split; [|split; [exact Hindep|split; [exact Hok|exact Hfail]]].
    intros Hdelay Hwait. fold st' in Hsig.
    rewrite Hdelay, Hwait in Hsig. cbn in Hsig.
    injection Hsig as Hr Hg.
    split; [exact Hr|]. split; [exact Hg|].
    apply Hfail. unfold connected. fold st'. rewrite Hg. reflexivity.
Qed.

(** A request for network Home that the driver connects to, a request
    without an SSID, a request that no event answers and a request
    without a body, all met with the fail bit up and three retries
    counted. *)
Lemma http_connect_handler_spec_witness :
  let st := mkState 3 (Some (mkBits false true)) false "4PDZ66BAAA" ∅ [] in
  let home := mkEnv (Some (connect_request "Home" "secret123")) []
                    true [IP_EVENT_STA_GOT_IP] in
  let bare := mkEnv (Some "{}"%string) [] true [] in
  let quiet := mkEnv (Some (connect_request "Home" "secret123")) []
                     true [] in
  let empty := mkEnv (Some EmptyString) [] true [] in
  (String.length (s_claim_code st) <= 11)%nat /\
  (parse_ssid (connect_request "Home" "secret123") = "Home"%string /\
   parse_password (connect_request "Home" "secret123") = "secret123"%string /\
   parse_ssid "{}" = EmptyString) /\
  http_connect_handler empty st = (HttpError 400 "Invalid request", st) /\
  http_connect_handler bare st = (Json no_ssid_reply, st) /\
  (s_retry_num (snd (http_connect_handler quiet st)) = 0 /\
   s_wifi_event_group (snd (http_connect_handler quiet st))
   = Some (mkBits false false) /\
   fst (http_connect_handler quiet st) = Json failed_reply) /\
  fst (http_connect_handler home st) = Json (success_reply "4PDZ66BAAA") /\
  Nvs.lookup (nvs (snd (http_connect_handler home st))) "wifi" "ssid"
    = Some (Nvs.Str "Home") /\
  http_calls (snd (http_connect_handler home st))
    = [xEventGroupWaitBits 15000; esp_wifi_connect;
       esp_wifi_set_config (mkSta "Home" "secret123" WIFI_AUTH_WPA2_PSK);
       vTaskDelay 100; esp_wifi_disconnect].
Proof.
  intros st home bare quiet empty.
  assert (Hcode : (String.length (s_claim_code st) <= 11)%nat)
    by (vm_compute; lia).
  split; [exact Hcode|].
  split; [repeat split; vm_compute; reflexivity|].
  split; [|split; [|split]].
  - destruct (http_connect_handler_spec empty st Hcode) as [Hempty _].
    destruct (Hempty eq_refl) as [Hr Hs].
    rewrite (surjective_pairing (http_connect_handler empty st)), Hr, Hs.
    reflexivity.
  - destruct (http_connect_handler_spec bare st Hcode) as (_ & Hno & _).
    destruct (Hno ltac:(discriminate) eq_refl) as [Hr Hs].
    rewrite (surjective_pairing (http_connect_handler bare st)), Hr, Hs.
    reflexivity.
  - destruct (http_connect_handler_spec quiet st Hcode) as (_ & _ & Hssid).
    destruct Hssid as (_ & _ & Hquiet & _);
      [vm_compute; discriminate|reflexivity|discriminate|].
    exact (Hquiet eq_refl eq_refl).
  - destruct (http_connect_handler_spec home st Hcode) as (_ & _ & Hssid).
    destruct Hssid as (Hcalls & _ & _ & _ & Hok & _);
      [vm_compute; discriminate|reflexivity|discriminate|].
    destruct Hok as (Hr & Hs & _); [vm_compute; reflexivity|].
    split; [exact Hr|]. split; [exact Hs|exact Hcalls].
Defined.

End PortalTheorems.

(** ** CaptivePortalServer: the scan handler; the webhook signature *)

Section ScanTheorems.
Import CStr Portal Spec.

(** C7 at a failing input: one network "Home" seen at -45 dBm.  The
    handler prints the measured RSSI; the bucket 4 that it has just
    computed into [rssi_level] is not what reaches the reply. *)
Theorem http_scan_handler_prints_raw_rssi :
  http_scan_handler [mkAp "Home" (-45) 3] true true
    = ScanJson (networks_reply (network_entry "Home" "-45" "3")) /\
  http_scan_handler [mkAp "Home" (-45) 3] true true
    <> ScanJson (networks_reply (network_entry "Home" "4" "3")).
Proof.
  split; [vm_compute; reflexivity|].
  vm_compute. discriminate.
Qed.

(** The parts of C7 that do hold: hidden networks are skipped and no
    more than 20 records are looked at. *)
Lemma scan_entries_skips_hidden r rest response offset :
  ap_ssid r = EmptyString ->
  scan_entries (r :: rest) response offset
  = scan_entries rest response offset.
Proof. intros H. cbn [scan_entries]. rewrite H. reflexivity. Qed.

Lemma http_scan_handler_first_twenty found :
  http_scan_handler found true true
  = http_scan_handler (firstn 20 found) true true.
Proof.
  unfold http_scan_handler. cbn [negb].
  rewrite length_take, take_take.
  replace (Nat.min (Nat.min 20 (length found)) 20)
    with (Nat.min (length found) 20) by lia.
  replace (Nat.min (Nat.min (length found) 20) 20)
    with (Nat.min (length found) 20) by lia.
  reflexivity.
Qed.
End ScanTheorems.

Section HmacTheorems.
Import Machine Hmac.

Lemma nibble_in_hex_chars z :
  In (nth (Z.to_nat (Z.land z 15)) hex_chars Claim.NUL) hex_chars.
Proof.
  apply nth_In. change (length hex_chars) with 16%nat.
  change 15 with (Z.ones 4). rewrite Z.land_ones by lia.
  pose proof (Z.mod_pos_bound z (2 ^ 4)). lia.
Qed.

Lemma length_flat_map_pairs {A B} (f : A -> B * B) (l : list A) :
  length (flat_map (fun x => [fst (f x); snd (f x)]) l) = (2 * length l)%nat.
Proof.
  induction l as [|x l IH]; [reflexivity|].
  cbn [flat_map app length]. rewrite IH. lia.
Qed.

Lemma bytes_to_hex_length bytes len :
  length (bytes_to_hex bytes len) = (2 * len)%nat.
Proof.
  unfold bytes_to_hex.
  rewrite (length_flat_map_pairs
             (fun i =>
                let b := byte_val (nth i bytes x00) in
                (nth (Z.to_nat (Z.land (Z.shiftr b 4) 15)) hex_chars Claim.NUL,
                 nth (Z.to_nat (Z.land b 15)) hex_chars Claim.NUL))).
  rewrite List.length_seq. reflexivity.
Qed.

Lemma bytes_to_hex_lowercase bytes len :
  Forall (fun c => In c hex_chars) (bytes_to_hex bytes len).
Proof.
  unfold bytes_to_hex. induction (seq 0 len) as [|i l IH];
    cbn [flat_map app]; [constructor|].
  constructor; [apply nibble_in_hex_chars|].
  constructor; [apply nibble_in_hex_chars|]. exact IH.
Qed.

(** The part of C9 that the firmware itself decides: whatever the HMAC
    peripheral returns, a signature that is attached is 64 characters
    out of [0123456789abcdef]. *)
Lemma signature_is_64_lowercase_hex
      (esp_hmac_calculate : list byte -> option (list byte))
      (available : bool) (message : list byte) (signature : list ascii) :
  calculate_hmac_signature esp_hmac_calculate available message
    = Some signature ->
  length signature = 64%nat /\
  Forall (fun c => In c hex_chars) signature.
Proof.
  unfold calculate_hmac_signature. intros H.
  destruct available; cbn [negb] in H; [|discriminate].
  destruct (esp_hmac_calculate message) as [hmac|]; [|discriminate].
  injection H as <-. split.
  - apply bytes_to_hex_length.
  - apply bytes_to_hex_lowercase.
Qed.
End HmacTheorems.

(** ** StreakStore across saves, restarts and resets *)

Section StoreLifecycle.
Import Machine Streak Spec Reset.

Ltac streak_fields :=
  cbn [streak_data last_day today_state button_pressed last_debounce_time
       last_button_state ntp_synced nvs effects
       set_streak_data set_last_day set_today_state set_button_pressed
       set_last_debounce_time set_last_button_state set_ntp_synced set_nvs
       emit update_leds send_webhook].

Lemma u8_small z : 0 <= z < 256 -> u8 z = z.
Proof. intros H. unfold u8. apply Z.mod_small. lia. Qed.

(** What [load_streak] takes from a flash that has the namespace. *)
Lemma load_streak_reads st ns :
  nvs st !! "streak" = Some ns ->
  streak_data (load_streak st)
    = u8 (match Nvs.lookup (nvs st) "streak" "data" with
          | Some (Nvs.U8 v) => v
          | _ => 0
          end) /\
  last_day (load_streak st)
    = match Nvs.lookup (nvs st) "streak" "lastDay" with
      | Some (Nvs.I32 v) => v
      | _ => -1
      end.
Proof.
  intros Hns. unfold load_streak, Nvs.open_readonly, Nvs.lookup.
  rewrite Hns. cbn [mbind option_bind]. split; reflexivity.
Qed.

Lemma save_streak_namespace st :
  exists ns, nvs (save_streak st) !! "streak" = Some ns.
Proof.
  unfold save_streak, Nvs.close_readwrite. cbn [nvs set_nvs].
  eexists. apply lookup_insert_eq.
Qed.

Lemma restart_fields f :
  streak_data (restart f) = streak_data (load_streak (boot f)) /\
  last_day (restart f) = last_day (load_streak (boot f)) /\
  today_state (restart f) = today_state (load_streak (boot f)) /\
  nvs (restart f) = f /\
  ntp_synced (restart f) = false.
Proof.
  unfold restart, load_streak.
  destruct (Nvs.open_readonly (nvs (boot f)) "streak"); repeat split.
Qed.

(** X1: what [save_streak] wrote is what the next start reads back: the
    mapping, the today flag as bit 6 of it, and the day when it was
    known; with the day unknown the start falls back on the day that was
    on flash before, or -1. *)
Theorem restart_reads_back_save (st : state) :
  0 <= streak_data st < 256 ->
  let st' := restart (nvs (save_streak st)) in
  streak_data st' = streak_data st /\
  today_state st' = Z.testbit (streak_data st) 6 /\
  last_day st'
    = if last_day st =? -1
      then match Nvs.lookup (nvs st) "streak" "lastDay" with
           | Some (Nvs.I32 v) => v
           | _ => -1
           end
      else last_day st.
Proof.
  intros Hv st'.
  destruct (restart_fields (nvs (save_streak st))) as (Hd & Hl & Ht & _).
  destruct (save_streak_namespace st) as [ns Hns].
  destruct (load_streak_reads (boot (nvs (save_streak st))) ns Hns)
    as [Hdata Hday].
  cbn [nvs boot] in Hdata, Hday.
  rewrite save_streak_lookup, decide_True in Hdata by done.
  rewrite save_streak_lookup in Hday.
  rewrite decide_False in Hday by (intros [_ ?]; discriminate).
  assert (Hd' : streak_data st' = streak_data st).
  { subst st'. rewrite Hd, Hdata. apply u8_small, Hv. }
  split; [exact Hd'|]. split.
  - subst st'. rewrite Ht, load_streak_today, Z.shiftr_spec by lia.
    rewrite <- Hd, Hd'. reflexivity.
  - subst st'. rewrite Hl, Hday.
    destruct (Z.eqb_spec (last_day st) (-1)) as [Heq|Hne].
    + rewrite decide_False by (intros (_ & _ & ?); contradiction). reflexivity.
    + rewrite decide_True by done. reflexivity.
Qed.

Lemma restart_reads_back_save_witness :
  let f : Nvs.flash := {[ "wifi" := {[ "ssid" := Nvs.Str "Home" ]} ]} in
  let st := set_last_day 200 (set_today_state true (set_streak_data 77 (boot f))) in
  0 <= streak_data st < 256 /\
  streak_data (restart (nvs (save_streak st))) = 77 /\
  today_state (restart (nvs (save_streak st))) = true /\
  last_day (restart (nvs (save_streak st))) = 200.
Proof.
  intros f st.
  assert (H : 0 <= streak_data st < 256) by (cbn; lia).
  destruct (restart_reads_back_save st H) as (H1 & H2 & H3).
  split; [exact H|]. split; [exact H1|]. split; [exact H2|exact H3].
Defined.

Lemma load_streak_missing st :
  nvs st !! "streak" = None ->
  streak_data (load_streak st) = streak_data st /\
  last_day (load_streak st) = last_day st.
Proof.
  intros Hns. unfold load_streak, Nvs.open_readonly. rewrite Hns.
  split; reflexivity.
Qed.

Lemma restart_blank (f : Nvs.flash) :
  Nvs.lookup f "streak" "data" = None ->
  Nvs.lookup f "streak" "lastDay" = None ->
  streak_data (restart f) = 0 /\
  today_state (restart f) = false /\
  last_day (restart f) = -1.
Proof.
  intros Hdata Hday.
  destruct (restart_fields f) as (Hd & Hl & Ht & _).
  assert (H : streak_data (load_streak (boot f)) = 0 /\
              last_day (load_streak (boot f)) = -1).
  { destruct (f !! "streak") as [ns|] eqn:Hns.
    - destruct (load_streak_reads (boot f) ns Hns) as [H1 H2].
      cbn [nvs boot] in H1, H2. rewrite Hdata in H1. rewrite Hday in H2.
      split; assumption.
    - apply (load_streak_missing (boot f)). exact Hns. }
  destruct H as [H0 H1].
  rewrite Hd, Hl, Ht, load_streak_today, H0, H1. repeat split.
Qed.

(** X2: a start on a flash that holds neither the mapping nor the day
    (namespace never written, or written without these keys) comes up
    with the all-zero mapping, the today flag down and the day unknown. *)
Theorem restart_without_stored_streak (f : Nvs.flash) :
  Nvs.lookup f "streak" "data" = None ->
  Nvs.lookup f "streak" "lastDay" = None ->
  streak_data (restart f) = 0 /\
  today_state (restart f) = false /\
  last_day (restart f) = -1.
Proof.
  exact (restart_blank f).
Qed.

Lemma restart_without_stored_streak_witness :
  let f : Nvs.flash := {[ "streak" := {[ "other" := Nvs.U8 9 ]} ]} in
  (Nvs.lookup f "streak" "data" = None /\
   Nvs.lookup f "streak" "lastDay" = None) /\
  streak_data (restart f) = 0 /\
  today_state (restart f) = false /\
  last_day (restart f) = -1.
Proof.
  intros f.
  assert (H1 : Nvs.lookup f "streak" "data" = None) by reflexivity.
  assert (H2 : Nvs.lookup f "streak" "lastDay" = None) by reflexivity.
  split; [split; assumption|].
  exact (restart_without_stored_streak f H1 H2).
Defined.

Lemma lookup_erase_all (f : Nvs.flash) (name name' key : string) :
  Nvs.lookup (erase_all f name) name' key
  = if decide (name = name') then None else Nvs.lookup f name' key.
Proof.
  unfold erase_all. rewrite lookup_close_readwrite.
  destruct (decide (name = name')); [apply lookup_empty|reflexivity].
Qed.

Lemma http_reset_handler_lookup st name key :
  Nvs.lookup (nvs (snd (http_reset_handler st))) name key
  = if decide (name = "wifi" \/ name = "streak") then None
    else Nvs.lookup (nvs st) name key.
Proof.
  unfold http_reset_handler, clear_streak_data, clear_wifi_credentials.
  cbn [snd]. streak_fields. rewrite !lookup_erase_all.
  destruct (decide ("streak" = name)) as [<-|Hs].
  - rewrite decide_True by (right; reflexivity). reflexivity.
  - destruct (decide ("wifi" = name)) as [<-|Hw].
    + rewrite decide_True by (left; reflexivity). reflexivity.
    + rewrite decide_False by (intros [?|?]; congruence). reflexivity.
Qed.

(** X3: the reset handler leaves nothing of the streak or the WiFi
    credentials behind, in memory or on flash: the device restarts with
    the all-zero mapping, the today flag down, the day unknown and no
    stored credentials, while every other namespace of the flash is as
    it was. *)
Theorem http_reset_handler_forgets (st : state) :
  let st' := snd (http_reset_handler st) in
  (streak_data st' = 0 /\ today_state st' = false /\ last_day st' = -1) /\
  (streak_data (restart (nvs st')) = 0 /\
   today_state (restart (nvs st')) = false /\
   last_day (restart (nvs st')) = -1) /\
  Station.saved_credentials (nvs st') = None /\
  (forall name key,
     Nvs.lookup (nvs st') name key
     = if decide (name = "wifi" \/ name = "streak") then None
       else Nvs.lookup (nvs st) name key).
Proof.
  intros st'. split; [repeat split|]. split; [|split].
  - apply restart_blank; subst st';
      rewrite http_reset_handler_lookup;
      apply decide_True; right; reflexivity.
  - subst st'. unfold Station.saved_credentials, Nvs.open_readonly.
    unfold http_reset_handler, clear_streak_data, clear_wifi_credentials.
    cbn [snd]. streak_fields.
    unfold erase_all, Nvs.close_readwrite.
    rewrite lookup_insert_ne by discriminate. rewrite lookup_insert_eq.
    unfold Station.get_str. rewrite lookup_empty. reflexivity.
  - intros name key. apply http_reset_handler_lookup.
Qed.
End StoreLifecycle.

(** ** The button *)

Section ButtonTheorems.
Import Machine Streak Spec Reset.

Ltac button_fields :=
  cbn [streak_data last_day today_state button_pressed last_debounce_time
       last_button_state ntp_synced nvs effects
       set_streak_data set_last_day set_today_state set_button_pressed
       set_last_debounce_time set_last_button_state set_ntp_synced set_nvs
       emit update_leds send_webhook save_streak].

(** One call with the button down either toggles once and leaves
    [button_pressed] up, or adds no effect and leaves [button_pressed]
    as it was. *)
Lemma handle_button_down_cases t1 t2 st :
  let st' := handle_button false t1 t2 st in
  (toggle_count (effects st') = S (toggle_count (effects st)) /\
   button_pressed st' = true) \/
  (effects st' = effects st /\ button_pressed st' = button_pressed st /\
   streak_data st' = streak_data st /\ nvs st' = nvs st).
Proof.
  unfold handle_button.
  destruct (negb (Bool.eqb false (last_button_state st))); button_fields;
    (destruct (DEBOUNCE_DELAY <? _); button_fields;
     [|right; repeat split]);
    (destruct (button_pressed st) eqn:Hp; cbn [negb andb]; button_fields;
     [right; repeat split; assumption
     |left; destruct (today_state st); cbn [negb]; button_fields;
      split; reflexivity]).
Qed.

Lemma handle_button_down_pressed t1 t2 st :
  button_pressed st = true ->
  let st' := handle_button false t1 t2 st in
  effects st' = effects st /\ button_pressed st' = true /\
  streak_data st' = streak_data st /\ nvs st' = nvs st.
Proof.
  intros Hp. unfold handle_button.
  destruct (negb (Bool.eqb false (last_button_state st))); button_fields;
    rewrite Hp; cbn [negb andb];
    (destruct (DEBOUNCE_DELAY <? _); button_fields; repeat split;
     assumption).
Qed.

Lemma held_pressed times : forall st,
  button_pressed st = true ->
  effects (held times st) = effects st /\
  streak_data (held times st) = streak_data st /\
  nvs (held times st) = nvs st.
Proof.
  induction times as [|[t1 t2] times IH]; intros st Hp; [repeat split|].
  change (held ((t1, t2) :: times) st)
    with (held times (handle_button false t1 t2 st)).
  destruct (handle_button_down_pressed t1 t2 st Hp) as (He & Hp' & Hd & Hn).
  destruct (IH _ Hp') as (He' & Hd' & Hn').
  rewrite He', Hd', Hn'. repeat split; assumption.
Qed.

(** X4: however long the button is held down and however often the loop
    looks at it meanwhile, the today flag is toggled at most once. *)
Theorem held_button_toggles_at_most_once (times : list (Z * Z)) (st : state) :
  (toggle_count (effects (held times st)) <= S (toggle_count (effects st)))%nat.
Proof.
  revert st. induction times as [|[t1 t2] times IH]; intros st.
  - cbn [held fold_left]. lia.
  - change (held ((t1, t2) :: times) st)
      with (held times (handle_button false t1 t2 st)).
    destruct (handle_button_down_cases t1 t2 st) as [[Hc Hp]|(He & _)].
    + destruct (held_pressed times _ Hp) as (He' & _).
      rewrite He', Hc. lia.
    + specialize (IH (handle_button false t1 t2 st)).
      rewrite He in IH. exact IH.
Qed.

Lemma flip_bit6 v :
  0 <= v < 256 ->
  (if Z.testbit v 6 then u8 (Z.land v (Z.lnot (bit 6)))
   else u8 (Z.lor v (bit 6))) = Z.lxor v 64.
Proof.
  intros Hv. apply Z.bits_inj'. intros n Hn.
  rewrite Z.lxor_spec. change 64 with (2 ^ 6).
  rewrite Z.pow2_bits_eqb by lia.
  assert (Hhigh : 8 <= n -> Z.testbit v n = false).
  { intros H8. replace v with (v mod 2 ^ 8) by (apply Z.mod_small; lia).
    apply Z.mod_pow2_bits_high. lia. }
  destruct (Z.testbit v 6) eqn:H6.
  - destruct (Z.ltb_spec n 8) as [Hlt|Hge].
    + destruct (Z.eqb_spec 6 n) as [<-|Hne].
      * rewrite clear_bit6, H6. reflexivity.
      * rewrite clear_bit6_other by lia. rewrite xorb_false_r. reflexivity.
    + unfold u8. rewrite Z.mod_pow2_bits_high by lia.
      rewrite Hhigh by lia.
      destruct (Z.eqb_spec 6 n); [lia|reflexivity].
  - destruct (Z.ltb_spec n 8) as [Hlt|Hge].
    + rewrite u8_testbit_low by lia.
      rewrite Z.lor_spec, bit6_value, Z.pow2_bits_eqb by lia.
      destruct (Z.eqb_spec 6 n) as [<-|Hne].
      * rewrite H6. reflexivity.
      * rewrite orb_false_r, xorb_false_r. reflexivity.
    + unfold u8. rewrite Z.mod_pow2_bits_high by lia.
      rewrite Hhigh by lia.
      destruct (Z.eqb_spec 6 n); [lia|reflexivity].
Qed.

(** X5: a press that has been stable for more than 50 ms flips bit 6 of
    the mapping and nothing else in it, flips the today flag with it,
    writes the new mapping to flash at once and calls [send_webhook]
    with the new flag. *)
Theorem debounced_press_toggles_today (st : state) (t1 t2 : Z) :
  last_button_state st = false ->
  button_pressed st = false ->
  DEBOUNCE_DELAY < u32 (u32 t2 - last_debounce_time st) ->
  0 <= streak_data st < 256 ->
  bit6_matches_today st ->
  let st' := handle_button false t1 t2 st in
  streak_data st' = Z.lxor (streak_data st) 64 /\
  today_state st' = negb (today_state st) /\
  Nvs.lookup (nvs st') "streak" "data" = Some (Nvs.U8 (streak_data st')) /\
  effects st'
    = [LogToggled (today_state st') (streak_data st');
       Webhook (today_state st');
       Leds (led_levels (streak_data st'))] ++ effects st /\
  button_pressed st' = true.
Proof.
  intros Hlast Hp Hdeb Hv Hinv st'. subst st'.
  assert (Hrun : handle_button false t1 t2 st = handle_button false t1 t2 st)
    by reflexivity.
  unfold handle_button at 2 in Hrun. rewrite Hlast in Hrun.
  cbn [Bool.eqb negb] in Hrun.
  destruct (Z.ltb_spec DEBOUNCE_DELAY (u32 (u32 t2 - last_debounce_time st)))
    as [_|]; [|lia].
  rewrite Hp in Hrun. cbn [negb andb] in Hrun.
  cbn [today_state set_today_state set_button_pressed streak_data] in Hrun.
  unfold bit6_matches_today in Hinv.
  pose proof (flip_bit6 (streak_data st) Hv) as Hflip.
  rewrite Hinv in Hflip. rewrite Hrun. clear Hrun.
  destruct (today_state st) eqn:Ht; cbn [negb] in *;
    rewrite <- Hflip;
    (split; [reflexivity|]); (split; [reflexivity|]);
    (split; [|split; reflexivity]);
    cbn [nvs set_last_button_state emit send_webhook];
    rewrite save_streak_lookup, decide_True by done; reflexivity.
Qed.

Lemma debounced_press_toggles_today_witness :
  let st := set_last_button_state false
              (set_last_debounce_time 1000 (set_streak_data 3 (boot ∅))) in
  (last_button_state st = false /\ button_pressed st = false /\
   DEBOUNCE_DELAY < u32 (u32 1051 - last_debounce_time st) /\
   0 <= streak_data st < 256 /\ bit6_matches_today st) /\
  streak_data (handle_button false 1051 1051 st) = 67 /\
  today_state (handle_button false 1051 1051 st) = true.
Proof.
  intros st.
  assert (H1 : last_button_state st = false) by reflexivity.
  assert (H2 : button_pressed st = false) by reflexivity.
  assert (H3 : DEBOUNCE_DELAY < u32 (u32 1051 - last_debounce_time st))
    by (vm_compute; reflexivity).
  assert (H4 : 0 <= streak_data st < 256) by (cbn; lia).
  assert (H5 : bit6_matches_today st) by reflexivity.
  destruct (debounced_press_toggles_today st 1051 1051 H1 H2 H3 H4 H5)
    as (Hd & Ht & _).
  split; [repeat split; solve [assumption | apply H4]|].
  split; [rewrite Hd; reflexivity | rewrite Ht; reflexivity].
Defined.

(** X6: while the level has not been stable for more than 50 ms, a call
    changes nothing but the debounce bookkeeping; in particular a level
    change is never acted on in the call that first sees it when the two
    clock readings of that call are at most 50 ms apart. *)
Theorem bouncing_level_changes_nothing (st : state) (reading : bool) (t1 t2 : Z) :
  reading <> last_button_state st ->
  u32 (u32 t2 - u32 t1) <= DEBOUNCE_DELAY ->
  handle_button reading t1 t2 st
  = set_last_button_state reading (set_last_debounce_time (u32 t1) st).
Proof.
  intros Hedge Hdeb. unfold handle_button.
  destruct (Bool.eqb reading (last_button_state st)) eqn:He;
    [apply Bool.eqb_prop in He; contradiction|].
  cbn [negb]. button_fields.
  destruct (Z.ltb_spec DEBOUNCE_DELAY (u32 (u32 t2 - u32 t1))); [lia|].
  reflexivity.
Qed.

Lemma bouncing_level_changes_nothing_witness :
  let st := boot ∅ in
  (false <> last_button_state st /\ u32 (u32 500 - u32 500) <= DEBOUNCE_DELAY) /\
  streak_data (handle_button false 500 500 st) = 0 /\
  effects (handle_button false 500 500 st) = [].
Proof.
  intros st.
  assert (H1 : false <> last_button_state st) by discriminate.
  assert (H2 : u32 (u32 500 - u32 500) <= DEBOUNCE_DELAY)
    by (vm_compute; discriminate).
  split; [split; assumption|].
  rewrite (bouncing_level_changes_nothing st false 500 500 H1 H2).
  split; reflexivity.
Defined.
End ButtonTheorems.

(** ** Day rollover over ticks, syncs and restarts *)

Section RolloverLifecycle.
Import Machine Streak Spec Reset.

(** X7: [k >= 1] shifts remove exactly the [k] oldest days: bit [i] of
    the mapping afterwards is bit [i + k] of the mapping before as long
    as that is a day bit (at most 6), and clear otherwise. *)
Theorem shifts_remove_oldest_days (st : state) (k : nat) (i : Z) :
  0 <= streak_data st < 256 ->
  (1 <= k)%nat ->
  0 <= i ->
  Z.testbit (streak_data (Nat.iter k shift_streak st)) i
  = (i + Z.of_nat k <=? 6) && Z.testbit (streak_data st) (i + Z.of_nat k).
Proof.
  intros Hv Hk Hi. destruct k as [|k]; [lia|].
  rewrite (shift_streak_iter st k Hv).
  rewrite Z.div_pow2_bits by lia.
  change 128 with (2 ^ 7).
  destruct (Z.leb_spec (i + Z.of_nat (S k)) 6) as [Hle|Hgt]; cbn [andb].
  - apply Z.mod_pow2_bits_low. lia.
  - apply Z.mod_pow2_bits_high. lia.
Qed.

Lemma shifts_remove_oldest_days_witness :
  let st := set_streak_data 100 (boot ∅) in
  (0 <= streak_data st < 256 /\ (1 <= 2)%nat /\ 0 <= 3) /\
  Z.testbit (streak_data (Nat.iter 2 shift_streak st)) 3
  = Z.testbit (streak_data st) 5.
Proof.
  intros st.
  assert (H1 : 0 <= streak_data st < 256) by (cbn; lia).
  assert (H2 : (1 <= 2)%nat) by lia.
  assert (H3 : 0 <= 3) by lia.
  split; [repeat split; solve [assumption | apply H1]|].
  rewrite (shifts_remove_oldest_days st 2 3 H1 H2 H3). reflexivity.
Defined.

(** X8: a sync that finds no earlier day on flash, or finds today's,
    shifts nothing and writes nothing: it only takes note of the day. *)
Theorem sync_ntp_without_gap (st : state) (yday : Z) :
  Nvs.lookup (nvs st) "streak" "lastDay" = None \/
  Nvs.lookup (nvs st) "streak" "lastDay" = Some (Nvs.I32 yday) ->
  sync_ntp true yday st = set_last_day yday (set_ntp_synced true st).
Proof.
  intros Hday. unfold sync_ntp.
  cbn [ntp_synced set_ntp_synced nvs set_last_day last_day].
  unfold Nvs.open_readonly, Nvs.lookup in *.
  destruct (nvs st !! "streak") as [ns|]; [|reflexivity].
  cbn [mbind option_bind] in Hday. unfold Nvs.get_i32.
  destruct Hday as [-> | ->].
  - reflexivity.
  - destruct (yday =? -1); cbn [negb andb]; [reflexivity|].
    rewrite Z.eqb_refl. reflexivity.
Qed.

Lemma sync_ntp_without_gap_witness :
  let st := set_streak_data 65 (boot ∅) in
  (Nvs.lookup (nvs st) "streak" "lastDay" = None \/
   Nvs.lookup (nvs st) "streak" "lastDay" = Some (Nvs.I32 120)) /\
  streak_data (sync_ntp true 120 st) = 65 /\
  last_day (sync_ntp true 120 st) = 120 /\
  nvs (sync_ntp true 120 st) = ∅.
Proof.
  intros st.
  assert (H : Nvs.lookup (nvs st) "streak" "lastDay" = None \/
              Nvs.lookup (nvs st) "streak" "lastDay" = Some (Nvs.I32 120))
    by (left; reflexivity).
  split; [exact H|].
  rewrite (sync_ntp_without_gap st 120 H). repeat split.
Defined.

Lemma check_midnight_rollover_same_day st :
  check_midnight_rollover (last_day st) st = st.
Proof.
  unfold check_midnight_rollover.
  destruct (negb (ntp_synced st)); [reflexivity|].
  destruct (last_day st =? -1) eqn:H; [reflexivity|].
  rewrite Z.eqb_refl. reflexivity.
Qed.

(** X9: once the check has shifted for a new day, further ticks on that
    day change nothing: a day change is counted once, however many ticks
    see it. *)
Theorem ticks_within_a_day_shift_once (st : state) (day : Z) (n : nat) :
  ntp_synced st = true ->
  day <> -1 ->
  last_day st <> -1 ->
  day <> last_day st ->
  ticks (repeat day (S n)) st = check_midnight_rollover day st /\
  shift_count (effects (ticks (repeat day (S n)) st))
  = S (shift_count (effects st)).
Proof.
  intros Hsync Hday Hknown Hdiff.
  assert (Hfirst : check_midnight_rollover day st
                   = set_last_day day
                       (save_streak (shift_streak (emit LogMidnight st)))).
  { unfold check_midnight_rollover. rewrite Hsync. cbn [negb].
    destruct (Z.eqb_spec day (-1)) as [|_]; [contradiction|].
    destruct (Z.eqb_spec (last_day st) (-1)) as [|_]; [contradiction|].
    destruct (Z.eqb_spec day (last_day st)) as [|_]; [contradiction|].
    reflexivity. }
  assert (Hrest : forall m s, last_day s = day -> ticks (repeat day m) s = s).
  { induction m as [|m IH]; intros s Hs; [reflexivity|].
    change (ticks (repeat day (S m)) s)
      with (ticks (repeat day m) (check_midnight_rollover day s)).
    rewrite <- Hs at 2. rewrite check_midnight_rollover_same_day.
    apply IH, Hs. }
  assert (Hticks : ticks (repeat day (S n)) st = check_midnight_rollover day st).
  { change (ticks (repeat day (S n)) st)
      with (ticks (repeat day n) (check_midnight_rollover day st)).
    apply Hrest. rewrite Hfirst. reflexivity. }
  split; [exact Hticks|]. rewrite Hticks, Hfirst. reflexivity.
Qed.

Lemma ticks_within_a_day_shift_once_witness :
  let st := set_ntp_synced true (set_last_day 10 (set_streak_data 64 (boot ∅))) in
  (ntp_synced st = true /\ 11 <> -1 /\ last_day st <> -1 /\ 11 <> last_day st) /\
  streak_data (ticks (repeat 11 5) st) = 32 /\
  shift_count (effects (ticks (repeat 11 5) st)) = 1%nat.
Proof.
  intros st.
  assert (H1 : ntp_synced st = true) by reflexivity.
  assert (H2 : 11 <> -1) by discriminate.
  assert (H3 : last_day st <> -1) by discriminate.
  assert (H4 : 11 <> last_day st) by discriminate.
  destruct (ticks_within_a_day_shift_once st 11 4 H1 H2 H3 H4) as [He Hc].
  split; [repeat split; assumption|].
  split; [rewrite He; reflexivity | exact Hc].
Defined.

(** X10: the rollover tick writes the mapping it has shifted together
    with the day before (the day is assigned after the save), so a
    restart later that day, with no button press in between, finds a day
    gap on flash and shifts the mapping again: one midnight costs
    [1 + min(daysElapsed, 7)] shifts. *)
Theorem rollover_then_restart_shifts_again (st : state) (day : Z) :
  ntp_synced st = true ->
  0 <= last_day st <= 365 ->
  0 <= day <= 365 ->
  day <> last_day st ->
  let d := days_elapsed day (last_day st) in
  let st1 := check_midnight_rollover day st in
  let st2 := sync_ntp true day (restart (nvs st1)) in
  streak_data st1 = streak_data (shift_streak st) /\
  shift_count (effects st2) = Z.to_nat (Z.min d 7) /\
  streak_data st2
  = streak_data (Nat.iter (S (Z.to_nat (Z.min d 7))) shift_streak st).
Proof.
  intros Hsync Hlast Hday Hdiff d st1 st2.
  assert (Hst1 : st1 = set_last_day day
                         (save_streak (shift_streak (emit LogMidnight st)))).
  { subst st1. unfold check_midnight_rollover. rewrite Hsync. cbn [negb].
    destruct (Z.eqb_spec day (-1)) as [|_]; [lia|].
    destruct (Z.eqb_spec (last_day st) (-1)) as [|_]; [lia|].
    destruct (Z.eqb_spec day (last_day st)) as [|_]; [contradiction|].
    reflexivity. }
  assert (Hdata1 : streak_data st1 = streak_data (shift_streak st))
    by (rewrite Hst1; reflexivity).
  assert (Hsaved : Nvs.lookup (nvs st1) "streak" "lastDay"
                   = Some (Nvs.I32 (last_day st))).
  { subst st1. apply check_midnight_rollover_saves_old_day; try assumption; lia. }
  assert (Hstored : Nvs.lookup (nvs st1) "streak" "data"
                    = Some (Nvs.U8 (streak_data (shift_streak st)))).
  { rewrite Hst1. cbn [nvs set_last_day].
    rewrite save_streak_lookup, decide_True by done. reflexivity. }
  destruct (restart_fields (nvs st1)) as (Rd & _ & _ & Rn & _).
  assert (Hns : exists ns, nvs st1 !! "streak" = Some ns).
  { rewrite Hst1. cbn [nvs set_last_day]. apply save_streak_namespace. }
  destruct Hns as [ns Hns].
  destruct (load_streak_reads (boot (nvs st1)) ns Hns) as [Ld _].
  cbn [nvs boot] in Ld. rewrite Hstored in Ld.
  rewrite u8_small in Ld by apply shift_streak_range.
  assert (Hunfold : st2 = save_streak
                      (Nat.iter (Z.to_nat (Z.min d 7)) shift_streak
                         (emit (LogDaysSince d)
                            (set_last_day day
                               (set_ntp_synced true (restart (nvs st1))))))).
  { subst st2 d. apply sync_ntp_unfold; [rewrite Rn; exact Hsaved|lia|lia]. }
  split; [exact Hdata1|]. split.
  - rewrite Hunfold. unfold save_streak. cbn [effects set_nvs].
    rewrite iter_shift_effects.
    unfold restart, load_streak, Nvs.open_readonly. cbn [nvs boot].
    rewrite Hns. cbn. lia.
  - rewrite Hunfold. unfold save_streak. cbn [streak_data set_nvs].
    rewrite Nat.iter_succ_r. apply iter_shift_data_ext.
    cbn [streak_data emit set_last_day set_ntp_synced].
    rewrite Rd, Ld. reflexivity.
Qed.

(** Today marked on day 10, midnight seen by the running device, power
    cycled on day 11: the mark sits two days back. *)
Lemma rollover_then_restart_shifts_again_witness :
  let st := set_ntp_synced true
              (set_last_day 10 (set_today_state true (set_streak_data 64 (boot ∅)))) in
  (ntp_synced st = true /\ 0 <= last_day st <= 365 /\ 0 <= 11 <= 365 /\
   11 <> last_day st) /\
  streak_data (check_midnight_rollover 11 st) = 32 /\
  streak_data (sync_ntp true 11 (restart (nvs (check_midnight_rollover 11 st))))
  = 16.
Proof.
  intros st.
  assert (H1 : ntp_synced st = true) by reflexivity.
  assert (H2 : 0 <= last_day st <= 365) by (cbn; lia).
  assert (H3 : 0 <= 11 <= 365) by lia.
  assert (H4 : 11 <> last_day st) by discriminate.
  destruct (rollover_then_restart_shifts_again st 11 H1 H2 H3 H4)
    as (Ha & _ & Hb).
  split; [repeat split; solve [assumption | apply H2 | lia]|].
  split; [rewrite Ha; reflexivity | rewrite Hb; reflexivity].
Defined.
End RolloverLifecycle.

(** ** WiFi events: retries and signal bits *)

Section EventTheorems.
Import CStr Portal Spec Props.

Lemma wifi_event_handler_retry ev st :
  0 <= s_retry_num st <= WIFI_MAXIMUM_RETRY ->
  0 <= s_retry_num (wifi_event_handler ev st) <= WIFI_MAXIMUM_RETRY.
Proof.
  intros H. unfold WIFI_MAXIMUM_RETRY in *.
  destruct st as [r g d c f cs]. cbn [s_retry_num] in H.
  destruct ev; unfold wifi_event_handler, WIFI_MAXIMUM_RETRY;
    cbn [s_retry_num do_call set_retry].
  - exact H.
  - destruct (Z.ltb_spec r 5); cbn [s_retry_num do_call set_retry]; [lia|].
    destruct g; cbn; lia.
  - destruct g; cbn; lia.
Qed.

(** X11: the retry counter never leaves 0..5, whatever events arrive
    and whether they are handled during a delay or during a wait. *)
Theorem retry_counter_stays_bounded (evs : list wifi_event) (st : state) :
  0 <= s_retry_num st <= WIFI_MAXIMUM_RETRY ->
  0 <= s_retry_num (deliver evs st) <= WIFI_MAXIMUM_RETRY /\
  0 <= s_retry_num (wait_bits evs st) <= WIFI_MAXIMUM_RETRY.
Proof.
  revert st. induction evs as [|e evs IH]; intros st H.
  - cbn [deliver fold_left wait_bits]. destruct (any_bit st); split; exact H.
  - pose proof (wifi_event_handler_retry e st H) as H'.
    destruct (IH _ H') as [Hd Hw]. split.
    + exact Hd.
    + cbn [wait_bits]. destruct (any_bit st); [exact H|exact Hw].
Qed.

Lemma retry_counter_stays_bounded_witness :
  let st := mkState 4 (Some (mkBits false false)) false "" ∅ [] in
  let evs := [WIFI_EVENT_STA_DISCONNECTED; WIFI_EVENT_STA_DISCONNECTED;
              WIFI_EVENT_STA_DISCONNECTED] in
  0 <= s_retry_num st <= WIFI_MAXIMUM_RETRY /\
  0 <= s_retry_num (deliver evs st) <= WIFI_MAXIMUM_RETRY /\
  fail_up (deliver evs st) = true.
Proof.
  intros st evs.
  assert (H : 0 <= s_retry_num st <= WIFI_MAXIMUM_RETRY)
    by (vm_compute; split; discriminate).
  destruct (retry_counter_stays_bounded evs st H) as [Hd _].
  split; [exact H|]. split; [exact Hd|reflexivity].
Defined.

Lemma deliver_app evs1 evs2 st :
  deliver (evs1 ++ evs2) st = deliver evs2 (deliver evs1 st).
Proof. unfold deliver. apply fold_left_app. Qed.

(** [n] disconnects in a row, counted from a cleared retry counter. *)
Lemma disconnects_within_budget (n : nat) : forall st,
  (n <= 5)%nat ->
  s_retry_num st = 0 ->
  let st' := deliver (repeat WIFI_EVENT_STA_DISCONNECTED n) st in
  s_retry_num st' = Z.of_nat n /\
  event_connects st' = (n + event_connects st)%nat /\
  s_wifi_event_group st' = s_wifi_event_group st.
Proof.
  induction n as [|n IH]; intros st Hn H0; [repeat split; assumption|].
  replace (S n) with (n + 1)%nat by lia.
  rewrite repeat_app. cbn zeta. rewrite deliver_app.
  destruct (IH st ltac:(lia) H0) as (Hr & Hc & Hg).
  set (s := deliver (repeat WIFI_EVENT_STA_DISCONNECTED n) st) in *.
  cbn [repeat deliver fold_left wifi_event_handler].
  unfold WIFI_MAXIMUM_RETRY. rewrite Hr.
  destruct (Z.ltb_spec (Z.of_nat n) 5); [|lia].
  destruct s as [r g d c f cs]. cbn in *. subst r.
  repeat split; try lia. exact Hg.
Qed.

(** Disconnects that find the retry counter spent. *)
Lemma disconnects_beyond_budget (k : nat) : forall s0 b0,
  s_retry_num s0 = 5 ->
  s_wifi_event_group s0 = Some b0 ->
  let s1 := deliver (repeat WIFI_EVENT_STA_DISCONNECTED k) s0 in
  s_retry_num s1 = 5 /\ event_connects s1 = event_connects s0 /\
  fail_up s1 = (fail_bit b0 || (0 <? k)%nat) /\
  connected s1 = connected_bit b0.
Proof.
  induction k as [|k IHk]; intros s0 b0 H5 Hb.
  - cbn. unfold fail_up, connected. rewrite Hb, orb_false_r.
    repeat split; assumption.
  - assert (Hstep : wifi_event_handler WIFI_EVENT_STA_DISCONNECTED s0
                    = set_fail s0).
    { unfold wifi_event_handler. rewrite H5. reflexivity. }
    assert (Hg : s_wifi_event_group (set_fail s0)
                 = Some (mkBits (connected_bit b0) true)).
    { unfold set_fail. rewrite Hb. reflexivity. }
    assert (Hr : s_retry_num (set_fail s0) = 5).
    { unfold set_fail. rewrite Hb. exact H5. }
    assert (Hc : event_connects (set_fail s0) = event_connects s0).
    { unfold set_fail. rewrite Hb. reflexivity. }
    destruct (IHk (set_fail s0) _ Hr Hg) as (A & B & C & D).
    cbn zeta in *.
    change (deliver (repeat WIFI_EVENT_STA_DISCONNECTED (S k)) s0)
      with (deliver (repeat WIFI_EVENT_STA_DISCONNECTED k)
              (wifi_event_handler WIFI_EVENT_STA_DISCONNECTED s0)).
    rewrite Hstep, A, B, C, D, Hc. cbn [fail_bit connected_bit].
    rewrite orb_true_r. repeat split.
Qed.

(** X12: counted from a cleared retry counter, the event handler answers
    each of the first five disconnects with one reconnect attempt and
    leaves the signal bits alone; every further disconnect raises the
    fail bit and reconnects no more. *)
Theorem disconnects_exhaust_retries (n : nat) (st : state) (bits : event_bits) :
  s_retry_num st = 0 ->
  s_wifi_event_group st = Some bits ->
  let st' := deliver (repeat WIFI_EVENT_STA_DISCONNECTED n) st in
  s_retry_num st' = Z.of_nat (Nat.min n 5) /\
  event_connects st' = (Nat.min n 5 + event_connects st)%nat /\
  fail_up st' = (fail_bit bits || (5 <? n)%nat) /\
  connected st' = connected_bit bits.
Proof.
  intros H0 Hg.
  destruct (Nat.le_gt_cases n 5) as [Hle|Hgt].
  - destruct (disconnects_within_budget n st Hle H0) as (Hr & Hc & Hg').
    cbn zeta. rewrite Nat.min_l by exact Hle.
    unfold fail_up, connected. rewrite Hg', Hg.
    destruct (Nat.ltb_spec 5 n); [lia|].
    rewrite orb_false_r. repeat split; assumption.
  - replace n with (5 + (n - 5))%nat by lia.
    generalize (n - 5)%nat as m. intros m.
    rewrite repeat_app. cbn zeta. rewrite deliver_app.
    destruct (disconnects_within_budget 5 st ltac:(lia) H0) as (Hr & Hc & Hg').
    set (s := deliver (repeat WIFI_EVENT_STA_DISCONNECTED 5) st) in *.
    rewrite Hg in Hg'. rewrite Nat.min_r by lia.
    clearbody s. clear H0 Hg.
    destruct (disconnects_beyond_budget m s bits Hr Hg') as (A & B & C & D).
    cbn zeta in *.
    rewrite A, B, C, D, Hc.
    destruct m as [|m].
    + destruct (Nat.ltb_spec 5 (5 + 0)); [lia|]. repeat split.
    + destruct (Nat.ltb_spec 5 (5 + S m)); [|lia]. repeat split.
Qed.

Lemma disconnects_exhaust_retries_witness :
  let st := mkState 0 (Some (mkBits false false)) false "" ∅ [] in
  (s_retry_num st = 0 /\ s_wifi_event_group st = Some (mkBits false false)) /\
  event_connects (deliver (repeat WIFI_EVENT_STA_DISCONNECTED 9) st) = 5%nat /\
  fail_up (deliver (repeat WIFI_EVENT_STA_DISCONNECTED 9) st) = true /\
  fail_up (deliver (repeat WIFI_EVENT_STA_DISCONNECTED 5) st) = false.
Proof.
  intros st.
  assert (H1 : s_retry_num st = 0) by reflexivity.
  assert (H2 : s_wifi_event_group st = Some (mkBits false false)) by reflexivity.
  destruct (disconnects_exhaust_retries 9 st _ H1 H2) as (_ & Hc & Hf & _).
  destruct (disconnects_exhaust_retries 5 st _ H1 H2) as (_ & _ & Hf5 & _).
  split; [split; assumption|].
  split; [exact Hc|]. split; [exact Hf | exact Hf5].
Defined.

Lemma wifi_event_handler_keeps_bits ev st :
  (connected st = true -> connected (wifi_event_handler ev st) = true) /\
  (fail_up st = true -> fail_up (wifi_event_handler ev st) = true).
Proof.
  destruct st as [r g d c f cs]. unfold connected, fail_up.
  destruct ev; cbn.
  - split; auto.
  - destruct (r <? WIFI_MAXIMUM_RETRY); cbn; [split; auto|].
    destruct g as [[cb fb]|]; cbn; split; auto.
  - destruct g as [[cb fb]|]; cbn; split; auto.
Qed.

(** X13: events only ever raise the signal bits.  A connected bit that
    is up stays up through any later events, disconnects included, until
    the connect handler clears it. *)
Theorem events_never_lower_a_bit (evs : list wifi_event) (st : state) :
  Bool.le (connected st) (connected (deliver evs st)) /\
  Bool.le (fail_up st) (fail_up (deliver evs st)).
Proof.
  revert st. induction evs as [|e evs IH]; intros st.
  - cbn [deliver fold_left]. split; [destruct (connected st)|destruct (fail_up st)];
      exact I || reflexivity.
  - destruct (wifi_event_handler_keeps_bits e st) as [Hc Hf].
    destruct (IH (wifi_event_handler e st)) as [Hc' Hf'].
    change (deliver (e :: evs) st) with (deliver evs (wifi_event_handler e st)).
    split.
    + destruct (connected st); [|exact I].
      rewrite Hc in Hc' by reflexivity. exact Hc'.
    + destruct (fail_up st); [|exact I].
      rewrite Hf in Hf' by reflexivity. exact Hf'.
Qed.
End EventTheorems.

(** ** The portal's field scan *)

Section ParseTheorems.
Import CStr Portal Spec Props.
Local Open Scope string_scope.
Local Arguments ascii_dec : simpl never.

Lemma append_assoc_string (a b c : string) : (a ++ b) ++ c = a ++ (b ++ c).
Proof.
  induction a as [|x a IH]; [reflexivity|].
  change (String x ((a ++ b) ++ c) = String x (a ++ (b ++ c))).
  rewrite IH. reflexivity.
Qed.

Lemma has_char_append c (a b : string) :
  has_char c (a ++ b) = has_char c a || has_char c b.
Proof.
  induction a as [|x a IH]; [reflexivity|].
  change (Ascii.eqb x c || has_char c (a ++ b)
          = Ascii.eqb x c || has_char c a || has_char c b).
  rewrite IH. apply orb_assoc.
Qed.

Lemma c_str_plain (s : string) : has_char NUL s = false -> c_str s = s.
Proof.
  induction s as [|x s IH]; intros H; [reflexivity|].
  cbn [has_char] in H. apply orb_false_iff in H. destruct H as [Hx Hs].
  cbn [c_str]. rewrite Hx, IH by exact Hs. reflexivity.
Qed.

Lemma prefix_append_self (k r : string) : String.prefix k (k ++ r) = true.
Proof.
  induction k as [|x k IH]; [destruct r; reflexivity|].
  simpl.
  destruct (ascii_dec x x) as [_|Hne]; [exact IH|contradiction].
Qed.

Lemma drop_append_self (k r : string) : drop (String.length k) (k ++ r) = r.
Proof. induction k as [|x k IH]; [reflexivity|exact IH]. Qed.

Lemma strstr_found (k r : string) : strstr (k ++ r) k = Some (k ++ r).
Proof.
  destruct (k ++ r) as [|x s] eqn:E; cbn [strstr];
    rewrite <- E, prefix_append_self; reflexivity.
Qed.

(** A key that starts with [d] is not found before the first [d]. *)
Lemma strstr_skip d (k s t : string) :
  has_char d s = false ->
  strstr (s ++ t) (String d k) = strstr t (String d k).
Proof.
  induction s as [|x s IH]; intros H; [reflexivity|].
  cbn [has_char] in H. apply orb_false_iff in H. destruct H as [Hx Hs].
  simpl.
  destruct (ascii_dec d x) as [->|_].
  - rewrite Ascii.eqb_refl in Hx. discriminate.
  - apply IH, Hs.
Qed.

Lemma strchr_first c (s r : string) :
  has_char c s = false ->
  strchr (s ++ String c r) c = Some (String.length s).
Proof.
  induction s as [|x s IH]; intros H.
  - simpl. rewrite Ascii.eqb_refl. reflexivity.
  - cbn [has_char] in H. apply orb_false_iff in H. destruct H as [Hx Hs].
    simpl. rewrite Hx, IH by exact Hs.
    reflexivity.
Qed.

Lemma substring_append_self (s r : string) :
  String.substring 0 (String.length s) (s ++ r) = s.
Proof.
  induction s as [|x s IH].
  - destruct r; reflexivity.
  - simpl. rewrite IH. reflexivity.
Qed.

(** Two quote-free runs, each followed by a double quote and then by
    different characters: the first is no prefix of the second. *)
Lemma prefix_stops_at_quote (p s r1 r2 : string) (c1 c2 : ascii) :
  has_char DQUOTE p = false ->
  has_char DQUOTE s = false ->
  c1 <> c2 ->
  String.prefix (p ++ String DQUOTE (String c1 r1))
                (s ++ String DQUOTE (String c2 r2)) = false.
Proof.
  revert s. induction p as [|x p IH]; intros s Hp Hs Hc.
  - destruct s as [|y s].
    + simpl.
      destruct (ascii_dec DQUOTE DQUOTE) as [_|]; [|contradiction].
      destruct (ascii_dec c1 c2); [contradiction|reflexivity].
    + cbn [has_char] in Hs. apply orb_false_iff in Hs. destruct Hs as [Hy _].
      simpl.
      destruct (ascii_dec DQUOTE y) as [<-|]; [|reflexivity].
      rewrite Ascii.eqb_refl in Hy. discriminate.
  - cbn [has_char] in Hp. apply orb_false_iff in Hp. destruct Hp as [Hx Hp].
    destruct s as [|y s].
    + simpl.
      destruct (ascii_dec x DQUOTE) as [->|]; [|reflexivity].
      rewrite Ascii.eqb_refl in Hx. discriminate.
    + cbn [has_char] in Hs. apply orb_false_iff in Hs. destruct Hs as [_ Hs].
      simpl.
      destruct (ascii_dec x y); [|reflexivity].
      apply IH; assumption.
Qed.

Lemma connect_request_layout (ssid password : string) :
  connect_request ssid password
  = "{" ++ ssid_key ++ ssid ++ String DQUOTE
        ("," ++ password_key ++ password ++ String DQUOTE "}").
Proof.
  unfold connect_request, quoted, ssid_key, password_key, dq.
  simpl. rewrite !append_assoc_string. reflexivity.
Qed.

Lemma strstr_skip_to (d : ascii) (k key s t : string) :
  key = String d k ->
  has_char d s = false ->
  strstr (s ++ t) key = strstr t key.
Proof. intros ->. apply strstr_skip. Qed.

(** A quote at which the key does not start is passed over. *)
Lemma strstr_pass_quote (k t : string) :
  String.prefix k t = false ->
  strstr (String DQUOTE t) (String DQUOTE k) = strstr t (String DQUOTE k).
Proof.
  intros H. simpl.
  destruct (ascii_dec DQUOTE DQUOTE) as [_|]; [|contradiction].
  rewrite H. reflexivity.
Qed.

Lemma prefix_head_differs (a b : ascii) (k s : string) :
  Ascii.eqb a b = false -> String.prefix (String a k) (String b s) = false.
Proof.
  intros H. simpl. destruct (ascii_dec a b) as [->|]; [|reflexivity].
  rewrite Ascii.eqb_refl in H. discriminate.
Qed.

Lemma scan_field_at (key value rest : string) (cap : nat) :
  has_char DQUOTE value = false ->
  (String.length value < cap)%nat ->
  match strchr (drop (String.length key) (key ++ value ++ String DQUOTE rest))
               DQUOTE with
  | Some len =>
      if (len <? cap)%nat
      then String.substring 0 len
             (drop (String.length key) (key ++ value ++ String DQUOTE rest))
      else EmptyString
  | None => EmptyString
  end = value.
Proof.
  intros Hq Hlen. rewrite drop_append_self, strchr_first by exact Hq.
  destruct (Nat.ltb_spec (String.length value) cap); [|lia].
  apply substring_append_self.
Qed.

Lemma length_connect_request (ssid password : string) :
  String.length (connect_request ssid password)
  = (25 + String.length ssid + String.length password)%nat.
Proof.
  rewrite connect_request_layout.
  rewrite !string_length_append. simpl. rewrite !string_length_append.
  simpl. lia.
Qed.

Lemma connect_request_plain (ssid password : string) :
  plain ssid -> plain password ->
  c_str (connect_request ssid password) = connect_request ssid password.
Proof.
  intros [_ Hs] [_ Hp]. apply c_str_plain.
  rewrite connect_request_layout.
  rewrite !has_char_append. simpl. rewrite !has_char_append. simpl.
  rewrite Hs, Hp. reflexivity.
Qed.

Lemma parse_ssid_of_request (ssid password : string) :
  plain ssid -> plain password ->
  (String.length ssid <= 32)%nat ->
  parse_ssid (connect_request ssid password) = ssid.
Proof.
  intros Hs Hp Hlen. unfold parse_ssid, scan_field.
  rewrite connect_request_plain, connect_request_layout by assumption.
  rewrite (strstr_skip_to DQUOTE _ ssid_key "{" _ eq_refl eq_refl).
  rewrite strstr_found.
  apply scan_field_at; [apply Hs|lia].
Qed.

Lemma parse_password_of_request (ssid password : string) :
  plain ssid -> plain password ->
  (String.length password <= 64)%nat ->
  parse_password (connect_request ssid password) = password.
Proof.
  intros Hs Hp Hlen. unfold parse_password, scan_field.
  rewrite connect_request_plain, connect_request_layout by assumption.
  set (tail := password_key ++ password ++ String DQUOTE "}").
  change ("{" ++ ssid_key ++ ssid ++ String DQUOTE ("," ++ tail))
    with ("{" ++ String DQUOTE
            ("ssid" ++ String DQUOTE
               (":" ++ String DQUOTE
                  (ssid ++ String DQUOTE ("," ++ tail))))).
  change password_key
    with (String DQUOTE ("password" ++ String DQUOTE (String ":" dq))) at 1 2.
  rewrite (strstr_skip DQUOTE _ "{") by reflexivity.
  rewrite strstr_pass_quote by (apply prefix_head_differs; reflexivity).
  rewrite (strstr_skip DQUOTE _ "ssid") by reflexivity.
  rewrite strstr_pass_quote by (apply prefix_head_differs; reflexivity).
  rewrite (strstr_skip DQUOTE _ ":") by reflexivity.
  rewrite strstr_pass_quote
    by (apply (prefix_stops_at_quote "password" ssid);
        [reflexivity|apply Hs|discriminate]).
  rewrite (strstr_skip DQUOTE _ ssid) by apply Hs.
  rewrite strstr_pass_quote by (apply prefix_head_differs; reflexivity).
  rewrite (strstr_skip DQUOTE _ ",") by reflexivity.
  change (String DQUOTE ("password" ++ String DQUOTE (String ":" dq)))
    with password_key.
  subst tail. rewrite strstr_found.
  apply scan_field_at; [apply Hp|lia].
Qed.

Lemma portal_request_parses_back_aux (ssid password : string) :
  plain ssid ->
  plain password ->
  (String.length ssid <= 32)%nat ->
  (String.length password <= 64)%nat ->
  parse_ssid (String.substring 0 255 (connect_request ssid password)) = ssid /\
  parse_password (String.substring 0 255 (connect_request ssid password))
  = password.
Proof.
  intros Hs Hp Hls Hlp.
  rewrite substring_all by (rewrite length_connect_request; lia).
  split; [apply parse_ssid_of_request|apply parse_password_of_request];
    assumption.
Qed.

(** X14: the field scan recovers what the portal page posts: for an SSID
    of at most 32 and a password of at most 64 characters, neither with
    a double quote or a NUL in it, the handler's scan of the request as
    received yields exactly that SSID and that password. *)
Theorem portal_request_parses_back (ssid password : string) :
  plain ssid ->
  plain password ->
  (String.length ssid <= 32)%nat ->
  (String.length password <= 64)%nat ->
  let content := String.substring 0 255 (connect_request ssid password) in
  parse_ssid content = ssid /\ parse_password content = password.
Proof.
  intros Hs Hp Hls Hlp content. subst content.
  apply portal_request_parses_back_aux; assumption.
Qed.

Lemma portal_request_parses_back_witness :
  (plain "Cafe Wifi" /\ plain "p@ss:w0rd,{}" /\
   (String.length "Cafe Wifi" <= 32)%nat /\
   (String.length "p@ss:w0rd,{}" <= 64)%nat) /\
  parse_ssid (String.substring 0 255 (connect_request "Cafe Wifi" "p@ss:w0rd,{}"))
  = "Cafe Wifi" /\
  parse_password (String.substring 0 255 (connect_request "Cafe Wifi" "p@ss:w0rd,{}"))
  = "p@ss:w0rd,{}".
Proof.
  assert (H1 : plain "Cafe Wifi") by (split; reflexivity).
  assert (H2 : plain "p@ss:w0rd,{}") by (split; reflexivity).
  assert (H3 : (String.length "Cafe Wifi" <= 32)%nat) by (simpl; lia).
  assert (H4 : (String.length "p@ss:w0rd,{}" <= 64)%nat) by (simpl; lia).
  split; [repeat split; assumption|].
  exact (portal_request_parses_back _ _ H1 H2 H3 H4).
Defined.

Lemma parse_ssid_too_long (ssid password : string) :
  plain ssid -> plain password ->
  (33 <= String.length ssid)%nat ->
  parse_ssid (connect_request ssid password) = EmptyString.
Proof.
  intros Hs Hp Hlen. unfold parse_ssid, scan_field.
  rewrite connect_request_plain, connect_request_layout by assumption.
  rewrite (strstr_skip_to DQUOTE _ ssid_key "{" _ eq_refl eq_refl).
  rewrite strstr_found.
  rewrite drop_append_self, strchr_first by apply Hs.
  destruct (Nat.ltb_spec (String.length ssid) 33); [lia|reflexivity].
Qed.

(** X15: an SSID of 33 or more characters is not cut to size but
    dropped: the field scan yields the empty string and the handler
    answers as if no SSID had been sent, touching nothing. *)
Theorem oversize_ssid_is_dropped (env : connect_env) (st : state)
        (ssid password : string) :
  request_body env = Some (connect_request ssid password) ->
  plain ssid ->
  plain password ->
  (33 <= String.length ssid)%nat ->
  (String.length (connect_request ssid password) <= 255)%nat ->
  http_connect_handler env st = (Json no_ssid_reply, st).
Proof.
  intros Hbody Hs Hp Hlen Hfit.
  unfold http_connect_handler. rewrite Hbody. cbn [httpd_req_recv].
  rewrite substring_all by exact Hfit.
  rewrite length_connect_request in *.
  destruct (Z.leb_spec (Z.of_nat (25 + String.length ssid + String.length password)) 0);
    [lia|].
  rewrite parse_ssid_too_long by assumption. reflexivity.
Qed.

Lemma oversize_ssid_is_dropped_witness :
  let ssid := "0123456789abcdef0123456789abcdefX" in
  let env := mkEnv (Some (connect_request ssid "secret123")) [] true
                   [IP_EVENT_STA_GOT_IP] in
  let st := mkState 0 (Some (mkBits false false)) false "4PDZ66BAAA" ∅ [] in
  (plain ssid /\ plain "secret123" /\ (33 <= String.length ssid)%nat /\
   (String.length (connect_request ssid "secret123") <= 255)%nat) /\
  http_connect_handler env st = (Json no_ssid_reply, st).
Proof.
  intros ssid env st.
  assert (H1 : plain ssid) by (split; reflexivity).
  assert (H2 : plain "secret123") by (split; reflexivity).
  assert (H3 : (33 <= String.length ssid)%nat) by (vm_compute; lia).
  assert (H4 : (String.length (connect_request ssid "secret123") <= 255)%nat)
    by (vm_compute; lia).
  split; [repeat split; assumption|].
  exact (oversize_ssid_is_dropped env st ssid "secret123" eq_refl H1 H2 H3 H4).
Defined.

Lemma length_substring_le (s : string) : forall n,
  (String.length (String.substring 0 n s) <= n)%nat.
Proof.
  induction s as [|x s IH]; intros n.
  - destruct n; simpl; lia.
  - destruct n as [|n]; simpl; [lia|]. specialize (IH n). lia.
Qed.

Lemma length_scan_field (content key : string) (cap : nat) :
  (0 < cap)%nat -> (String.length (scan_field content key cap) < cap)%nat.
Proof.
  intros Hcap. unfold scan_field.
  destruct (strstr content key) as [start|]; [|simpl; lia].
  destruct (strchr _ DQUOTE) as [len|]; [|simpl; lia].
  destruct (Nat.ltb_spec len cap); [|simpl; lia].
  pose proof (length_substring_le (drop (String.length key) start) len). lia.
Qed.

Lemma saved_credentials_after_save (ssid password : string) (st : state) :
  (0 < String.length ssid < 33)%nat ->
  (String.length password < 65)%nat ->
  Station.saved_credentials (nvs (save_wifi_credentials ssid password st))
  = Some (ssid, password).
Proof.
  intros Hs Hp.
  unfold Station.saved_credentials, save_wifi_credentials, Nvs.open_readonly,
    Nvs.close_readwrite, Nvs.set_str.
  cbn [nvs set_nvs]. rewrite lookup_insert_eq.
  unfold Station.get_str.
  rewrite lookup_insert_ne by discriminate. rewrite !lookup_insert_eq.
  destruct (Nat.ltb_spec (String.length ssid) 33); [|lia].
  destruct (Nat.eqb_spec (String.length ssid) 0); [lia|].
  destruct (Nat.ltb_spec (String.length password) 65); [|lia].
  reflexivity.
Qed.

(** X16: whatever a connect request does, the handler either leaves the
    flash as it was or has stored the scanned SSID and password in a
    form that the next start reads back in full (the SSID non-empty and
    both within the sizes of the start-up buffers). *)
Theorem stored_credentials_are_read_back (env : connect_env) (st : state) :
  let st' := snd (http_connect_handler env st) in
  nvs st' = nvs st \/
  exists body,
    request_body env = Some body /\
    Station.saved_credentials (nvs st')
    = Some (parse_ssid (String.substring 0 255 body),
            parse_password (String.substring 0 255 body)).
Proof.
  intros st'. subst st'. unfold http_connect_handler.
  destruct (request_body env) as [body|] eqn:Hbody; cbn [httpd_req_recv];
    [|left; reflexivity].
  set (content := String.substring 0 255 body).
  destruct (Z.of_nat (String.length content) <=? 0)%Z; [left; reflexivity|].
  assert (Hls : (String.length (parse_ssid content) < 33)%nat)
    by (apply length_scan_field; lia).
  assert (Hlp : (String.length (parse_password content) < 65)%nat)
    by (apply length_scan_field; lia).
  set (ssid := parse_ssid content) in *.
  set (password := parse_password content) in *.
  destruct (String.length ssid =? 0)%nat eqn:Hlen; [left; reflexivity|].
  pose proof (armed_state env (station_config ssid password) st) as Harmed.
  cbv zeta in Harmed. destruct Harmed as (A1 & _).
  set (st4 := do_call HttpTask (esp_wifi_set_config _) _) in *.
  destruct (config_accepted env); cbn [negb]; [|left; exact A1].
  set (st6 := do_call HttpTask (xEventGroupWaitBits 15000) _) in *.
  destruct (wait_bits_frame (during_wait env) st6) as (W1 & _).
  destruct (s_wifi_event_group st6); [|left; exact A1].
  destruct (s_wifi_event_group (wait_bits (during_wait env) st6)) as [bits|];
    [|left; cbn [snd]; rewrite W1; exact A1].
  destruct (connected_bit bits); cbn [snd]; [|left; rewrite W1; exact A1].
  right. exists body. split; [reflexivity|].
  cbn [nvs set_done]. apply saved_credentials_after_save.
  - apply Nat.eqb_neq in Hlen.
    change (0 < String.length ssid < 33)%nat. lia.
  - exact Hlp.
Qed.

(** X17: the start-up path and the connect handler hand the driver the
    same station configuration exactly when a password is set.  For an
    open network the handler asks for threshold OPEN, the start-up path
    for WPA2-PSK. *)
Theorem station_configs_agree_iff_password (ssid password : string) :
  (station_config ssid password = Station.saved_station_config ssid password
   <-> password <> EmptyString) /\
  sta_threshold (station_config ssid EmptyString) = WIFI_AUTH_OPEN /\
  sta_threshold (Station.saved_station_config ssid EmptyString)
  = WIFI_AUTH_WPA2_PSK.
Proof.
  split; [|split; reflexivity].
  unfold station_config, Station.saved_station_config.
  destruct password as [|c password]; simpl; split.
  - discriminate.
  - congruence.
  - discriminate.
  - reflexivity.
Qed.

(** X18: an SSID of exactly 32 characters passes the field scan whole
    (and is what gets stored), yet the station configuration built from
    it, by the handler and at start-up alike, carries only its first 31
    characters. *)
Theorem ssid_of_32_characters_is_cut (ssid password : string) :
  plain ssid ->
  plain password ->
  String.length ssid = 32%nat ->
  (String.length password <= 64)%nat ->
  parse_ssid (String.substring 0 255 (connect_request ssid password)) = ssid /\
  String.length (sta_ssid (station_config ssid password)) = 31%nat /\
  sta_ssid (station_config ssid password) <> ssid /\
  sta_ssid (Station.saved_station_config ssid password)
  = sta_ssid (station_config ssid password).
Proof.
  intros Hs Hp Hlen Hlp.
  destruct (portal_request_parses_back_aux ssid password Hs Hp) as [H1 _];
    [lia|lia|].
  assert (H31 : String.length (String.substring 0 31 ssid) = 31%nat).
  { clear -Hlen. do 32 (destruct ssid as [|? ssid]; [discriminate|]).
    reflexivity. }
  assert (Hcfg : sta_ssid (station_config ssid password)
                 = String.substring 0 31 ssid).
  { unfold station_config. destruct (0 <? String.length password)%nat;
      reflexivity. }
  split; [exact H1|]. rewrite Hcfg. split; [exact H31|]. split.
  - intros Heq. rewrite Heq in H31. lia.
  - reflexivity.
Qed.

Lemma ssid_of_32_characters_is_cut_witness :
  let ssid := "0123456789abcdef0123456789abcdef" in
  (plain ssid /\ plain "secret123" /\ String.length ssid = 32%nat /\
   (String.length "secret123" <= 64)%nat) /\
  parse_ssid (String.substring 0 255 (connect_request ssid "secret123")) = ssid /\
  sta_ssid (station_config ssid "secret123")
  = "0123456789abcdef0123456789abcde".
Proof.
  intros ssid.
  assert (H1 : plain ssid) by (split; reflexivity).
  assert (H2 : plain "secret123") by (split; reflexivity).
  assert (H3 : String.length ssid = 32%nat) by reflexivity.
  assert (H4 : (String.length "secret123" <= 64)%nat) by (simpl; lia).
  destruct (ssid_of_32_characters_is_cut ssid "secret123" H1 H2 H3 H4)
    as (Hp & _).
  split; [repeat split; assumption|]. split; [exact Hp|reflexivity].
Defined.
End ParseTheorems.

(** ** The scan reply *)

Section ScanReplyTheorems.
Import CStr Portal Spec Props.
Local Open Scope string_scope.

Lemma append_nil_r_string (s : string) : s ++ "" = s.
Proof.
  induction s as [|x s IH]; [reflexivity|].
  change (String x (s ++ "") = String x s). rewrite IH. reflexivity.
Qed.

Lemma length_entry_of r :
  String.length (entry_of r)
  = (27 + String.length (ap_ssid r) + String.length (fmt_d (ap_rssi r))
     + String.length (fmt_d (ap_authmode r)))%nat.
Proof.
  unfold entry_of, network_entry, quoted, dq.
  rewrite !string_length_append. simpl. lia.
Qed.

(** The loop over the records, as long as the text fits the buffer. *)
Lemma scan_entries_text (records : list ap_record) :
  forall (response : string) (offset : Z) (started : bool),
  offset = Z.of_nat (String.length response) ->
  (13 <= offset)%Z ->
  (15 <? offset)%Z = started ->
  let text := entries_text started
                (List.filter (fun r => negb (String.length (ap_ssid r) =? 0)%nat)
                             records) in
  (String.length response + String.length text <= 2047)%nat ->
  scan_entries records response offset
  = Some (response ++ text,
          (offset + Z.of_nat (String.length text))%Z).
Proof.
  induction records as [|r records IH];
    intros response offset started Hoff H13 Hstart text Hfit.
  - subst text. simpl. rewrite append_nil_r_string, Z.add_0_r. reflexivity.
  - cbn [scan_entries]. subst text. cbn [List.filter] in *.
    destruct (String.length (ap_ssid r) =? 0)%nat eqn:Hempty; cbn [negb] in *.
    + apply IH; assumption.
    + cbn [entries_text] in *.
      set (comma := if started then "," else "") in *.
      rewrite Hstart. fold comma.
      change (comma ++ "{" ++ quoted "ssid" ++ ":" ++ quoted (ap_ssid r)
                ++ "," ++ quoted "rssi" ++ ":" ++ fmt_d (ap_rssi r)
                ++ "," ++ quoted "auth" ++ ":" ++ fmt_d (ap_authmode r) ++ "}")
        with (comma ++ entry_of r).
      rewrite !string_length_append in Hfit.
      pose proof (length_entry_of r) as Hentry.
      destruct (Z.ltb_spec (2048 - offset) 0) as [|_]; [lia|].
      destruct (Z.eqb_spec (2048 - offset) 0) as [|_]; [lia|].
      unfold snprintf.
      rewrite substring_all by (rewrite string_length_append; lia).
      rewrite (IH (response ++ comma ++ entry_of r) _ true).
      * rewrite !append_assoc_string, !string_length_append.
        f_equal. f_equal. lia.
      * rewrite !string_length_append. lia.
      * rewrite string_length_append. lia.
      * apply Z.ltb_lt. rewrite string_length_append. lia.
      * rewrite !string_length_append. lia.
Qed.

Lemma take_min_length {A} (l : list A) (n : nat) :
  firstn (Nat.min (length l) n) l = firstn n l.
Proof.
  destruct (Nat.le_ge_cases (length l) n) as [H|H].
  - rewrite Nat.min_l by exact H. rewrite !take_ge by lia. reflexivity.
  - rewrite Nat.min_r by exact H. reflexivity.
Qed.

Lemma http_scan_handler_when_it_fits (found : list ap_record) :
  (String.length (networks_reply (entries_text false (listed found))) <= 2047)%nat ->
  http_scan_handler found true true
  = ScanJson (networks_reply (entries_text false (listed found))).
Proof.
  intros Hfit. unfold networks_reply in *.
  rewrite !string_length_append in Hfit.
  change (String.length networks_open) with 13%nat in Hfit.
  change (String.length "]}") with 2%nat in Hfit.
  unfold http_scan_handler. cbn [negb]. rewrite take_min_length.
  rewrite (scan_entries_text (firstn 20 found) networks_open _ false);
    [|reflexivity|reflexivity|reflexivity|fold (listed found);
      change (String.length networks_open) with 13%nat; lia].
  fold (listed found).
  destruct (Nat.ltb_spec 2048
              (String.length (networks_open ++ entries_text false (listed found)) + 3));
    [rewrite string_length_append in *;
     change (String.length networks_open) with 13%nat in *; lia|].
  rewrite append_assoc_string. reflexivity.
Qed.

(** Decimal text of an [int8_t] and of a two-digit number. *)
Lemma fmt_d_int8 z :
  (-128 <= z <= 127)%Z -> (String.length (fmt_d z) <= 4)%nat.
Proof.
  intros Hz.
  assert (Hall : forallb (fun k => String.length (fmt_d (Z.of_nat k - 128)) <=? 4)%nat
                         (seq 0 256) = true) by (vm_compute; reflexivity).
  rewrite forallb_forall in Hall.
  specialize (Hall (Z.to_nat (z + 128))).
  replace (Z.of_nat (Z.to_nat (z + 128)) - 128)%Z with z in Hall by lia.
  apply Nat.leb_le, Hall, in_seq. lia.
Qed.

Lemma fmt_d_two_digits z :
  (0 <= z <= 99)%Z -> (String.length (fmt_d z) <= 2)%nat.
Proof.
  intros Hz.
  assert (Hall : forallb (fun k => String.length (fmt_d (Z.of_nat k)) <=? 2)%nat
                         (seq 0 100) = true) by (vm_compute; reflexivity).
  rewrite forallb_forall in Hall.
  specialize (Hall (Z.to_nat z)).
  replace (Z.of_nat (Z.to_nat z)) with z in Hall by lia.
  apply Nat.leb_le, Hall, in_seq. lia.
Qed.

Lemma length_entries_text (records : list ap_record) : forall started,
  Forall record_in_range records ->
  (String.length (entries_text started records) <= 66 * length records)%nat.
Proof.
  induction records as [|r records IH]; intros started Hall; [simpl; lia|].
  inversion Hall as [|? ? (Hs & Hr & Ha) Hrest]; subst.
  cbn [entries_text length]. rewrite !string_length_append, length_entry_of.
  pose proof (fmt_d_int8 _ Hr). pose proof (fmt_d_two_digits _ Ha).
  specialize (IH true Hrest).
  assert (String.length (if started then "," else "") <= 1)%nat
    by (destruct started; simpl; lia).
  lia.
Qed.

Lemma listed_in_range (found : list ap_record) :
  Forall record_in_range found ->
  Forall record_in_range (listed found) /\ (length (listed found) <= 20)%nat.
Proof.
  intros Hall. unfold listed. split.
  - rewrite List.Forall_forall in *. intros r Hin.
    apply filter_In in Hin. destruct Hin as [Hin _].
    apply Hall. revert Hin. generalize 20%nat. clear.
    induction found as [|x found IH]; intros n Hin; destruct n; simpl in *;
      try contradiction.
    destruct Hin as [->|Hin]; [left; reflexivity|right; eapply IH, Hin].
  - pose proof (filter_length_le
                  (fun r => negb (String.length (ap_ssid r) =? 0)%nat)
                  (firstn 20 found)).
    pose proof (length_take found 20). lia.
Qed.

(** X19: for any scan result whose records are within the field sizes
    of the driver's record type (SSID of at most 32 characters, RSSI an
    8-bit value, authentication mode below 100), the reply is the
    [networks] array of the named records among the first twenty, in
    order, separated by single commas with none before the first or
    after the last; the 2048-byte buffer is never overrun. *)
Theorem http_scan_handler_lists_named_networks (found : list ap_record) :
  Forall record_in_range found ->
  http_scan_handler found true true
  = ScanJson (networks_reply (entries_text false (listed found))).
Proof.
  intros Hall. apply http_scan_handler_when_it_fits.
  destruct (listed_in_range found Hall) as [Hin Hlen].
  pose proof (length_entries_text (listed found) false Hin).
  unfold networks_reply. rewrite !string_length_append.
  change (String.length networks_open) with 13%nat.
  change (String.length "]}") with 2%nat. lia.
Qed.

Lemma http_scan_handler_lists_named_networks_witness :
  let found := [mkAp "Home" (-45) 3; mkAp "" (-30) 0; mkAp "Cafe" (-71) 0] in
  Forall record_in_range found /\
  http_scan_handler found true true
  = ScanJson (networks_reply
                (network_entry "Home" "-45" "3" ++ ","
                   ++ network_entry "Cafe" "-71" "0")).
Proof.
  intros found.
  assert (H : Forall record_in_range found).
  { repeat constructor; simpl; lia. }
  split; [exact H|].
  rewrite (http_scan_handler_lists_named_networks found H).
  vm_compute. reflexivity.
Defined.
End ScanReplyTheorems.

(** ** DNSRedirector: every reply, the buffer bound, the label walk *)

Section DnsReplyTheorems.
Import Machine Dns Spec.

Lemma put_bytes_outside b bs pos buffer :
  Z.of_nat (length buffer) <= pos ->
  put_bytes (b :: bs) pos buffer = None.
Proof.
  intros H. cbn [put_bytes]. unfold poke.
  destruct (Z.ltb_spec pos (Z.of_nat (length buffer))); [lia|].
  rewrite andb_false_r. reflexivity.
Qed.

Lemma Sent_inj (a b : list byte) : Sent a = Sent b -> a = b.
Proof. intros H. injection H as H. exact H. Qed.

Lemma put_answer_cases pos buffer :
  0 <= pos ->
  (pos + 16 <= Z.of_nat (length buffer) /\
   put_bytes answer pos buffer
   = Some (take (Z.to_nat pos) buffer ++ answer
             ++ drop (Z.to_nat pos + 16) buffer, pos + 16)) \/
  (Z.of_nat (length buffer) < pos + 16 /\ put_bytes answer pos buffer = None).
Proof.
  intros Hpos.
  destruct (Z.le_gt_cases (pos + 16) (Z.of_nat (length buffer))) as [Hfit|Hover].
  - left. split; [exact Hfit|].
    rewrite put_bytes_fits by (rewrite ?length_answer; lia).
    rewrite length_answer. reflexivity.
  - right. split; [lia|].
    destruct (Z.le_gt_cases pos (Z.of_nat (length buffer))) as [Hin|Hout].
    + apply put_bytes_overrun; rewrite ?length_answer; lia.
    + apply put_bytes_outside. lia.
Qed.

(** X20: a datagram of at least 12 bytes whose question, as the label
    walk finds it, ends beyond byte 496 makes the task store the answer
    past the end of its 512-byte buffer. *)
Theorem long_question_overruns_buffer (buffer dgram : list byte) :
  length buffer = 512%nat ->
  (12 <= length dgram)%nat ->
  496 < question_end (received buffer dgram) ->
  fst (serve buffer dgram) = Fault.
Proof.
  intros Hbuf Hlen Hlong.
  rewrite (serve_unfold buffer dgram Hbuf Hlen).
  set (query := received buffer dgram) in *.
  set (b1 := stamped (query ++ drop (length query) buffer)).
  assert (Hb1 : length b1 = 512%nat).
  { subst b1. rewrite length_stamped, length_app, length_drop.
    subst query. rewrite length_received. lia. }
  pose proof (question_end_ge query) as Hge.
  destruct (put_answer_cases (question_end query) b1 ltac:(lia))
    as [[Hfit _]|[_ Hnone]]; [lia|].
  rewrite Hnone. reflexivity.
Qed.

(** Eight labels of 63 bytes behind the header. *)
Lemma long_question_overruns_buffer_witness :
  let buffer := repeat x00 512 in
  let label := x3f :: repeat x61 63 in
  let dgram := repeat x00 12 ++ concat (repeat label 8) in
  (length buffer = 512%nat /\ (12 <= length dgram)%nat /\
   496 < question_end (received buffer dgram)) /\
  fst (serve buffer dgram) = Fault.
Proof.
  intros buffer label dgram.
  assert (H1 : length buffer = 512%nat) by reflexivity.
  assert (H2 : (12 <= length dgram)%nat) by (vm_compute; lia).
  assert (H3 : 496 < question_end (received buffer dgram))
    by (vm_compute; reflexivity).
  split; [repeat split; assumption|].
  exact (long_question_overruns_buffer buffer dgram H1 H2 H3).
Defined.

(** X21: whatever the datagram, a reply that is sent answers a datagram
    of at least 12 bytes, repeats its transaction ID and its question
    count, name-server count and additional-record count, carries the
    response flags 0x81 0x80 and an answer count of 1, and ends with the
    A record 16 bytes behind the place where the label walk ended: the
    reply is cut off right behind the answer, so nothing that followed
    the question in the query is returned, whatever the echoed counts
    say. *)
Theorem every_reply_sent_is_stamped (buffer dgram response : list byte) :
  length buffer = 512%nat ->
  fst (serve buffer dgram) = Sent response ->
  (12 <= length dgram)%nat /\
  take 2 response = take 2 dgram /\
  take 2 (drop 2 response) = [x81; x80] /\
  take 2 (drop 4 response) = take 2 (drop 4 dgram) /\
  take 2 (drop 6 response) = [x00; x01] /\
  take 4 (drop 8 response) = take 4 (drop 8 dgram) /\
  Z.of_nat (length response) = question_end (received buffer dgram) + 16 /\
  drop (length response - 16) response = a_record 60 portal_address.
Proof.
  intros Hbuf Hsent.
  assert (Hlen : (12 <= length dgram)%nat).
  { destruct (Nat.le_gt_cases 12 (length dgram)) as [H|H]; [exact H|].
    exfalso. unfold serve in Hsent. rewrite recvfrom_received in Hsent.
    assert (Hn : length (received buffer dgram) = length dgram)
      by (rewrite length_received; lia).
    destruct (Z.ltb_spec (Z.of_nat (length (received buffer dgram))) 12);
      [discriminate Hsent|lia]. }
  split; [exact Hlen|].
  rewrite (serve_unfold buffer dgram Hbuf Hlen) in Hsent.
  set (query := received buffer dgram) in *.
  assert (Hn : length query = Nat.min (length dgram) 512)
    by (subst query; rewrite length_received, Hbuf; reflexivity).
  set (b0 := query ++ drop (length query) buffer) in *.
  assert (Hb0 : length b0 = 512%nat).
  { subst b0. rewrite length_app, length_drop. lia. }
  pose proof (question_end_ge query) as Hge.
  destruct (put_answer_cases (question_end query) (stamped b0) ltac:(lia))
    as [[Hfit Hput]|[_ Hnone]];
    [|rewrite Hnone in Hsent; discriminate Hsent].
  rewrite length_stamped, Hb0 in Hfit.
  rewrite Hput in Hsent. cbn [fst] in Hsent. apply Sent_inj in Hsent.
  rename Hsent into Hresp.
  set (qe := Z.to_nat (question_end query)) in *.
  assert (Hqe : (17 <= qe <= 496)%nat) by (subst qe; lia).
  assert (Hlt : length (take qe (stamped b0)) = qe).
  { rewrite length_take, length_stamped, Hb0. lia. }
  assert (Hr : response = take qe (stamped b0) ++ answer).
  { rewrite <- Hresp, app_assoc. apply take_app_length'.
    rewrite length_app, Hlt, length_answer. subst qe. lia. }
  assert (Hq : forall i, (i < 12)%nat -> b0 !! i = dgram !! i).
  { intros i Hi. subst b0. rewrite lookup_app_l by lia.
    subst query. unfold received. apply lookup_take_lt. lia. }
  assert (Hhead : take 12 response = take 12 (stamped b0)).
  { rewrite Hr, take_app_le by lia. rewrite take_take.
    f_equal. lia. }
  assert (Hb12 : take 12 b0 = take 12 dgram).
  { subst b0. rewrite take_app_le by lia. subst query. unfold received.
    rewrite take_take. f_equal. lia. }
  assert (Hd12 : (12 <= length dgram)%nat) by exact Hlen.
  assert (Hshape : exists d0 d1 d2 d3 d4 d5 d6 d7 d8 d9 d10 d11,
             take 12 dgram = [d0; d1; d2; d3; d4; d5; d6; d7; d8; d9; d10; d11]).
  { clear -Hd12. do 12 (destruct dgram as [|? dgram]; [cbn in Hd12; lia|]).
    repeat eexists. }
  destruct Hshape as (d0 & d1 & d2 & d3 & d4 & d5 & d6 & d7 & d8 & d9 & d10
                      & d11 & Hshape).
  assert (Hst : take 12 (stamped b0)
                = [d0; d1; x81; x80; d4; d5; x00; x01; d8; d9; d10; d11]).
  { unfold stamped. rewrite !take_insert_lt by lia. rewrite Hb12, Hshape.
    reflexivity. }
  assert (H12 : forall n m, (m + n <= 12)%nat ->
            take n (drop m response) = take n (drop m (take 12 response))).
  { intros n m Hnm. rewrite !take_drop_commute, take_take.
    replace (Nat.min (m + n) 12) with (m + n)%nat by lia. reflexivity. }
  assert (D12 : forall n m, (m + n <= 12)%nat ->
            take n (drop m dgram) = take n (drop m (take 12 dgram))).
  { intros n m Hnm. rewrite !take_drop_commute, take_take.
    replace (Nat.min (m + n) 12) with (m + n)%nat by lia. reflexivity. }
  replace (take 2 response) with (take 2 (take 12 response))
    by (rewrite take_take; reflexivity).
  replace (take 2 dgram) with (take 2 (take 12 dgram))
    by (rewrite take_take; reflexivity).
  rewrite (H12 2 2)%nat, (H12 2 4)%nat, (H12 2 6)%nat, (H12 4 8)%nat by lia.
  rewrite (D12 2 4)%nat, (D12 4 8)%nat by lia.
  rewrite Hhead, Hst, Hshape.
  repeat (split; [reflexivity|]).
  split.
  - rewrite Hr, length_app, Hlt, length_answer. subst qe. lia.
  - rewrite Hr, length_app, Hlt, length_answer.
    replace (qe + 16 - 16)%nat with qe by lia.
    rewrite drop_app_length' by (symmetry; exact Hlt). apply answer_is_a_record.
Qed.

(** A query with an EDNS record behind the question: the reply echoes
    the additional count of 1 and stops after the answer. *)
Lemma every_reply_sent_is_stamped_witness :
  let buffer := repeat x00 512 in
  let dgram := [x12; x34; x01; x00; x00; x01; x00; x00; x00; x00; x00; x01;
                x01; x61; x02; x69; x6f; x00; x00; x01; x00; x01;
                x00; x00; x29; x10; x00; x00; x00; x00; x00; x00; x00] in
  let response := [x12; x34; x81; x80; x00; x01; x00; x01; x00; x00; x00; x01;
                   x01; x61; x02; x69; x6f; x00; x00; x01; x00; x01;
                   xc0; x0c; x00; x01; x00; x01; x00; x00; x00; x3c;
                   x00; x04; xc0; xa8; x04; x01] in
  (length buffer = 512%nat /\ fst (serve buffer dgram) = Sent response) /\
  take 4 (drop 8 response) = take 4 (drop 8 dgram) /\
  Z.of_nat (length response) = question_end (received buffer dgram) + 16.
Proof.
  intros buffer dgram response.
  assert (H1 : length buffer = 512%nat) by reflexivity.
  assert (H2 : fst (serve buffer dgram) = Sent response)
    by (vm_compute; reflexivity).
  destruct (every_reply_sent_is_stamped buffer dgram response H1 H2)
    as (_ & _ & _ & _ & _ & Hc & Hl & _).
  split; [split; assumption|]. split; [exact Hc | exact Hl].
Defined.

End DnsReplyTheorems.

(** ** Claim code, device identity and signature text *)

Section IdentityTheorems.
Import Machine Claim Spec Identity Hmac Props.

Lemma mix_bytes_range bytes : forall i hash,
  0 <= hash < 2 ^ 32 -> 0 <= mix_bytes bytes i hash < 2 ^ 32.
Proof.
  induction bytes as [|b rest IH]; intros i hash H; cbn [mix_bytes].
  - exact H.
  - apply IH. unfold u32. apply Z.mod_pos_bound. lia.
Qed.

Lemma mac_hash_range m : 0 <= mac_hash m < 2 ^ 32.
Proof.
  unfold mac_hash, mac_bytes.
  generalize (hash_digits (mac_str m) 0). intros hash.
  cbn [mix_bytes]. unfold u32 at 1. apply Z.mod_pos_bound. lia.
Qed.

Lemma chars_NoDup : NoDup chars.
Proof. apply (bool_decide_unpack _). vm_compute. exact I. Qed.

Lemma chars_digit_inj a b :
  0 <= a < 32 -> 0 <= b < 32 ->
  nth (Z.to_nat a) chars NUL = nth (Z.to_nat b) chars NUL -> a = b.
Proof.
  intros Ha Hb Heq.
  assert (Hn : Z.to_nat a = Z.to_nat b).
  { apply (proj1 (List.NoDup_nth chars NUL)); try exact Heq.
    - apply NoDup_ListNoDup, chars_NoDup.
    - change (length chars) with 32%nat. lia.
    - change (length chars) with 32%nat. lia. }
  lia.
Qed.

Lemma code_digits_inj n : forall h h',
  code_digits n h = code_digits n h' ->
  h mod 32 ^ Z.of_nat n = h' mod 32 ^ Z.of_nat n.
Proof.
  induction n as [|n IH]; intros h h' Heq.
  - cbn. rewrite !Z.mod_1_r. reflexivity.
  - cbn [code_digits] in Heq. injection Heq as Hd Hrest.
    apply chars_digit_inj in Hd; try (apply Z.mod_pos_bound; lia).
    apply IH in Hrest.
    rewrite Nat2Z.inj_succ, Z.pow_succ_r by lia.
    rewrite !Z.rem_mul_r by lia.
    rewrite Hd, Hrest. reflexivity.
Qed.

Lemma code_digits_small n : forall h,
  h = 0 -> code_digits n h = repeat "A"%char n.
Proof.
  induction n as [|n IH]; intros h ->; [reflexivity|].
  cbn [code_digits repeat]. f_equal. apply IH. reflexivity.
Qed.

Lemma code_digits_app n k : forall h,
  code_digits (n + k) h
  = code_digits n h ++ code_digits k (h / 32 ^ Z.of_nat n).
Proof.
  induction n as [|n IH]; intros h.
  - cbn [Nat.add code_digits app]. rewrite Z.pow_0_r, Z.div_1_r. reflexivity.
  - cbn [Nat.add code_digits app]. rewrite IH. f_equal. f_equal. f_equal.
    rewrite Nat2Z.inj_succ, Z.pow_succ_r by lia.
    rewrite Z.div_div by lia. reflexivity.
Qed.

(** X22: a claim code carries the 32 bits of the MAC hash and nothing
    more: its last three characters are always AAA, its seventh is one of
    A, B, C, D, and two devices get the same code exactly when their MAC
    hashes agree. *)
Theorem claim_code_carries_the_hash (m m' : mac_addr) (buf : list ascii) :
  length buf = 12%nat ->
  drop 7 (claim_code m buf) = list_ascii_of_string "AAA" /\
  In (nth 6 (claim_code m buf) NUL) (list_ascii_of_string "ABCD") /\
  (claim_code m buf = claim_code m' buf <-> mac_hash m = mac_hash m').
Proof.
  intros Hlen. rewrite !claim_code_digits by exact Hlen.
  pose proof (mac_hash_range m) as Hm. pose proof (mac_hash_range m') as Hm'.
  generalize dependent (mac_hash m'). generalize dependent (mac_hash m).
  intros h Hh h' Hh'.
  split; [|split].
  - change 10%nat with (7 + 3)%nat. rewrite code_digits_app.
    rewrite drop_app_length' by (rewrite length_code_digits; reflexivity).
    apply code_digits_small. apply Z.div_small.
    change (32 ^ Z.of_nat 7) with (2 ^ 35). lia.
  - change 10%nat with (6 + 4)%nat. rewrite code_digits_app.
    rewrite app_nth2 by (rewrite length_code_digits; lia).
    rewrite length_code_digits. change (6 - 6)%nat with 0%nat.
    cbn [code_digits nth].
    change (32 ^ Z.of_nat 6) with (2 ^ 30).
    assert (Hq : 0 <= h / 2 ^ 30 < 4).
    { split; [apply Z.div_pos; lia|]. apply Z.div_lt_upper_bound; lia. }
    rewrite Z.mod_small by lia.
    assert (Hc : h / 2 ^ 30 = 0 \/ h / 2 ^ 30 = 1 \/ h / 2 ^ 30 = 2
                 \/ h / 2 ^ 30 = 3) by lia.
    destruct Hc as [-> | [-> | [-> | ->]]]; cbn; tauto.
  - split; [|intros ->; reflexivity].
    intros Heq. apply code_digits_inj in Heq.
    change (32 ^ Z.of_nat 10) with (2 ^ 50) in Heq.
    rewrite !Z.mod_small in Heq by lia. exact Heq.
Qed.

Lemma claim_code_carries_the_hash_witness :
  let m := mkMac xaa xbb xcc xdd xee xff in
  let buf := repeat NUL 12 in
  length buf = 12%nat /\
  drop 7 (claim_code m buf) = list_ascii_of_string "AAA" /\
  In (nth 6 (claim_code m buf) NUL) (list_ascii_of_string "ABCD").
Proof.
  intros m buf.
  assert (H : length buf = 12%nat) by reflexivity.
  destruct (claim_code_carries_the_hash m m buf H) as (Ht & Hs & _).
  split; [exact H|]. split; [exact Ht | exact Hs].
Defined.

(** X23: claim codes are not unique per device: two addresses of one
    vendor block, a few numbers apart, get the same code. *)
Theorem claim_codes_collide :
  exists m m' : mac_addr,
    m <> m' /\
    (mac0 m, mac1 m, mac2 m) = (mac0 m', mac1 m', mac2 m') /\
    forall buf, length buf = 12%nat -> claim_code m buf = claim_code m' buf.
Proof.
  exists (mkMac x24 x0a xc4 x00 x02 x00), (mkMac x24 x0a xc4 x01 x00 x01).
  split; [discriminate|]. split; [reflexivity|].
  intros buf Hlen. rewrite !claim_code_digits by exact Hlen.
  f_equal.
Qed.

Lemma i32_small z : - 2 ^ 31 <= z < 2 ^ 31 -> i32 z = z.
Proof. intros H. unfold i32. rewrite Z.mod_small by lia. lia. Qed.

Lemma i32_large z : 2 ^ 31 <= z < 2 ^ 32 -> i32 z = z - 2 ^ 32.
Proof.
  intros H. unfold i32.
  replace (z + 2 ^ 31) with (z - 2 ^ 31 + 1 * 2 ^ 32) by lia.
  rewrite Z.mod_add by lia. rewrite Z.mod_small by lia. lia.
Qed.

Lemma fill_code_prefix fuel : forall (k : nat) hash code len (bound : nat),
  bound = Z.to_nat (Z.min 10 (i32 len - 1)) ->
  (k <= bound)%nat ->
  (bound - k <= fuel)%nat ->
  (bound <= length code)%nat ->
  fill_code fuel (Z.of_nat k) len hash code
  = take k code ++ code_digits (bound - k) hash ++ drop bound code.
Proof.
  induction fuel as [|fuel IH]; intros k hash code len bound Hb Hk Hfuel Hcode.
  - replace (bound - k)%nat with O by lia.
    replace k with bound by lia. cbn [fill_code code_digits app].
    symmetry. apply take_drop.
  - cbn [fill_code].
    destruct (Nat.eq_dec k bound) as [->|Hne].
    + replace ((Z.of_nat bound <? 10) && (Z.of_nat bound <? i32 len - 1))
        with false.
      * replace (bound - bound)%nat with O by lia. cbn [code_digits app].
        symmetry. apply take_drop.
      * symmetry. apply andb_false_iff.
        destruct (Z.ltb_spec (Z.of_nat bound) 10);
          destruct (Z.ltb_spec (Z.of_nat bound) (i32 len - 1)); auto; lia.
    + destruct (Z.ltb_spec (Z.of_nat k) 10) as [_|]; [|lia].
      destruct (Z.ltb_spec (Z.of_nat k) (i32 len - 1)) as [_|]; [|lia].
      cbn [andb].
      replace (Z.of_nat k + 1) with (Z.of_nat (S k)) by lia.
      rewrite (IH (S k) _ _ _ bound) by (rewrite ?length_insert; lia).
      rewrite Nat2Z.id.
      rewrite (take_S_r _ _ (nth (Z.to_nat (hash mod 32)) chars NUL))
        by (apply list_lookup_insert_eq; lia).
      rewrite take_insert_ge by lia.
      rewrite drop_insert_lt by lia.
      replace (bound - k)%nat with (S (bound - S k)) by lia.
      cbn [code_digits]. rewrite <- app_assoc. reflexivity.
Qed.

Lemma take_code_digits k n h :
  (k <= n)%nat -> take k (code_digits n h) = code_digits k h.
Proof.
  intros Hk. replace n with (k + (n - k))%nat by lia.
  rewrite code_digits_app.
  rewrite take_app_length' by (rewrite length_code_digits; reflexivity).
  reflexivity.
Qed.

(** X24: into a buffer of [len] bytes, [1 <= len < 2^31],
    [generate_claim_code] leaves a terminated string that is the full
    ten-character code cut to what fits beside the terminator, whatever
    the buffer held before.  For [2^31 < len < 2^32] the loop bound
    [(int)len - 1] is negative: no character of the code is written and
    the call only stores the terminator at index 10. *)
Theorem generate_claim_code_fits_buffer (m : mac_addr) (code : list ascii)
        (len : Z) :
  1 <= len < 2 ^ 32 ->
  length code = Z.to_nat len ->
  (len < 2 ^ 31 ->
   c_string (generate_claim_code m code len)
   = take (Z.to_nat (len - 1)) (code_digits 10 (mac_hash m))) /\
  (2 ^ 31 < len ->
   generate_claim_code m code len = <[10%nat := NUL]> code).
Proof.
  intros Hlen Hcode. unfold generate_claim_code.
  generalize (mac_hash m) as hash. intros hash.
  assert (Hu : u32 (len - 1) = len - 1) by (unfold u32; apply Z.mod_small; lia).
  rewrite Hu. split.
  - intros Hint.
    set (bound := Z.to_nat (Z.min 10 (len - 1))).
    assert (Hidx : Z.to_nat (if 10 <? len - 1 then 10 else len - 1) = bound).
    { subst bound. destruct (Z.ltb_spec 10 (len - 1)); f_equal; lia. }
    rewrite Hidx.
    rewrite (fill_code_prefix 10 0 _ _ _ bound)
      by (rewrite ?i32_small by lia; subst bound; lia).
    rewrite take_0. cbn [app]. rewrite Nat.sub_0_r.
    rewrite insert_app_r_alt by (rewrite length_code_digits; lia).
    rewrite length_code_digits, Nat.sub_diag.
    destruct (drop bound code) as [|c rest] eqn:Hdrop.
    + apply (f_equal length) in Hdrop. rewrite length_drop in Hdrop.
      cbn [length] in Hdrop. subst bound. lia.
    + cbn [insert list_insert].
      rewrite c_string_app_nul by apply code_digits_no_nul.
      destruct (Z.le_gt_cases 10 (len - 1)) as [Hbig|Hsmall].
      * replace bound with 10%nat by (subst bound; lia).
        rewrite take_ge by (rewrite length_code_digits; lia). reflexivity.
      * replace bound with (Z.to_nat (len - 1)) by (subst bound; lia).
        rewrite take_code_digits by lia. reflexivity.
  - intros Hneg.
    destruct (Z.ltb_spec 10 (len - 1)); [|lia].
    change (Z.to_nat 10) with 10%nat. f_equal.
    cbn [fill_code]. rewrite i32_large by lia.
    destruct (Z.ltb_spec 0 (len - 2 ^ 32 - 1)); [lia|].
    rewrite andb_false_r. reflexivity.
Qed.

(** A six-byte buffer keeps five characters of the code 4PDZ66BAAA. *)
Lemma generate_claim_code_fits_buffer_witness :
  let m := mkMac xaa xbb xcc xdd xee xff in
  let code := list_ascii_of_string "012345" in
  (1 <= 6 < 2 ^ 32 /\ length code = Z.to_nat 6) /\
  c_string (generate_claim_code m code 6) = list_ascii_of_string "4PDZ6".
Proof.
  intros m code.
  assert (H1 : 1 <= 6 < 2 ^ 32) by lia.
  assert (H2 : length code = Z.to_nat 6) by reflexivity.
  split; [split; assumption|].
  destruct (generate_claim_code_fits_buffer m code 6 H1 H2) as [Hfit _].
  rewrite Hfit by lia. vm_compute. reflexivity.
Defined.
End IdentityTheorems.

(** ** Hexadecimal text: the MAC string and the signature *)

Section HexTheorems.
Import Machine Claim Identity Hmac Props.

Lemma unhex_fmt_02X b : unhex hex_upper (fmt_02X b) = Some [b].
Proof. destruct b; vm_compute; reflexivity. Qed.

Lemma fmt_02X_inj a b : fmt_02X a = fmt_02X b -> a = b.
Proof.
  intros H. pose proof (unhex_fmt_02X a) as Ha. rewrite H, unhex_fmt_02X in Ha.
  congruence.
Qed.

Lemma fmt_02X_pair b : exists hi lo, fmt_02X b = [hi; lo].
Proof. unfold fmt_02X. eauto. Qed.

(** X25: into a buffer of 18 bytes or more, [get_mac_address] writes
    17 characters, and different MAC addresses give different strings. *)
Theorem get_mac_address_identifies_device (m m' : mac_addr) (len : nat) :
  (18 <= len)%nat ->
  length (get_mac_address m len) = 17%nat /\
  (get_mac_address m len = get_mac_address m' len -> m = m').
Proof.
  intros Hlen. unfold get_mac_address.
  assert (Hall : forall x, firstn (len - 1) (colon_separated (mac_bytes x))
                           = colon_separated (mac_bytes x)).
  { intros x. apply firstn_all2. destruct x as [a b c d e f].
    unfold mac_bytes. cbn [mac0 mac1 mac2 mac3 mac4 mac5 colon_separated].
    unfold fmt_02X. cbn [app length]. lia. }
  rewrite !Hall. destruct m as [a b c d e f], m' as [a' b' c' d' e' f'].
  unfold mac_bytes. cbn [mac0 mac1 mac2 mac3 mac4 mac5 colon_separated].
  split.
  - unfold fmt_02X. reflexivity.
  - intros Heq.
    destruct (fmt_02X_pair a) as (? & ? & Ea), (fmt_02X_pair b) as (? & ? & Eb),
      (fmt_02X_pair c) as (? & ? & Ec), (fmt_02X_pair d) as (? & ? & Ed),
      (fmt_02X_pair e) as (? & ? & Ee), (fmt_02X_pair f) as (? & ? & Ef),
      (fmt_02X_pair a') as (? & ? & Ea'), (fmt_02X_pair b') as (? & ? & Eb'),
      (fmt_02X_pair c') as (? & ? & Ec'), (fmt_02X_pair d') as (? & ? & Ed'),
      (fmt_02X_pair e') as (? & ? & Ee'), (fmt_02X_pair f') as (? & ? & Ef').
    rewrite Ea, Eb, Ec, Ed, Ee, Ef, Ea', Eb', Ec', Ed', Ee', Ef' in Heq.
    cbn [app] in Heq.
    injection Heq as -> -> -> -> -> -> -> -> -> -> -> ->.
    rewrite <- Ea' in Ea. rewrite <- Eb' in Eb. rewrite <- Ec' in Ec.
    rewrite <- Ed' in Ed. rewrite <- Ee' in Ee. rewrite <- Ef' in Ef.
    apply fmt_02X_inj in Ea, Eb, Ec, Ed, Ee, Ef. congruence.
Qed.

Lemma get_mac_address_identifies_device_witness :
  let m := mkMac x24 x0a xc4 x00 x02 x00 in
  (18 <= 18)%nat /\
  get_mac_address m 18 = list_ascii_of_string "24:0A:C4:00:02:00" /\
  length (get_mac_address m 18) = 17%nat.
Proof.
  intros m.
  assert (H : (18 <= 18)%nat) by lia.
  destruct (get_mac_address_identifies_device m m 18 H) as (Hl & _).
  split; [exact H|]. split; [reflexivity | exact Hl].
Defined.

Lemma flat_map_nth_seq {A B} (g : A -> list B) (d : A) (l : list A) :
  forall (pre : list A),
  flat_map (fun i => g (nth i (pre ++ l) d)) (seq (length pre) (length l))
  = flat_map g l.
Proof.
  induction l as [|x l IH]; intros pre; [reflexivity|].
  cbn [length seq flat_map].
  rewrite app_nth2 by lia. rewrite Nat.sub_diag. cbn [nth].
  f_equal.
  specialize (IH (pre ++ [x])).
  rewrite <- app_assoc in IH. cbn [app] in IH.
  rewrite length_app in IH. cbn [length] in IH.
  rewrite Nat.add_1_r in IH. exact IH.
Qed.

Lemma bytes_to_hex_whole bytes :
  bytes_to_hex bytes (length bytes) = flat_map hex_pair bytes.
Proof.
  unfold bytes_to_hex.
  exact (flat_map_nth_seq hex_pair x00 bytes []).
Qed.

Lemma flat_map_ext_seq {A B} (f g : A -> list B) (l : list A) :
  (forall x, In x l -> f x = g x) -> flat_map f l = flat_map g l.
Proof.
  induction l as [|x l IH]; intros H; [reflexivity|].
  cbn [flat_map]. rewrite (H x) by (left; reflexivity).
  rewrite IH by (intros y Hy; apply H; right; exact Hy). reflexivity.
Qed.

Lemma bytes_to_hex_take bytes len :
  (len <= length bytes)%nat ->
  bytes_to_hex bytes len = bytes_to_hex (take len bytes) len.
Proof.
  intros Hlen. unfold bytes_to_hex. apply flat_map_ext_seq.
  intros i Hi. apply in_seq in Hi.
  assert (Hn : nth i bytes x00 = nth i (take len bytes) x00).
  { rewrite <- (take_drop len bytes) at 1.
    apply app_nth1. rewrite length_take. lia. }
  cbv zeta. rewrite Hn. reflexivity.
Qed.

Lemma unhex_hex_pair b rest :
  unhex hex_chars (hex_pair b ++ rest) = (cons b) <$> unhex hex_chars rest.
Proof.
  destruct b; cbn [hex_pair app]; vm_compute (nth _ hex_chars NUL);
    cbn [unhex]; vm_compute (digit_index _ _);
    cbn [mbind option_bind]; vm_compute (Byte.of_N _); cbn [mbind option_bind];
    destruct (unhex hex_chars rest); reflexivity.
Qed.

Lemma unhex_flat_map bytes :
  unhex hex_chars (flat_map hex_pair bytes) = Some bytes.
Proof.
  induction bytes as [|b bytes IH]; [reflexivity|].
  cbn [flat_map]. rewrite unhex_hex_pair, IH. reflexivity.
Qed.

(** X26: [bytes_to_hex] loses nothing: reading its output back as pairs
    of hexadecimal digits gives the [len] bytes it was given, so two
    digests that differ give two signature texts that differ. *)
Theorem bytes_to_hex_round_trip (bytes : list byte) (len : nat) :
  (len <= length bytes)%nat ->
  unhex hex_chars (bytes_to_hex bytes len) = Some (take len bytes).
Proof.
  intros Hlen. rewrite bytes_to_hex_take by exact Hlen.
  assert (Hl : length (take len bytes) = len) by (rewrite length_take; lia).
  rewrite <- Hl at 2. rewrite bytes_to_hex_whole. apply unhex_flat_map.
Qed.

Lemma bytes_to_hex_round_trip_witness :
  let bytes := [x00; x0f; xa5; xff] in
  (3 <= length bytes)%nat /\
  bytes_to_hex bytes 3 = list_ascii_of_string "000fa5" /\
  unhex hex_chars (bytes_to_hex bytes 3) = Some [x00; x0f; xa5].
Proof.
  intros bytes.
  assert (H : (3 <= length bytes)%nat) by (cbn; lia).
  split; [exact H|]. split; [reflexivity|].
  exact (bytes_to_hex_round_trip bytes 3 H).
Defined.
End HexTheorems.

(** ** Provisioning animation and the timezone buffer *)

Section AnimationTheorems.
Import Machine Leds Timezone.

Lemma led_index_cases index :
  0 <= index ->
  let c := index mod 12 in
  0 <= c < 12 /\ led_index index = (if c <? 7 then c else 12 - c).
Proof.
  intros H c. split; [apply Z.mod_pos_bound; lia|].
  unfold led_index. rewrite Z.rem_mod_nonneg by lia. reflexivity.
Qed.

Lemma led_index_sweeps_aux index :
  0 <= index -> 0 <= led_index index /\ led_index index <= 6.
Proof.
  intros H. destruct (led_index_cases index H) as [Hc He]. cbv zeta in *.
  rewrite He. destruct (Z.ltb_spec (index mod 12) 7); lia.
Qed.

(** X27: from a counter that is not negative the animation runs up and
    down the row: the LED chosen is always one of the seven, the choice
    repeats every twelve steps, and each step moves to a neighbouring
    LED. *)
Theorem led_index_sweeps (index : Z) :
  0 <= index ->
  0 <= led_index index <= 6 /\
  led_index (index + 12) = led_index index /\
  Z.abs (led_index (index + 1) - led_index index) = 1.
Proof.
  intros H.
  destruct (led_index_cases index H) as [Hc He].
  destruct (led_index_cases (index + 12) ltac:(lia)) as [_ He12].
  destruct (led_index_cases (index + 1) ltac:(lia)) as [Hc1 He1].
  cbv zeta in *.
  replace ((index + 12) mod 12) with (index mod 12) in He12
    by (rewrite <- (Z.mod_add index 1 12) by lia; f_equal; lia).
  assert (Hs : (index + 1) mod 12
               = if index mod 12 =? 11 then 0 else index mod 12 + 1).
  { pose proof (Z.div_mod index 12 ltac:(lia)) as Hd.
    destruct (Z.eqb_spec (index mod 12) 11) as [E|E].
    - symmetry. apply (Z.mod_unique_pos _ _ (index / 12 + 1)); lia.
    - symmetry. apply (Z.mod_unique_pos _ _ (index / 12)); lia. }
  rewrite He12, He1, He, Hs. clear He12 He1 He Hs Hc1.
  set (c := index mod 12) in *.
  destruct (Z.eqb_spec c 11); destruct (Z.ltb_spec c 7);
    repeat match goal with |- context [?a <? ?b] =>
             destruct (Z.ltb_spec a b) end; lia.
Qed.

Lemma led_index_sweeps_witness :
  0 <= 18 /\ led_index 18 = 6 /\ led_index 19 = 5 /\ led_index 30 = 6.
Proof.
  assert (H : 0 <= 18) by lia.
  destruct (led_index_sweeps 18 H) as (_ & Hp & _).
  split; [exact H|]. split; [reflexivity|]. split; [reflexivity|].
  exact Hp.
Defined.

(** X28: [animate_leds] measures the interval on the wrapping
    millisecond counter: [elapsed] milliseconds after the last step,
    whatever the counter was then, a call does nothing before 100 ms
    have passed; from then on it lights exactly the LED of the current
    index and, while the index is below [INT_MAX], counts one step and
    records the time.  At [INT_MAX] the increment overflows the [int]. *)
Theorem animate_leds_steps_every_interval (a : anim) (elapsed : Z) :
  0 <= animation_index a <= INT_MAX ->
  0 <= last_animation_time a < 2 ^ 32 ->
  0 <= elapsed < 2 ^ 32 ->
  let now := u32 (last_animation_time a + elapsed) in
  let leds := Levels (<[Z.to_nat (led_index (animation_index a)) := true]>
                        (repeat false 7)) in
  animate_leds now a
  = if elapsed <? ANIMATION_INTERVAL then Stepped Unchanged a
    else if animation_index a <? INT_MAX
         then Stepped leds (mkAnim (animation_index a + 1) now)
         else Overflow leds.
Proof.
  intros Hidx Hlast Hel now leds. unfold animate_leds.
  assert (Hnow : u32 now = now).
  { subst now. unfold u32. apply Z.mod_mod. lia. }
  assert (Hdiff : u32 (u32 now - last_animation_time a) = elapsed).
  { rewrite Hnow. subst now. unfold u32.
    rewrite Zminus_mod_idemp_l.
    replace (last_animation_time a + elapsed - last_animation_time a)
      with elapsed by lia.
    apply Z.mod_small. lia. }
  rewrite Hdiff, Hnow.
  destruct (Z.leb_spec ANIMATION_INTERVAL elapsed) as [Hge|Hlt];
    destruct (Z.ltb_spec elapsed ANIMATION_INTERVAL) as [Hlt'|Hge'];
    try lia; [|reflexivity].
  destruct (led_index_sweeps_aux (animation_index a) ltac:(lia)) as [Hlo Hhi].
  destruct (Z.leb_spec 0 (led_index (animation_index a))); [|lia].
  destruct (Z.ltb_spec (led_index (animation_index a)) 7); [|lia].
  reflexivity.
Qed.

(** The millisecond counter wraps between the two calls; and a call
    with the index at [INT_MAX]. *)
Lemma animate_leds_steps_every_interval_witness :
  let a := mkAnim 8 4294967250 in
  let last := mkAnim INT_MAX 0 in
  (0 <= animation_index a <= INT_MAX /\
   0 <= last_animation_time a < 2 ^ 32 /\
   0 <= 150 < 2 ^ 32) /\
  animate_leds 104 a
  = Stepped (Levels [false; false; false; false; true; false; false])
            (mkAnim 9 104) /\
  animate_leds 100 last
  = Overflow (Levels [false; false; false; false; false; true; false]).
Proof.
  intros a last.
  assert (H1 : 0 <= animation_index a <= INT_MAX) by (vm_compute; split; discriminate).
  assert (H2 : 0 <= last_animation_time a < 2 ^ 32) by (cbn; lia).
  assert (H3 : 0 <= 150 < 2 ^ 32) by lia.
  split; [repeat split; solve [apply H1 | apply H2 | apply H3]|].
  split.
  - exact (animate_leds_steps_every_interval a 150 H1 H2 H3).
  - assert (L1 : 0 <= animation_index last <= INT_MAX)
      by (vm_compute; split; discriminate).
    assert (L2 : 0 <= last_animation_time last < 2 ^ 32) by (cbn; lia).
    assert (L3 : 0 <= 100 < 2 ^ 32) by lia.
    exact (animate_leds_steps_every_interval last 100 L1 L2 L3).
Defined.

Lemma length_on_data held chunk :
  (String.length held <= 126)%nat ->
  (String.length (on_data held chunk) <= 126)%nat.
Proof.
  intros H. unfold on_data, BUFFER_SIZE.
  destruct (Nat.ltb_spec (String.length held + String.length chunk) (128 - 1));
    [|exact H].
  rewrite string_length_append. lia.
Qed.

Lemma collect_from held chunks :
  (String.length held <= 126)%nat ->
  (String.length (fold_left on_data chunks held) <= 126)%nat.
Proof.
  revert held. induction chunks as [|c chunks IH]; intros held H; cbn [fold_left].
  - exact H.
  - apply IH, length_on_data, H.
Qed.

Lemma collect_all held chunks :
  (String.length held + String.length (String.concat "" chunks) < 127)%nat ->
  fold_left on_data chunks held = (held ++ String.concat "" chunks)%string.
Proof.
  revert held. induction chunks as [|c chunks IH]; intros held H.
  - cbn [fold_left String.concat]. rewrite append_nil_r_string. reflexivity.
  - cbn [fold_left].
    assert (Hc : String.concat "" (c :: chunks)
                 = (c ++ String.concat "" chunks)%string).
    { destruct chunks as [|c' chunks']; cbn [String.concat].
      - rewrite append_nil_r_string. reflexivity.
      - reflexivity. }
    rewrite Hc in *. rewrite string_length_append in H.
    unfold on_data at 2, BUFFER_SIZE.
    destruct (Nat.ltb_spec (String.length held + String.length c) (128 - 1));
      [|lia].
    rewrite IH by (rewrite string_length_append; lia).
    apply append_assoc_string.
Qed.

(** X29: the timezone response buffer never holds more than 126
    characters, whatever chunks arrive: the terminator the handler
    stores behind them always falls inside the 128 bytes. *)
Theorem collect_never_overfills (chunks : list string) :
  (String.length (collect chunks) < BUFFER_SIZE - 1)%nat.
Proof.
  pose proof (collect_from EmptyString chunks) as H.
  unfold collect, BUFFER_SIZE. cbn [String.length] in H.
  specialize (H ltac:(lia)). lia.
Qed.

(** X30: a response whose chunks add up to fewer than 127 characters is
    held whole and in order. *)
Theorem collect_keeps_short_responses (chunks : list string) :
  (String.length (String.concat "" chunks) < 127)%nat ->
  collect chunks = String.concat "" chunks.
Proof.
  intros H. unfold collect. rewrite collect_all by (cbn [String.length]; lia).
  reflexivity.
Qed.

Lemma collect_keeps_short_responses_witness :
  let chunks := ["{" ++ CStr.quoted "offset"; ":-25200}"]%string in
  (String.length (String.concat "" chunks) < 127)%nat /\
  collect chunks = ("{" ++ CStr.quoted "offset" ++ ":-25200}")%string.
Proof.
  intros chunks.
  assert (H : (String.length (String.concat "" chunks) < 127)%nat)
    by (vm_compute; lia).
  split; [exact H|].
  rewrite (collect_keeps_short_responses chunks H). reflexivity.
Defined.
End AnimationTheorems.
